(** * setup-llvm-repos.py: a shallow embedding and its verified properties

    The script provisions a BTRFS subvolume with the LLVM repositories
    ([-r]), or snapshots such a subvolume and sets up cmake build
    directories inside the snapshot ([-r] with [-s]).  It is a sequence of
    shell commands and directory changes driven by module-level flags.

    The embedding keeps the script's shape: the module globals and the
    process state (working directory, everything the process did so far)
    form one [state]; every Python function is a computation in a small
    state-and-termination monad [M]; the outside world (file system,
    external commands, the [script_utils] helpers) is a record of oracles
    that answer from the history of the run. *)

From Stdlib Require Import String Ascii List ZArith Bool Lia Permutation.
From Stdlib Require Import DecimalString.
Import ListNotations.
Local Open Scope list_scope.
Local Open Scope string_scope.

(** ** Python values *)

(** The values the script stores in its globals and in the cmake table:
    [None], byte strings and small integers. *)
Inductive pyval : Type :=
| PNone
| PStr (s : string)
| PInt (z : Z).

Definition pyval_eqb (a b : pyval) : bool :=
  match a, b with
  | PNone, PNone => true
  | PStr s, PStr t => String.eqb s t
  | PInt x, PInt y => Z.eqb x y
  | _, _ => false
  end.

(** Truth value of a Python object ([if x:], [not x]). *)
Definition truthy (v : pyval) : bool :=
  match v with
  | PNone => false
  | PStr s => negb (String.eqb s "")
  | PInt z => negb (Z.eqb z 0)
  end.

(** [str(v)], as the [%s] conversion renders it. *)
Definition pystr (v : pyval) : string :=
  match v with
  | PNone => "None"
  | PStr s => s
  | PInt z => NilZero.string_of_int (Z.to_int z)
  end.

Definition nl : string := String (ascii_of_nat 10) EmptyString.

(** A Python dict as an association list; a lookup takes the first
    binding of the key. *)
Definition dict : Type := list (pyval * pyval).

Fixpoint dict_get (d : dict) (k : pyval) : option pyval :=
  match d with
  | [] => None
  | (k', v) :: d' => if pyval_eqb k k' then Some v else dict_get d' k
  end.

Definition dict_has (d : dict) (k : pyval) : bool :=
  match dict_get d k with Some _ => true | None => false end.

(** The cmake table: build flavor name to its settings.  The list order
    is the order in which [for flav in cmake_flavors] yields the keys. *)
Definition table : Type := list (string * dict).

Fixpoint table_get (t : table) (flav : string) : option dict :=
  match t with
  | [] => None
  | (k, d) :: t' => if String.eqb flav k then Some d else table_get t' flav
  end.

(** ** What the process does *)

Inductive event : Type :=
| Stderr (s : string)                    (* sys.stderr.write *)
| Stdout (s : string)                    (* print *)
| Spawn (cmd : string)                   (* an external command is run *)
| Chdir (d : string)                     (* os.chdir is called *)
| WriteFile (path content : string)      (* a file is written *)
| Verbose (lvl : Z) (msg : string)       (* u.verbose *)
| Warning (msg : string)                 (* u.warning *)
| ErrorMsg (msg : string)                (* u.error *)
| CmdFailed (cmd : string)               (* script_utils gives up on a command *)
| Call (fn arg : string)                 (* an opaque script_utils helper *)
| PoolCreate (n : nat)                   (* multiprocessing.Pool(processes=n) *)
| Dispatch (builddir cmd : string)       (* pool.apply_async(run_cmake, ...) *)
| WaitResult (idx : nat) (timeout : Z).  (* r.get(timeout=...) *)

Definition history : Type := list event.

(** The outside world.  Every oracle sees the history of the run, so an
    answer may depend on what was done before (a [mkdir] makes a later
    [chdir] succeed).  The helpers of [script_utils] are not part of the
    script; whether they return or end the process is the world's. *)
Record world : Type := {
  (* os.chdir from a working directory to a path: None on success, the
     text of the OSError otherwise *)
  os_chdir_error : history -> string -> string -> option string;
  (* u.docmd(cmd) returns (false: it ends the process) *)
  docmd_returns : history -> string -> bool;
  (* u.doscmd(cmd) returns (false: it ends the process) *)
  doscmd_returns : history -> string -> bool;
  (* truth value of u.doscmd(cmd, True) *)
  doscmd_nf_ok : history -> string -> bool;
  (* u.docmdlines(cmd): the output lines, None when it ends the process *)
  docmdlines_out : history -> string -> option (list string);
  (* u.determine_btrfs_ssdroot(here): None when it ends the process *)
  btrfs_ssdroot : history -> string -> option string;
  (* open(path, "w") and the writes succeed (false: IOError) *)
  write_ok : history -> string -> bool;
  (* the result of a dispatched run arrives within the timeout *)
  in_time : history -> string -> string -> bool;
  (* re.sub(pat, repl, s) for a replacement with a backslash, which
     re.sub reads as a template (escapes, group references): the
     result, None when it raises re.error *)
  re_sub_template : string -> string -> string -> option string
}.

(** ** Module globals and process state *)

Record globals : Type := {
  flag_subvol : pyval;
  flag_snapshot : pyval;
  flag_user : pyval;
  flag_binutils_build : bool;
  flag_run_ninja : bool;
  flag_echo : bool;
  flag_dryrun : bool;
  flag_scm_flavor : string;
  flag_cmake_type : string;
  flag_do_fetch : bool;
  flag_include_tools : bool;
  flag_include_llgo : bool;
  flag_parallel : bool;
  ssdroot : pyval;
  llvm_rw_svn : string;
  cmake_flavors : table;
  verbosity : nat
}.

Record state : Type := {
  glob : globals;
  cwd : string;
  trace : history
}.

(** Assignment to one global ([global f; f = v]). *)

Definition set_flag_subvol (v : pyval) (g : globals) : globals :=
  {| flag_subvol := v; flag_snapshot := flag_snapshot g;
     flag_user := flag_user g; flag_binutils_build := flag_binutils_build g;
     flag_run_ninja := flag_run_ninja g; flag_echo := flag_echo g;
     flag_dryrun := flag_dryrun g; flag_scm_flavor := flag_scm_flavor g;
     flag_cmake_type := flag_cmake_type g; flag_do_fetch := flag_do_fetch g;
     flag_include_tools := flag_include_tools g;
     flag_include_llgo := flag_include_llgo g;
     flag_parallel := flag_parallel g; ssdroot := ssdroot g;
     llvm_rw_svn := llvm_rw_svn g; cmake_flavors := cmake_flavors g;
     verbosity := verbosity g |}.

Definition set_flag_snapshot (v : pyval) (g : globals) : globals :=
  {| flag_subvol := flag_subvol g; flag_snapshot := v;
     flag_user := flag_user g; flag_binutils_build := flag_binutils_build g;
     flag_run_ninja := flag_run_ninja g; flag_echo := flag_echo g;
     flag_dryrun := flag_dryrun g; flag_scm_flavor := flag_scm_flavor g;
     flag_cmake_type := flag_cmake_type g; flag_do_fetch := flag_do_fetch g;
     flag_include_tools := flag_include_tools g;
     flag_include_llgo := flag_include_llgo g;
     flag_parallel := flag_parallel g; ssdroot := ssdroot g;
     llvm_rw_svn := llvm_rw_svn g; cmake_flavors := cmake_flavors g;
     verbosity := verbosity g |}.

Definition set_flag_user (v : pyval) (g : globals) : globals :=
  {| flag_subvol := flag_subvol g; flag_snapshot := flag_snapshot g;
     flag_user := v; flag_binutils_build := flag_binutils_build g;
     flag_run_ninja := flag_run_ninja g; flag_echo := flag_echo g;
     flag_dryrun := flag_dryrun g; flag_scm_flavor := flag_scm_flavor g;
     flag_cmake_type := flag_cmake_type g; flag_do_fetch := flag_do_fetch g;
     flag_include_tools := flag_include_tools g;
     flag_include_llgo := flag_include_llgo g;
     flag_parallel := flag_parallel g; ssdroot := ssdroot g;
     llvm_rw_svn := llvm_rw_svn g; cmake_flavors := cmake_flavors g;
     verbosity := verbosity g |}.

Definition set_flag_binutils_build (v : bool) (g : globals) : globals :=
  {| flag_subvol := flag_subvol g; flag_snapshot := flag_snapshot g;
     flag_user := flag_user g; flag_binutils_build := v;
     flag_run_ninja := flag_run_ninja g; flag_echo := flag_echo g;
     flag_dryrun := flag_dryrun g; flag_scm_flavor := flag_scm_flavor g;
     flag_cmake_type := flag_cmake_type g; flag_do_fetch := flag_do_fetch g;
     flag_include_tools := flag_include_tools g;
     flag_include_llgo := flag_include_llgo g;
     flag_parallel := flag_parallel g; ssdroot := ssdroot g;
     llvm_rw_svn := llvm_rw_svn g; cmake_flavors := cmake_flavors g;
     verbosity := verbosity g |}.

Definition set_flag_run_ninja (v : bool) (g : globals) : globals :=
  {| flag_subvol := flag_subvol g; flag_snapshot := flag_snapshot g;
     flag_user := flag_user g; flag_binutils_build := flag_binutils_build g;
     flag_run_ninja := v; flag_echo := flag_echo g;
     flag_dryrun := flag_dryrun g; flag_scm_flavor := flag_scm_flavor g;
     flag_cmake_type := flag_cmake_type g; flag_do_fetch := flag_do_fetch g;
     flag_include_tools := flag_include_tools g;
     flag_include_llgo := flag_include_llgo g;
     flag_parallel := flag_parallel g; ssdroot := ssdroot g;
     llvm_rw_svn := llvm_rw_svn g; cmake_flavors := cmake_flavors g;
     verbosity := verbosity g |}.

Definition set_flag_echo (v : bool) (g : globals) : globals :=
  {| flag_subvol := flag_subvol g; flag_snapshot := flag_snapshot g;
     flag_user := flag_user g; flag_binutils_build := flag_binutils_build g;
     flag_run_ninja := flag_run_ninja g; flag_echo := v;
     flag_dryrun := flag_dryrun g; flag_scm_flavor := flag_scm_flavor g;
     flag_cmake_type := flag_cmake_type g; flag_do_fetch := flag_do_fetch g;
     flag_include_tools := flag_include_tools g;
     flag_include_llgo := flag_include_llgo g;
     flag_parallel := flag_parallel g; ssdroot := ssdroot g;
     llvm_rw_svn := llvm_rw_svn g; cmake_flavors := cmake_flavors g;
     verbosity := verbosity g |}.

Definition set_flag_dryrun (v : bool) (g : globals) : globals :=
  {| flag_subvol := flag_subvol g; flag_snapshot := flag_snapshot g;
     flag_user := flag_user g; flag_binutils_build := flag_binutils_build g;
     flag_run_ninja := flag_run_ninja g; flag_echo := flag_echo g;
     flag_dryrun := v; flag_scm_flavor := flag_scm_flavor g;
     flag_cmake_type := flag_cmake_type g; flag_do_fetch := flag_do_fetch g;
     flag_include_tools := flag_include_tools g;
     flag_include_llgo := flag_include_llgo g;
     flag_parallel := flag_parallel g; ssdroot := ssdroot g;
     llvm_rw_svn := llvm_rw_svn g; cmake_flavors := cmake_flavors g;
     verbosity := verbosity g |}.

Definition set_flag_scm_flavor (v : string) (g : globals) : globals :=
  {| flag_subvol := flag_subvol g; flag_snapshot := flag_snapshot g;
     flag_user := flag_user g; flag_binutils_build := flag_binutils_build g;
     flag_run_ninja := flag_run_ninja g; flag_echo := flag_echo g;
     flag_dryrun := flag_dryrun g; flag_scm_flavor := v;
     flag_cmake_type := flag_cmake_type g; flag_do_fetch := flag_do_fetch g;
     flag_include_tools := flag_include_tools g;
     flag_include_llgo := flag_include_llgo g;
     flag_parallel := flag_parallel g; ssdroot := ssdroot g;
     llvm_rw_svn := llvm_rw_svn g; cmake_flavors := cmake_flavors g;
     verbosity := verbosity g |}.

Definition set_flag_cmake_type (v : string) (g : globals) : globals :=
  {| flag_subvol := flag_subvol g; flag_snapshot := flag_snapshot g;
     flag_user := flag_user g; flag_binutils_build := flag_binutils_build g;
     flag_run_ninja := flag_run_ninja g; flag_echo := flag_echo g;
     flag_dryrun := flag_dryrun g; flag_scm_flavor := flag_scm_flavor g;
     flag_cmake_type := v; flag_do_fetch := flag_do_fetch g;
     flag_include_tools := flag_include_tools g;
     flag_include_llgo := flag_include_llgo g;
     flag_parallel := flag_parallel g; ssdroot := ssdroot g;
     llvm_rw_svn := llvm_rw_svn g; cmake_flavors := cmake_flavors g;
     verbosity := verbosity g |}.

Definition set_flag_do_fetch (v : bool) (g : globals) : globals :=
  {| flag_subvol := flag_subvol g; flag_snapshot := flag_snapshot g;
     flag_user := flag_user g; flag_binutils_build := flag_binutils_build g;
     flag_run_ninja := flag_run_ninja g; flag_echo := flag_echo g;
     flag_dryrun := flag_dryrun g; flag_scm_flavor := flag_scm_flavor g;
     flag_cmake_type := flag_cmake_type g; flag_do_fetch := v;
     flag_include_tools := flag_include_tools g;
     flag_include_llgo := flag_include_llgo g;
     flag_parallel := flag_parallel g; ssdroot := ssdroot g;
     llvm_rw_svn := llvm_rw_svn g; cmake_flavors := cmake_flavors g;
     verbosity := verbosity g |}.

Definition set_flag_include_tools (v : bool) (g : globals) : globals :=
  {| flag_subvol := flag_subvol g; flag_snapshot := flag_snapshot g;
     flag_user := flag_user g; flag_binutils_build := flag_binutils_build g;
     flag_run_ninja := flag_run_ninja g; flag_echo := flag_echo g;
     flag_dryrun := flag_dryrun g; flag_scm_flavor := flag_scm_flavor g;
     flag_cmake_type := flag_cmake_type g; flag_do_fetch := flag_do_fetch g;
     flag_include_tools := v; flag_include_llgo := flag_include_llgo g;
     flag_parallel := flag_parallel g; ssdroot := ssdroot g;
     llvm_rw_svn := llvm_rw_svn g; cmake_flavors := cmake_flavors g;
     verbosity := verbosity g |}.

Definition set_flag_include_llgo (v : bool) (g : globals) : globals :=
  {| flag_subvol := flag_subvol g; flag_snapshot := flag_snapshot g;
     flag_user := flag_user g; flag_binutils_build := flag_binutils_build g;
     flag_run_ninja := flag_run_ninja g; flag_echo := flag_echo g;
     flag_dryrun := flag_dryrun g; flag_scm_flavor := flag_scm_flavor g;
     flag_cmake_type := flag_cmake_type g; flag_do_fetch := flag_do_fetch g;
     flag_include_tools := flag_include_tools g; flag_include_llgo := v;
     flag_parallel := flag_parallel g; ssdroot := ssdroot g;
     llvm_rw_svn := llvm_rw_svn g; cmake_flavors := cmake_flavors g;
     verbosity := verbosity g |}.

Definition set_flag_parallel (v : bool) (g : globals) : globals :=
  {| flag_subvol := flag_subvol g; flag_snapshot := flag_snapshot g;
     flag_user := flag_user g; flag_binutils_build := flag_binutils_build g;
     flag_run_ninja := flag_run_ninja g; flag_echo := flag_echo g;
     flag_dryrun := flag_dryrun g; flag_scm_flavor := flag_scm_flavor g;
     flag_cmake_type := flag_cmake_type g; flag_do_fetch := flag_do_fetch g;
     flag_include_tools := flag_include_tools g;
     flag_include_llgo := flag_include_llgo g; flag_parallel := v;
     ssdroot := ssdroot g; llvm_rw_svn := llvm_rw_svn g;
     cmake_flavors := cmake_flavors g; verbosity := verbosity g |}.

Definition set_ssdroot (v : pyval) (g : globals) : globals :=
  {| flag_subvol := flag_subvol g; flag_snapshot := flag_snapshot g;
     flag_user := flag_user g; flag_binutils_build := flag_binutils_build g;
     flag_run_ninja := flag_run_ninja g; flag_echo := flag_echo g;
     flag_dryrun := flag_dryrun g; flag_scm_flavor := flag_scm_flavor g;
     flag_cmake_type := flag_cmake_type g; flag_do_fetch := flag_do_fetch g;
     flag_include_tools := flag_include_tools g;
     flag_include_llgo := flag_include_llgo g;
     flag_parallel := flag_parallel g; ssdroot := v;
     llvm_rw_svn := llvm_rw_svn g; cmake_flavors := cmake_flavors g;
     verbosity := verbosity g |}.

Definition set_llvm_rw_svn (v : string) (g : globals) : globals :=
  {| flag_subvol := flag_subvol g; flag_snapshot := flag_snapshot g;
     flag_user := flag_user g; flag_binutils_build := flag_binutils_build g;
     flag_run_ninja := flag_run_ninja g; flag_echo := flag_echo g;
     flag_dryrun := flag_dryrun g; flag_scm_flavor := flag_scm_flavor g;
     flag_cmake_type := flag_cmake_type g; flag_do_fetch := flag_do_fetch g;
     flag_include_tools := flag_include_tools g;
     flag_include_llgo := flag_include_llgo g;
     flag_parallel := flag_parallel g; ssdroot := ssdroot g;
     llvm_rw_svn := v; cmake_flavors := cmake_flavors g;
     verbosity := verbosity g |}.

Definition set_verbosity (v : nat) (g : globals) : globals :=
  {| flag_subvol := flag_subvol g; flag_snapshot := flag_snapshot g;
     flag_user := flag_user g; flag_binutils_build := flag_binutils_build g;
     flag_run_ninja := flag_run_ninja g; flag_echo := flag_echo g;
     flag_dryrun := flag_dryrun g; flag_scm_flavor := flag_scm_flavor g;
     flag_cmake_type := flag_cmake_type g; flag_do_fetch := flag_do_fetch g;
     flag_include_tools := flag_include_tools g;
     flag_include_llgo := flag_include_llgo g;
     flag_parallel := flag_parallel g; ssdroot := ssdroot g;
     llvm_rw_svn := llvm_rw_svn g; cmake_flavors := cmake_flavors g;
     verbosity := v |}.

(** ** The monad: state, normal return, exit and uncaught exception *)

Inductive outcome (A : Type) : Type :=
| Ret (a : A)
| Exit (code : Z)          (* sys.exit(code) *)
| Raise (exn : string).    (* an exception nothing catches *)
Arguments Ret {A} a.
Arguments Exit {A} code.
Arguments Raise {A} exn.

Definition M (A : Type) : Type := state -> outcome A * state.

Definition ret {A} (a : A) : M A := fun st => (Ret a, st).

Definition bind {A B} (c : M A) (k : A -> M B) : M B :=
  fun st =>
    match c st with
    | (Ret a, st') => k a st'
    | (Exit n, st') => (Exit n, st')
    | (Raise e, st') => (Raise e, st')
    end.

Declare Scope monad_scope.
Delimit Scope monad_scope with monad.
Notation "x <- c ;; k" := (bind c (fun x => k))
  (at level 61, c at next level, right associativity) : monad_scope.
Notation "c ;; k" := (bind c (fun _ => k))
  (at level 61, right associativity) : monad_scope.
Local Open Scope monad_scope.

Definition sys_exit {A} (code : Z) : M A := fun st => (Exit code, st).
Definition raise {A} (exn : string) : M A := fun st => (Raise exn, st).

Definition get_globals : M globals := fun st => (Ret (glob st), st).
Definition put_globals (g : globals) : M unit :=
  fun st => (Ret tt, {| glob := g; cwd := cwd st; trace := trace st |}).
Definition os_getcwd : M string := fun st => (Ret (cwd st), st).
Definition emit (e : event) : M unit :=
  fun st => (Ret tt, {| glob := glob st; cwd := cwd st; trace := (trace st ++ [e])%list |}).
Definition set_cwd (d : string) : M unit :=
  fun st => (Ret tt, {| glob := glob st; cwd := d; trace := trace st |}).
Definition get_history : M history := fun st => (Ret (trace st), st).

Definition when (b : bool) (c : M unit) : M unit := if b then c else ret tt.

(** The exit status the operating system sees: an uncaught exception
    ends the interpreter with status 1. *)
Definition exit_status {A} (o : outcome A) : Z :=
  match o with
  | Ret _ => 0
  | Exit n => n
  | Raise _ => 1
  end.

(** A string operand of [+] or of a command: anything else is a
    TypeError. *)
Definition as_str (v : pyval) : M string :=
  match v with
  | PStr s => ret s
  | _ => raise "TypeError"
  end.

(** ** Paths *)

Definition is_abs (p : string) : bool :=
  match p with
  | String "/" _ => true
  | _ => false
  end.

(** Where a successful [os.chdir(d)] lands: [d] itself when absolute,
    below the working directory otherwise.  Paths stay as written: this
    is the name the kernel has for the directory, the one [os.getcwd]
    returns, when the paths given are normalised and free of symbolic
    links, and another name of the same directory otherwise. *)
Definition path_join (base d : string) : string :=
  if is_abs d then d else base ++ "/" ++ d.

(** ** Strings *)

(** Whitespace of [str.strip()] and of the regular expression class
    [\s]: space, tab, newline, vertical tab, form feed, carriage
    return. *)
Definition is_space (c : ascii) : bool :=
  let n := nat_of_ascii c in
  Nat.eqb n 32 || (Nat.leb 9 n && Nat.leb n 13).

Fixpoint lstrip (s : string) : string :=
  match s with
  | EmptyString => EmptyString
  | String c s' => if is_space c then lstrip s' else s
  end.

Fixpoint rstrip (s : string) : string :=
  match s with
  | EmptyString => EmptyString
  | String c s' =>
      match rstrip s' with
      | EmptyString => if is_space c then EmptyString else String c EmptyString
      | r => String c r
      end
  end.

Definition strip (s : string) : string := rstrip (lstrip s).

Fixpoint strip_prefix (p s : string) : option string :=
  match p, s with
  | EmptyString, _ => Some s
  | String a p', String b s' => if Ascii.eqb a b then strip_prefix p' s' else None
  | String _ _, EmptyString => None
  end.

Fixpoint all_nonspace (s : string) : bool :=
  match s with
  | EmptyString => true
  | String c s' => negb (is_space c) && all_nonspace s'
  end.

(** A newline that ends the string is left out: that is where [$]
    matches besides the very end. *)
Fixpoint drop_final_newline (s : string) : string :=
  match s with
  | EmptyString => EmptyString
  | String c EmptyString => if Ascii.eqb c (ascii_of_nat 10) then EmptyString else s
  | String c s' => String c (drop_final_newline s')
  end.

(** [re.compile(r"^bootstrap\.(\S+)$").match(s)]: group 1 of the match,
    [None] when there is none. *)
Definition bootstrap_rx_match (s : string) : option string :=
  match strip_prefix "bootstrap." s with
  | None => None
  | Some rest =>
      let tb := drop_final_newline rest in
      if negb (String.eqb tb "") && all_nonspace tb then Some tb else None
  end.

(** [re.sub(pat, repl, s)] for a pattern without special characters
    and a replacement without a backslash, which is then taken
    literally: every occurrence of [pat], left to right.  [skip] counts
    the characters of a match still to pass over. *)
Fixpoint re_sub_from (skip : nat) (pat repl s : string) : string :=
  match s with
  | EmptyString => EmptyString
  | String c s' =>
      match skip with
      | S k => re_sub_from k pat repl s'
      | O =>
          match strip_prefix pat s with
          | Some _ => repl ++ re_sub_from (String.length pat - 1) pat repl s'
          | None => String c (re_sub_from 0 pat repl s')
          end
      end
  end.

Definition re_sub_literal (pat repl s : string) : string :=
  re_sub_from 0 pat repl s.

Definition has_backslash (s : string) : bool :=
  existsb (Ascii.eqb "092") (list_ascii_of_string s).

(** [%d] of a non-negative index. *)
Definition str_of_nat (n : nat) : string := NilZero.string_of_uint (Nat.to_uint n).

(** ** getopt *)

(** [getopt.getopt(args, shortopts)] of the Python 2 library, for short
    options only (the script passes no long options, so every [--name]
    is an error).  The result is the list of (option, argument) pairs and
    the arguments left, or the text of the GetoptError. *)

Definition str_of_ascii (c : ascii) : string := String c EmptyString.

(** [short_has_arg]: [Some true] when the option takes an argument,
    [None] when the option letter is not one of [shortopts]. *)
Fixpoint short_has_arg (opt : ascii) (shortopts : string) : option bool :=
  match shortopts with
  | EmptyString => None
  | String c rest =>
      if Ascii.eqb opt c && negb (Ascii.eqb c ":") then
        Some (match rest with String ":" _ => true | _ => false end)
      else short_has_arg opt rest
  end.

(** [do_shorts] on the letters of one argument.  [next] is the argument
    that follows, if any; the flag of the result says whether it was
    taken as an option's value. *)
Fixpoint do_shorts (optstring shortopts : string) (next : option string)
  : string + (list (string * string) * bool) :=
  match optstring with
  | EmptyString => inr ([], false)
  | String opt rest =>
      match short_has_arg opt shortopts with
      | None => inl ("option -" ++ str_of_ascii opt ++ " not recognized")
      | Some true =>
          match rest with
          | EmptyString =>
              match next with
              | None => inl ("option -" ++ str_of_ascii opt ++ " requires argument")
              | Some a => inr ([("-" ++ str_of_ascii opt, a)], true)
              end
          | _ => inr ([("-" ++ str_of_ascii opt, rest)], false)
          end
      | Some false =>
          match do_shorts rest shortopts next with
          | inl e => inl e
          | inr (opts, used) => inr (("-" ++ str_of_ascii opt, "") :: opts, used)
          end
      end
  end.

(** The part of a long option before its first [=]. *)
Fixpoint before_eq (s : string) : string :=
  match s with
  | EmptyString => EmptyString
  | String c s' => if Ascii.eqb c "=" then EmptyString else String c (before_eq s')
  end.

Definition getopt_result : Type := string + (list (string * string) * list string).

Definition getopt_cons (opts : list (string * string)) (r : getopt_result)
  : getopt_result :=
  match r with
  | inl e => inl e
  | inr (opts', args) => inr (opts ++ opts', args)%list
  end.

(** [s.startswith(p)] and [s[n:]]. *)
Definition startswith (s p : string) : bool :=
  match strip_prefix p s with Some _ => true | None => false end.

Fixpoint slice_from (n : nat) (s : string) : string :=
  match n, s with
  | O, _ => s
  | S n', String _ s' => slice_from n' s'
  | S _, EmptyString => EmptyString
  end.

Fixpoint getopt (args : list string) (shortopts : string) : getopt_result :=
  match args with
  | [] => inr ([], [])
  | a :: rest =>
      if negb (startswith a "-" && negb (String.eqb a "-")) then inr ([], args)
      else if String.eqb a "--" then inr ([], rest)
      else if startswith a "--" then
        inl ("option --" ++ before_eq (slice_from 2 a) ++ " not recognized")
      else
        match rest with
        | [] =>
            match do_shorts (slice_from 1 a) shortopts None with
            | inl e => inl e
            | inr (opts, _) => inr (opts, [])
            end
        | nxt :: rest' =>
            match do_shorts (slice_from 1 a) shortopts (Some nxt) with
            | inl e => inl e
            | inr (opts, true) => getopt_cons opts (getopt rest' shortopts)
            | inr (opts, false) => getopt_cons opts (getopt rest shortopts)
            end
        end
  end.

(** ** The tables of the script *)

Definition clang_c_compiler : string := "/usr/bin/clang-3.6".
Definition clang_cxx_compiler : string := "/usr/bin/clang++-3.6".
Definition gcc_c_compiler : string := "/usr/bin/gcc-4.8".
Definition gcc_cxx_compiler : string := "/usr/bin/g++-4.8".
Definition covopt : string := "--coverage".

Definition legal_tags : dict :=
  [(PStr "cmflav", PInt 1); (PStr "ccflav", PInt 1);
   (PStr "extra", PInt 1); (PStr "early", PInt 1)].

(** The literal the script binds [cmake_flavors] to, in the order it is
    written.  The order in which Python 2 iterates a dict is that of its
    hash table, so statements about a run take the table of the state,
    whose list order stands for the iteration order. *)
Definition cmake_flavors_literal : table :=
  [ ("opt", [(PStr "cmflav", PNone); (PStr "early", PInt 1);
             (PStr "ccflav", PStr "clang"); (PStr "extra", PNone)]);
    ("dbg", [(PStr "cmflav", PNone); (PStr "early", PInt 1);
             (PStr "ccflav", PStr "clang");
             (PStr "extra",
              PStr ("-DCXX_SUPPORTS_COVERED_SWITCH_DEFAULT_FLAG=0 "
                    ++ "-DCMAKE_C_FLAGS='-g -O0' "
                    ++ "-DCMAKE_CXX_FLAGS='-g -O0'"))]);
    ("rel", [(PStr "cmflav", PStr "Release"); (PStr "early", PInt 1);
             (PStr "ccflav", PStr "gcc"); (PStr "extra", PNone)]);
    ("cov", [(PStr "cmflav", PNone); (PStr "ccflav", PStr "def");
             (PStr "extra",
              PStr ("-DCMAKE_C_FLAGS='" ++ covopt ++ "' "
                    ++ "-DCMAKE_CXX_FLAGS='" ++ covopt ++ "'"))]);
    ("clbootstrap.rel",
            [(PStr "cmflav", PStr "Release"); (PStr "ccflav", PStr "gcc");
             (PStr "extra", PStr "-DCLANG_ENABLE_BOOTSTRAP=On")]);
    ("bootstrap.reldb",
            [(PStr "cmflav", PStr "RelWithDebInfo");
             (PStr "ccflav", PStr "bootstrap=build.opt");
             (PStr "extra",
              PStr ("-DLLVM_BUILD_EXAMPLES=Off "
                    ++ "-DCOMPILER_RT_BUILD_BUILTINS=Off "))]) ].

(** The globals as the module body leaves them before [parse_args]. *)
Definition initial_globals (t : table) : globals :=
  {| flag_subvol := PNone; flag_snapshot := PNone; flag_user := PNone;
     flag_binutils_build := true; flag_run_ninja := true;
     flag_echo := true; flag_dryrun := false;
     flag_scm_flavor := "git-svn"; flag_cmake_type := "Debug";
     flag_do_fetch := false; flag_include_tools := true;
     flag_include_llgo := false; flag_parallel := true;
     ssdroot := PNone;
     llvm_rw_svn := "https://REPLACE_WITH_USER@llvm.org/svn/llvm-project";
     cmake_flavors := t; verbosity := 0 |}.

Definition initial_state (t : table) (here : string) : state :=
  {| glob := initial_globals t; cwd := here; trace := [] |}.

Section Script.

Variable env : world.
(* os.path.basename(sys.argv[0]) *)
Variable me : string.

(** ** script_utils *)

(** Modelled from the spec: [u.error] of script_utils, which is not part
    of the sources.  Fatal errors end the process through one path that
    prints to the diagnostic stream and exits with status 1. *)
Definition u_error {A} (msg : string) : M A :=
  emit (ErrorMsg msg) ;; sys_exit 1.

Definition u_warning (msg : string) : M unit := emit (Warning msg).
Definition u_verbose (lvl : Z) (msg : string) : M unit := emit (Verbose lvl msg).

(** [u.docmd], [u.doscmd], [u.docmdlines]: the command is run; the world
    says whether the helper returns. *)
Definition u_docmd (cmd : string) : M unit :=
  h <- get_history ;;
  emit (Spawn cmd) ;;
  if docmd_returns env h cmd then ret tt
  else (emit (CmdFailed cmd) ;; sys_exit 1).

Definition u_doscmd (cmd : string) : M unit :=
  h <- get_history ;;
  emit (Spawn cmd) ;;
  if doscmd_returns env h cmd then ret tt
  else (emit (CmdFailed cmd) ;; sys_exit 1).

Definition u_docmdlines (cmd : string) : M (list string) :=
  h <- get_history ;;
  emit (Spawn cmd) ;;
  match docmdlines_out env h cmd with
  | Some lines => ret lines
  | None => emit (CmdFailed cmd) ;; sys_exit 1
  end.

(** [re.sub(pat, repl, s)], for a pattern without special characters.
    A replacement with a backslash is a template; what [re.sub] makes
    of it, or that it raises [re.error], is the world's. *)
Definition re_sub (pat repl s : string) : M string :=
  if has_backslash repl then
    match re_sub_template env pat repl s with
    | Some out => ret out
    | None => raise "re.error"
    end
  else ret (re_sub_literal pat repl s).

(** ** The command execution facade *)

Definition docmd (cmd : string) : M unit :=
  g <- get_globals ;;
  when (flag_echo g) (emit (Stderr ("executing: " ++ cmd ++ nl))) ;;
  if flag_dryrun g then ret tt
  else u_docmd cmd.

Definition doscmd (cmd : string) : M unit :=
  g <- get_globals ;;
  when (flag_echo g) (emit (Stderr ("executing: " ++ cmd ++ nl))) ;;
  if flag_dryrun g then ret tt
  else u_doscmd cmd.

Definition os_chdir (thedir : string) : M (option string) :=
  h <- get_history ;;
  here <- os_getcwd ;;
  emit (Chdir thedir) ;;
  match os_chdir_error env h here thedir with
  | None => set_cwd (path_join here thedir) ;; ret None
  | Some err => ret (Some err)
  end.

Definition dochdir (thedir : string) : M unit :=
  g <- get_globals ;;
  when (flag_echo g || flag_dryrun g) (emit (Stderr ("cd " ++ thedir ++ nl))) ;;
  if flag_dryrun g then ret tt
  else
    r <- os_chdir thedir ;;
    match r with
    | None => ret tt
    | Some err => u_error ("chdir failed: " ++ err)
    end.

(** [dochdir] applied to a global that may still be [None]: both the
    concatenation and [os.chdir] refuse a non-string before any effect. *)
Definition dochdir_val (v : pyval) : M unit :=
  d <- as_str v ;; dochdir d.

(** ** Repositories *)

Definition llvm_git_on_svn : string := "https://llvm.org/svn/llvm-project".
Definition llvm_ro_svn : string := "http://llvm.org/svn/llvm-project".
Definition binutils_git : string := "git://sourceware.org/git/binutils-gdb.git".
Definition llvm_git : string := "http://llvm.org/git/llvm.git".
Definition clang_git : string := "http://llvm.org/git/clang.git".
Definition clang_tools_git : string := "http://llvm.org/git/clang-tools-extra.git".
Definition compiler_rt_git : string := "http://llvm.org/git/compiler-rt.git".
Definition llgo_git : string := "http://llvm.org/git/llgo.git".

(** The three commands that turn a fresh git clone into a git-svn
    client; the script repeats them for every repository. *)
Definition git_svn_setup (subdir svnpath : string) : M unit :=
  g <- get_globals ;;
  dochdir subdir ;;
  doscmd ("git svn init " ++ llvm_git_on_svn ++ "/" ++ svnpath ++ "/trunk "
          ++ "--username=" ++ pystr (flag_user g)) ;;
  doscmd "git config svn-remote.svn.fetch :refs/remotes/origin/master" ;;
  doscmd "git svn rebase -l".

Definition do_subvol_create : M unit :=
  g <- get_globals ;;
  here <- os_getcwd ;;
  docmd ("snapshotutil.py mkvol " ++ pystr (flag_subvol g)) ;;
  dochdir_val (ssdroot g) ;;
  dochdir_val (flag_subvol g) ;;
  let top := pystr (ssdroot g) ++ "/" ++ pystr (flag_subvol g) in
  (* First llvm *)
  (if String.eqb (flag_scm_flavor g) "svn" then
     doscmd ("svn co " ++ llvm_rw_svn g ++ "/llvm/trunk llvm")
   else
     doscmd ("git clone " ++ llvm_git) ;;
     when (String.eqb (flag_scm_flavor g) "git-svn")
          (git_svn_setup "llvm" "llvm")) ;;
  (* Next clang *)
  dochdir (top ++ "/llvm/tools") ;;
  (if String.eqb (flag_scm_flavor g) "svn" then
     doscmd ("svn co " ++ llvm_ro_svn ++ "/cfe/trunk clang")
   else
     doscmd ("git clone " ++ clang_git) ;;
     when (String.eqb (flag_scm_flavor g) "git-svn")
          (git_svn_setup "clang" "cfe")) ;;
  (* Now clang tools *)
  when (flag_include_tools g)
    (dochdir (top ++ "/llvm/tools/clang/tools") ;;
     if String.eqb (flag_scm_flavor g) "git" then
       doscmd ("svn co " ++ llvm_ro_svn ++ "/clang-tools-extra/trunk extra")
     else
       doscmd ("git clone " ++ clang_tools_git ++ " extra") ;;
       when (String.eqb (flag_scm_flavor g) "git-svn")
            (git_svn_setup "extra" "clang-tools-extra")) ;;
  (* Now llgo *)
  when (flag_include_llgo g)
    (dochdir (top ++ "/llvm/tools") ;;
     if String.eqb (flag_scm_flavor g) "git" then
       doscmd ("svn co " ++ llvm_ro_svn ++ "/llgo/trunk llgo")
     else
       doscmd ("git clone " ++ llgo_git ++ " llgo") ;;
       when (String.eqb (flag_scm_flavor g) "git-svn")
            (git_svn_setup "llgo" "llgo")) ;;
  (* Now compiler-rt *)
  dochdir (top ++ "/llvm/projects") ;;
  (if String.eqb (flag_scm_flavor g) "svn" then
     doscmd ("svn co " ++ llvm_ro_svn ++ "/compiler-rt/trunk compiler-rt")
   else
     doscmd ("git clone " ++ compiler_rt_git) ;;
     when (String.eqb (flag_scm_flavor g) "git-svn")
          (git_svn_setup "compiler-rt" "compiler-rt")) ;;
  (* Now binutils *)
  dochdir top ;;
  doscmd ("git clone " ++ binutils_git ++ " binutils") ;;
  dochdir here.

(** ** Refreshing the subvolume *)

Definition do_fetch (flavor where_ : string) : M unit :=
  here <- os_getcwd ;;
  dochdir where_ ;;
  (if String.eqb flavor "git" then
     docmd "git fetch"
   else if String.eqb flavor "git-svn" then
     docmd "git fetch" ;;
     docmd "git svn rebase -l"
   else
     docmd "svn update") ;;
  dochdir here.

Fixpoint fetch_lines (flavor : string) (lines : list string) : M unit :=
  match lines with
  | [] => ret tt
  | line :: rest => do_fetch flavor (strip line) ;; fetch_lines flavor rest
  end.

Definition fetch_in_volume : M unit :=
  g <- get_globals ;;
  let top := pystr (ssdroot g) ++ "/" ++ pystr (flag_subvol g) in
  dochdir top ;;
  (* First binutils (which is only git) *)
  do_fetch "git" "binutils" ;;
  dochdir "llvm" ;;
  (* Next llvm stuff *)
  let tofind := if String.eqb (flag_scm_flavor g) "svn" then ".svn" else ".git" in
  lines <- u_docmdlines ("find . -depth -name " ++ tofind ++ " -print") ;;
  fetch_lines (flag_scm_flavor g) lines ;;
  dochdir top.

(** ** Resolving a build flavor *)

(** [cmake_flavors[flav]] *)
Definition flavor_entry (flav : string) : M dict :=
  g <- get_globals ;;
  match table_get (cmake_flavors g) flav with
  | Some fd => ret fd
  | None => raise "KeyError"
  end.

(** [d[k]] *)
Definition dict_item (d : dict) (k : pyval) : M pyval :=
  match dict_get d k with
  | Some v => ret v
  | None => raise "KeyError"
  end.

Definition bootstrap_tooldir (flav : string) : M pyval :=
  g <- get_globals ;;
  fd <- flavor_entry flav ;;
  ccflav <- dict_item fd (PStr "ccflav") ;;
  s <- as_str ccflav ;;
  match bootstrap_rx_match s with
  | None => ret PNone
  | Some tb =>
      ret (PStr (pystr (ssdroot g) ++ "/" ++ pystr (flag_subvol g) ++ "/" ++ tb))
  end.

Definition select_cmake_type (flav : string) : M pyval :=
  g <- get_globals ;;
  fd <- flavor_entry flav ;;
  when (negb (dict_has fd (PStr "cmflav")))
       (u_error ("internal error: build flavor " ++ flav
                 ++ " has no cmflav setting")) ;;
  cmflav <- dict_item fd (PStr "cmflav") ;;
  if negb (truthy cmflav) then ret (PStr (flag_cmake_type g))
  else ret cmflav.

Definition select_cmake_extras (flav : string) : M pyval :=
  fd <- flavor_entry flav ;;
  if negb (dict_has fd (PStr "extra")) then ret (PStr "")
  else
    cmflav <- dict_item fd (PStr "extra") ;;
    if negb (truthy cmflav) then ret (PStr "")
    else ret cmflav.

Definition select_dyld_library_path (flav : string) : M string :=
  tbdir <- bootstrap_tooldir flav ;;
  if negb (truthy tbdir) then ret ""
  else ret ("env DYLD_LIBRARY_PATH=" ++ pystr tbdir ++ "/lib").

Definition select_compiler_flavor (flav : string) : M string :=
  g <- get_globals ;;
  when (negb (match table_get (cmake_flavors g) flav with
              | Some _ => true | None => false end))
       (u_error ("internal error -- flavor " ++ flav ++ " not in cmake_flavors")) ;;
  fd <- flavor_entry flav ;;
  when (negb (dict_has fd (PStr "ccflav")))
       (u_error ("internal error: build flavor " ++ flav
                 ++ " has no ccflav setting")) ;;
  ccflav <- dict_item fd (PStr "ccflav") ;;
  tbdir <- bootstrap_tooldir flav ;;
  let finish (extrastuff build_c_compiler build_cxx_compiler : string) :=
    ret (extrastuff ++ "-DCMAKE_C_COMPILER=" ++ build_c_compiler ++ " "
         ++ "-DCMAKE_CXX_COMPILER=" ++ build_cxx_compiler) in
  if pyval_eqb ccflav (PStr "gcc") then
    finish "" gcc_c_compiler gcc_cxx_compiler
  else if pyval_eqb ccflav (PStr "clang") then
    finish "" clang_c_compiler clang_cxx_compiler
  else if pyval_eqb ccflav (PStr "def") then
    ret ""
  else if truthy tbdir then
    finish ("-DCMAKE_RANLIB=" ++ pystr tbdir ++ "/bin/llvm-ranlib "
            ++ "-DCMAKE_AR=" ++ pystr tbdir ++ "/bin/llvm-ar ")
           (pystr tbdir ++ "/bin/clang")
           (pystr tbdir ++ "/bin/clang++")
  else
    u_error ("internal error -- bad ccflav setting " ++ pystr ccflav).

(** ** Files written into a build directory *)

(** [with open(path, "w") as wf: wf.write(...)] under [except IOError]. *)
Definition write_file (path content errmsg : string) : M unit :=
  h <- get_history ;;
  if write_ok env h path then emit (WriteFile path content)
  else u_error errmsg.

Definition emit_cmake_cmd_script (flav : string) : M string :=
  g <- get_globals ;;
  let bpath := "LLVM_BINUTILS_INCDIR=" ++ pystr (ssdroot g) ++ "/"
               ++ pystr (flag_snapshot g) ++ "/binutils/include" in
  tup <- flavor_entry flav ;;
  dyldsetting <- select_dyld_library_path flav ;;
  ccomp <- select_compiler_flavor flav ;;
  cmake_type <- select_cmake_type flav ;;
  extra <- dict_item tup (PInt 2) ;;
  let cmake_cmd := dyldsetting ++ " cmake -DCMAKE_BUILD_TYPE=" ++ pystr cmake_type
                   ++ " -D" ++ bpath ++ " " ++ ccomp ++ " " ++ pystr extra
                   ++ " -G Ninja ../llvm" in
  (if flag_dryrun g then
     emit (Stdout ("+++ archiving cmake cmd: " ++ cmake_cmd ++ nl))
   else
     write_file "./.cmake_cmd" (cmake_cmd ++ nl) "open/write failed for .cmake_cmd") ;;
  ret cmake_cmd.

Definition clean_sh (bpath flav : string) : string :=
  "#!/bin/sh" ++ nl
  ++ "set -e" ++ nl
  ++ "cd " ++ bpath ++ " || exit 9" ++ nl
  ++ "cd ../binutils-build" ++ nl
  ++ "echo ... cleaning binutils-build" ++ nl
  ++ "make clean 1> ../build." ++ flav ++ "/.clean.err 2>&1" ++ nl
  ++ "echo ... cleaning llvm" ++ nl
  ++ "cd ../build." ++ flav ++ nl
  ++ "ninja clean 1>> .clean.err 2>&1" ++ nl
  ++ "exit 0" ++ nl.

Definition build_all_sh (bpath flav : string) : string :=
  "#!/bin/sh" ++ nl
  ++ "set -e" ++ nl
  ++ "cd " ++ bpath ++ " || exit 9" ++ nl
  ++ "cd ../binutils-build" ++ nl
  ++ "echo ... running make in binutils-build" ++ nl
  ++ "make -j40 1> ../build." ++ flav ++ "/.binutils-build.err 2>&1" ++ nl
  ++ "make -j40 all-gold 1> " ++ "../build." ++ flav
  ++ "/.binutils-build.err 2>&1" ++ nl
  ++ "cd ../build." ++ flav ++ nl
  ++ "echo ... running ninja build" ++ nl
  ++ "ninja" ++ nl
  ++ "exit 0" ++ nl.

Definition clean_and_build_all_sh (bpath : string) : string :=
  "#!/bin/sh" ++ nl
  ++ "set -e" ++ nl
  ++ "cd " ++ bpath ++ " || exit 9" ++ nl
  ++ "sh ./.clean.sh" ++ nl
  ++ "sh ./.build-all.sh" ++ nl
  ++ "exit 0" ++ nl.

Definition emit_rebuild_scripts (flav : string) : M unit :=
  g <- get_globals ;;
  let bpath := pystr (ssdroot g) ++ "/" ++ pystr (flag_snapshot g)
               ++ "/build." ++ flav in
  if flag_dryrun g then
    emit (Stdout ("+++ archiving clean + build cmds" ++ nl))
  else
    (* Emit clean script *)
    write_file "./.clean.sh" (clean_sh bpath flav)
               "open/write failed for .clean.sh" ;;
    (* Emit build-all script *)
    write_file "./.build-all.sh" (build_all_sh bpath flav)
               "open/write failed for .build-all.sh" ;;
    (* Emit clean-and-build-all script *)
    write_file "./.clean-and-build-all.sh" (clean_and_build_all_sh bpath)
               "open/write failed for .cmake_cmd".

Definition do_configure_binutils : M unit :=
  docmd "mkdir binutils-build" ;;
  dochdir "binutils-build" ;;
  doscmd ("../binutils/configure --enable-gold "
          ++ "--enable-plugins --disable-werror") ;;
  dochdir "..".

(** ** Running cmake *)

(** [u.doscmd(cmd, True)]: the command is run and its success comes
    back as a truth value. *)
Definition u_doscmd_nf (cmd : string) : M bool :=
  h <- get_history ;;
  emit (Spawn cmd) ;;
  ret (doscmd_nf_ok env h cmd).

Definition run_cmake (builddir cmake_cmd : string) : M Z :=
  r <- os_chdir builddir ;;
  match r with
  | Some err => u_warning ("chdir failed: " ++ err) ;; ret 1%Z
  | None =>
      rv <- u_doscmd_nf cmake_cmd ;;
      if negb rv then
        u_warning ("cmd command returned bad status: " ++ cmake_cmd) ;;
        ret 1%Z
      else ret 0%Z
  end.

(** The handle [pool.apply_async] returns.  The worker is another
    process: what it does is not part of this process's history, and the
    interleaving is not modelled.  Its run is evaluated on a copy of the
    state at dispatch and only its result is kept. *)
Record async_result : Type := {
  ar_builddir : string;
  ar_cmd : string;
  ar_value : outcome Z
}.

Definition pool_apply_async_run_cmake (builddir cmake_cmd : string) : M async_result :=
  fun st =>
    let r := {| ar_builddir := builddir; ar_cmd := cmake_cmd;
                ar_value := fst (run_cmake builddir cmake_cmd st) |} in
    bind (emit (Dispatch builddir cmake_cmd)) (fun _ => ret r) st.

(** [r.get(timeout=t)]: the worker's return value, its exception raised
    again, or TimeoutError. *)
Definition async_get (idx : nat) (r : async_result) (timeout : Z) : M Z :=
  h <- get_history ;;
  emit (WaitResult idx timeout) ;;
  if in_time env h (ar_builddir r) (ar_cmd r) then
    match ar_value r with
    | Ret v => ret v
    | Exit _ => raise "SystemExit"
    | Raise e => raise e
    end
  else raise "TimeoutError".

(** The first loop of [do_setup_cmake], over the flavors still to do;
    [results] is the list built so far. *)
Fixpoint setup_flavors (flavs : list string) (results : list async_result)
  : M (list async_result) :=
  match flavs with
  | [] => ret results
  | flav :: rest =>
      g <- get_globals ;;
      docmd ("mkdir build." ++ flav) ;;
      dochdir ("build." ++ flav) ;;
      emit_rebuild_scripts flav ;;
      cmake_cmd <- emit_cmake_cmd_script flav ;;
      results' <-
        (if flag_parallel g && negb (flag_dryrun g) then
           u_verbose 0 ("...kicking off cmake for " ++ flav ++ " in parallel...") ;;
           let builddir := pystr (ssdroot g) ++ "/" ++ pystr (flag_snapshot g)
                           ++ "/build." ++ flav in
           r <- pool_apply_async_run_cmake builddir cmake_cmd ;;
           ret (results ++ [r])%list
         else
           doscmd cmake_cmd ;;
           ret results) ;;
      dochdir ".." ;;
      setup_flavors rest results'
  end.

(** The second loop: [for idx in range(0, nr)], from [idx] on, with the
    value of [rc] so far. *)
Fixpoint wait_results (idx : nat) (results : list async_result) (rc : Z) : M Z :=
  match results with
  | [] => ret rc
  | r :: rest =>
      u_verbose 1 ("waiting on result " ++ str_of_nat idx) ;;
      res <- async_get idx r 600 ;;
      wait_results (S idx) rest (if negb (Z.eqb res 0) then 1%Z else rc)
  end.

(** [multiprocessing.Pool(processes=n)]: Python 2.7 refuses a pool
    without workers. *)
Definition multiprocessing_Pool (n : nat) : M unit :=
  if Nat.eqb n 0 then raise "ValueError" else emit (PoolCreate n).

Definition do_setup_cmake : M unit :=
  g <- get_globals ;;
  when (flag_parallel g) (multiprocessing_Pool (List.length (cmake_flavors g))) ;;
  results <- setup_flavors (map fst (cmake_flavors g)) [] ;;
  rc <- wait_results 0 results 0 ;;
  when (negb (Z.eqb rc 0)) (u_error "one or more cmake cmds failed").

(** ** Snapshot mode *)

Definition do_snapshot_create : M unit :=
  g <- get_globals ;;
  when (flag_do_fetch g) fetch_in_volume ;;
  docmd ("snapshotutil.py mksnap " ++ pystr (flag_subvol g) ++ " "
         ++ pystr (flag_snapshot g)) ;;
  dochdir_val (ssdroot g) ;;
  dochdir_val (flag_snapshot g) ;;
  do_configure_binutils ;;
  do_setup_cmake.

Definition do_snapshot_build : M unit :=
  g <- get_globals ;;
  dochdir_val (ssdroot g) ;;
  dochdir_val (flag_snapshot g) ;;
  (if flag_binutils_build g then
     dochdir "binutils-build" ;;
     doscmd "make -j40" ;;
     doscmd "make -j40 all-gold" ;;
     dochdir ".."
   else
     u_verbose 0 "... binutils build stubbed out") ;;
  (if flag_run_ninja g then
     dochdir "build.opt" ;;
     docmd "ninja" ;;
     dochdir ".."
   else
     u_verbose 0 "... ninja build stubbed out").

(** ** Command line *)

Definition usage_text : string :=
  "    usage:  " ++ me ++ " [options]" ++ nl
  ++ nl
  ++ "    options:" ++ nl
  ++ "    -d    increase debug msg verbosity level" ++ nl
  ++ "    -r R  root subvolume is R" ++ nl
  ++ "    -s S  snapshot is S" ++ nl
  ++ "    -n    stub out ninja build after snapshot creation" ++ nl
  ++ "    -N    stub out binutils build after snapshot creation" ++ nl
  ++ "    -q    quiet mode (do not echo commands before executing)" ++ nl
  ++ "    -S X  use SCM flavor X (either git, svn, or git-svn). Def: git-svn" ++ nl
  ++ "    -D    dryrun mode (echo commands but do not execute)" ++ nl
  ++ "    -X    set default build type to RelWithDebInfo" ++ nl
  ++ "    -T    avoid setting up clang tools" ++ nl
  ++ "    -J    run cmake steps serially (default is in parallel)" ++ nl
  ++ "    -G    include llgo when setting up repo" ++ nl
  ++ "    -F    run 'git fetch' or 'svn update' in subvolume" ++ nl
  ++ "          before creating snapshot" ++ nl
  ++ nl
  ++ "    Example 1: creates new subvolume 'llvm-trunk'" ++ nl
  ++ nl
  ++ "      " ++ me ++ " -r llvm-trunk" ++ nl
  ++ nl
  ++ "    Example 2: snapshot subvol 'llvm-trunk' to create 'llvm-trunk-snap'" ++ nl
  ++ nl
  ++ "      " ++ me ++ " -r llvm-trunk -s llvm-snap" ++ nl
  ++ nl
  ++ "    Example 2: snapshot subvol 'llvm-trunk' to create 'llvm-gronk'," ++ nl
  ++ "               stubbing out ninja build" ++ nl
  ++ nl
  ++ "      " ++ me ++ " -n -r llvm-trunk -s llvm-gronk" ++ nl
  ++ nl
  ++ "    ".

Definition usage {A} (msgarg : string) : M A :=
  when (negb (String.eqb msgarg ""))
       (emit (Stderr ("error: " ++ msgarg ++ nl))) ;;
  emit (Stdout (usage_text ++ nl)) ;;
  sys_exit 1.

Definition modify_globals (f : globals -> globals) : M unit :=
  g <- get_globals ;; put_globals (f g).

(** The body of [for opt, arg in optlist]. *)
Definition parse_opt (opt arg : string) : M unit :=
  if String.eqb opt "-d" then
    modify_globals (fun g => set_verbosity (S (verbosity g)) g)
  else if String.eqb opt "-N" then
    modify_globals (set_flag_binutils_build false)
  else if String.eqb opt "-n" then
    modify_globals (set_flag_run_ninja false)
  else if String.eqb opt "-S" then
    when (negb (String.eqb arg "git") && negb (String.eqb arg "svn")
          && negb (String.eqb arg "git-svn"))
         (usage ("illegal SCM flavor " ++ arg)) ;;
    modify_globals (set_flag_scm_flavor arg)
  else if String.eqb opt "-q" then
    modify_globals (set_flag_echo false)
  else if String.eqb opt "-D" then
    modify_globals (set_flag_dryrun true)
  else if String.eqb opt "-G" then
    modify_globals (set_flag_include_llgo true)
  else if String.eqb opt "-F" then
    modify_globals (set_flag_do_fetch true)
  else if String.eqb opt "-J" then
    modify_globals (set_flag_parallel true)
  else if String.eqb opt "-X" then
    modify_globals (set_flag_cmake_type "RelWithDebInfo")
  else if String.eqb opt "-T" then
    modify_globals (set_flag_include_tools false)
  else if String.eqb opt "-r" then
    modify_globals (set_flag_subvol (PStr arg))
  else if String.eqb opt "-s" then
    modify_globals (set_flag_snapshot (PStr arg))
  else ret tt.

Fixpoint parse_opts (optlist : list (string * string)) : M unit :=
  match optlist with
  | [] => ret tt
  | (opt, arg) :: rest => parse_opt opt arg ;; parse_opts rest
  end.

(** [for subtag in d] inside [for tag, d in cmake_flavors.iteritems()]. *)
Fixpoint validate_tags (tag : string) (d : dict) : M unit :=
  match d with
  | [] => ret tt
  | (subtag, _) :: rest =>
      when (negb (dict_has legal_tags subtag))
           (u_error ("internal error: cmake_flavors entry " ++ tag
                     ++ " has unknown tag " ++ pystr subtag)) ;;
      validate_tags tag rest
  end.

Fixpoint validate_flavors (t : table) : M unit :=
  match t with
  | [] => ret tt
  | (tag, d) :: rest => validate_tags tag d ;; validate_flavors rest
  end.

(** [argv] is [sys.argv[1:]]. *)
Definition parse_args (argv : list string) : M unit :=
  match getopt argv "DGJS:FTXqdnNs:r:" with
  | inl err =>
      (* unrecognized option *)
      usage err
  | inr (optlist, args) =>
      parse_opts optlist ;;
      when (match args with [] => false | _ => true end)
           (usage "unknown extra args") ;;
      g <- get_globals ;;
      when (negb (truthy (flag_subvol g)))
           (usage "specify subvol name with -r") ;;
      when (truthy (flag_snapshot g) && negb (truthy (flag_subvol g)))
           (usage "specify subvol name with -r") ;;
      lines <- u_docmdlines "whoami" ;;
      user <- match lines with
              | [] => raise "IndexError"
              | l :: _ => ret l
              end ;;
      modify_globals (set_flag_user (PStr user)) ;;
      when (String.eqb user "root")
           (u_error "please don't run this script as root") ;;
      g <- get_globals ;;
      url <- re_sub "REPLACE_WITH_USER" user (llvm_rw_svn g) ;;
      modify_globals (set_llvm_rw_svn url) ;;
      g <- get_globals ;;
      u_verbose 2 ("llvm_rw_svn is: " ++ llvm_rw_svn g) ;;
      (* Validate cmake_flavors *)
      validate_flavors (cmake_flavors g) ;;
      (* Set ssd root *)
      here <- os_getcwd ;;
      h <- get_history ;;
      emit (Call "determine_btrfs_ssdroot" here) ;;
      match btrfs_ssdroot env h here with
      | Some root => modify_globals (set_ssdroot (PStr root))
      | None => emit (CmdFailed "determine_btrfs_ssdroot") ;; sys_exit 1
      end
  end.

(** ** Main portion of script *)

Definition main (argv : list string) : M unit :=
  parse_args argv ;;
  emit (Call "setdeflanglocale" "") ;;
  g <- get_globals ;;
  (if truthy (flag_snapshot g) then
     do_snapshot_create ;;
     do_snapshot_build
   else
     do_subvol_create) ;;
  sys_exit 0.

End Script.

(** * Vocabulary of the statements

    Predicates on runs, the sequences of facade calls, and the concrete
    worlds, tables and states the statements below are tried on. *)

(** A computation is framed when it leaves the globals alone, only adds
    to the history, and ends the process with status 1 if it ends it.
    Every function below [parse_args] is. *)

Definition exit_ok {A} (o : outcome A) : Prop :=
  match o with
  | Exit n => n = 1%Z
  | _ => True
  end.

Definition extends (st st' : state) : Prop :=
  exists tl, trace st' = (trace st ++ tl)%list.

Definition framed {A} (c : M A) : Prop :=
  forall st,
    glob (snd (c st)) = glob st
    /\ extends st (snd (c st))
    /\ exit_ok (fst (c st)).

(** Tame: framed, except that globals may be assigned. *)

Definition tame {A} (c : M A) : Prop :=
  forall st, extends st (snd (c st)) /\ exit_ok (fst (c st)).

(** [c] keeps the invariant [I] of the globals. *)
Definition keeps (I : globals -> Prop) {A} (c : M A) : Prop :=
  forall st, I (glob st) -> I (glob (snd (c st))).

(** A world in which every command succeeds, used to run the script on
    concrete command lines. *)
Definition calm_world : world :=
  {| os_chdir_error := fun _ _ _ => None;
     docmd_returns := fun _ _ => true;
     doscmd_returns := fun _ _ => true;
     doscmd_nf_ok := fun _ _ => true;
     docmdlines_out := fun _ cmd =>
       if String.eqb cmd "whoami" then Some ["alice"] else Some [];
     btrfs_ssdroot := fun _ _ => Some "/ssd";
     write_ok := fun _ _ => true;
     in_time := fun _ _ _ => true;
     re_sub_template := fun _ _ _ => None |}.

(** The command line names a volume: parsing it yields a [-r] option. *)
Definition has_r_option (argv : list string) : bool :=
  match getopt argv "DGJS:FTXqdnNs:r:" with
  | inl _ => false
  | inr (optlist, _) => existsb (fun oa => String.eqb (fst oa) "-r") optlist
  end.

(** The result of a call of [usage] from state [st]: the message and the
    usage text are printed, nothing else happens, the process exits
    with status 1. *)
Definition usage_error (me : string) (st : state) {A} (r : outcome A * state) : Prop :=
  fst r = Exit 1%Z
  /\ cwd (snd r) = cwd st
  /\ exists msg, msg <> ""
       /\ trace (snd r)
          = (trace st ++ [Stderr ("error: " ++ msg ++ nl);
                          Stdout (usage_text me ++ nl)])%list.

(** An option other than [-r] leaves [flag_subvol] unset and does
    nothing observable, unless it is an illegal [-S]. *)
Definition quiet_step (st : state) (r : outcome unit * state) : Prop :=
  fst r = Ret tt
  /\ cwd (snd r) = cwd st
  /\ trace (snd r) = trace st
  /\ flag_subvol (glob (snd r)) = PNone.

(** The state the script is in after [parse_args] accepted
    [-r demo-vol -s demo-snap] for user alice below [/ssd]. *)
Definition demo_globals (t : table) : globals :=
  set_ssdroot (PStr "/ssd")
    (set_llvm_rw_svn "https://alice@llvm.org/svn/llvm-project"
       (set_flag_user (PStr "alice")
          (set_flag_snapshot (PStr "demo-snap")
             (set_flag_subvol (PStr "demo-vol") (initial_globals t))))).

Definition demo_state (t : table) : state :=
  {| glob := demo_globals t; cwd := "/home/alice"; trace := [] |}.

(** A table whose one entry takes its compiler from a build
    directory that no entry of the table produces. *)
Definition dangling_table : table :=
  [ ("stage2", [(PStr "cmflav", PStr "Release");
                (PStr "ccflav", PStr "bootstrap=build.nowhere");
                (PStr "extra", PNone)]) ].

Definition triple {A} (P : state -> Prop) (c : M A) (Q : A -> state -> Prop) : Prop :=
  forall st, P st ->
    match c st with
    | (Ret a, st') => Q a st'
    | _ => True
    end.

(** No entry of the table has the integer key 2. *)
Definition table_valid (t : table) : Prop :=
  forall flav fd, table_get t flav = Some fd -> dict_get fd (PInt 2) = None.

(** [parse_args] from the end of the option loop on. *)
Definition parse_args_rest (env : world) (me : string) (args : list string) : M unit :=
  when (match args with [] => false | _ => true end)
       (usage me "unknown extra args") ;;
  g <- get_globals ;;
  when (negb (truthy (flag_subvol g)))
       (usage me "specify subvol name with -r") ;;
  when (truthy (flag_snapshot g) && negb (truthy (flag_subvol g)))
       (usage me "specify subvol name with -r") ;;
  lines <- u_docmdlines env "whoami" ;;
  user <- match lines with
          | [] => raise "IndexError"
          | l :: _ => ret l
          end ;;
  modify_globals (set_flag_user (PStr user)) ;;
  when (String.eqb user "root")
       (u_error "please don't run this script as root") ;;
  g <- get_globals ;;
  url <- re_sub env "REPLACE_WITH_USER" user (llvm_rw_svn g) ;;
  modify_globals (set_llvm_rw_svn url) ;;
  g <- get_globals ;;
  u_verbose 2 ("llvm_rw_svn is: " ++ llvm_rw_svn g) ;;
  validate_flavors (cmake_flavors g) ;;
  here <- os_getcwd ;;
  h <- get_history ;;
  emit (Call "determine_btrfs_ssdroot" here) ;;
  match btrfs_ssdroot env h here with
  | Some root => modify_globals (set_ssdroot (PStr root))
  | None => emit (CmdFailed "determine_btrfs_ssdroot") ;; sys_exit 1
  end.

Inductive action : Type :=
| ADocmd (cmd : string)
| ADoscmd (cmd : string)
| AChdir (d : string).

Definition run_action (env : world) (a : action) : M unit :=
  match a with
  | ADocmd cmd => docmd env cmd
  | ADoscmd cmd => doscmd env cmd
  | AChdir d => dochdir env d
  end.

Fixpoint run_actions (env : world) (l : list action) : M unit :=
  match l with
  | [] => ret tt
  | a :: l' => run_action env a ;; run_actions env l'
  end.

(** What a facade call that returns has added to the history, by the
    echo and dry-run switches. *)
Definition action_events (echo dry : bool) (a : action) : history :=
  match a with
  | ADocmd cmd | ADoscmd cmd =>
      (if echo then [Stderr ("executing: " ++ cmd ++ nl)] else [])
      ++ (if dry then [] else [Spawn cmd])
  | AChdir d =>
      (if echo || dry then [Stderr ("cd " ++ d ++ nl)] else [])
      ++ (if dry then [] else [Chdir d])
  end%list.

Definition action_cwd (dry : bool) (c : string) (a : action) : string :=
  if dry then c
  else match a with
       | AChdir d => path_join c d
       | _ => c
       end.

(** The text written to the diagnostic stream. *)
Definition stderr_text (evs : history) : list string :=
  flat_map (fun e => match e with Stderr s => [s] | _ => [] end) evs.

(** An event that acts on the outside: a process, a directory change,
    a file. *)
Definition is_effect (e : event) : bool :=
  match e with
  | Spawn _ | Chdir _ | WriteFile _ _ | PoolCreate _ | Dispatch _ _ => true
  | _ => false
  end.

(** The state with the dry-run switch set to [b]. *)
Definition with_dryrun (b : bool) (st : state) : state :=
  {| glob := set_flag_dryrun b (glob st); cwd := cwd st; trace := trace st |}.

Definition actions_events (echo dry : bool) (l : list action) : history :=
  flat_map (action_events echo dry) l.

Definition actions_cwd (dry : bool) (c : string) (l : list action) : string :=
  fold_left (action_cwd dry) l c.

(** The state of [demo_state] after [-q]. *)
Definition quiet_state : state :=
  {| glob := set_flag_echo false (demo_globals cmake_flavors_literal);
     cwd := "/ssd/demo-snap"; trace := [] |}.

(** In states whose globals are [g], the computation [c] is the
    sequence [l] of facade calls. *)
Definition is_actions (env : world) (g : globals) (c : M unit) (l : list action) : Prop :=
  forall st, glob st = g -> c st = run_actions env l st.

Definition git_svn_actions (g : globals) (subdir svnpath : string) : list action :=
  [AChdir subdir]
  ++ [ADoscmd ("git svn init " ++ llvm_git_on_svn ++ "/" ++ svnpath ++ "/trunk "
               ++ "--username=" ++ pystr (flag_user g))]
  ++ [ADoscmd "git config svn-remote.svn.fetch :refs/remotes/origin/master"]
  ++ [ADoscmd "git svn rebase -l"].

(** The facade calls of [do_subvol_create], entered with globals [g] in
    the directory [here]. *)
Definition subvol_actions (g : globals) (here : string) : list action :=
  let top := pystr (ssdroot g) ++ "/" ++ pystr (flag_subvol g) in
  ([ADocmd ("snapshotutil.py mkvol " ++ pystr (flag_subvol g))]
   ++ [AChdir (pystr (ssdroot g))]
   ++ [AChdir (pystr (flag_subvol g))]
   ++ (if String.eqb (flag_scm_flavor g) "svn" then
         [ADoscmd ("svn co " ++ llvm_rw_svn g ++ "/llvm/trunk llvm")]
       else
         [ADoscmd ("git clone " ++ llvm_git)]
         ++ (if String.eqb (flag_scm_flavor g) "git-svn"
             then git_svn_actions g "llvm" "llvm" else []))
   ++ [AChdir (top ++ "/llvm/tools")]
   ++ (if String.eqb (flag_scm_flavor g) "svn" then
         [ADoscmd ("svn co " ++ llvm_ro_svn ++ "/cfe/trunk clang")]
       else
         [ADoscmd ("git clone " ++ clang_git)]
         ++ (if String.eqb (flag_scm_flavor g) "git-svn"
             then git_svn_actions g "clang" "cfe" else []))
   ++ (if flag_include_tools g then
         [AChdir (top ++ "/llvm/tools/clang/tools")]
         ++ (if String.eqb (flag_scm_flavor g) "git" then
               [ADoscmd ("svn co " ++ llvm_ro_svn ++ "/clang-tools-extra/trunk extra")]
             else
               [ADoscmd ("git clone " ++ clang_tools_git ++ " extra")]
               ++ (if String.eqb (flag_scm_flavor g) "git-svn"
                   then git_svn_actions g "extra" "clang-tools-extra" else []))
       else [])
   ++ (if flag_include_llgo g then
         [AChdir (top ++ "/llvm/tools")]
         ++ (if String.eqb (flag_scm_flavor g) "git" then
               [ADoscmd ("svn co " ++ llvm_ro_svn ++ "/llgo/trunk llgo")]
             else
               [ADoscmd ("git clone " ++ llgo_git ++ " llgo")]
               ++ (if String.eqb (flag_scm_flavor g) "git-svn"
                   then git_svn_actions g "llgo" "llgo" else []))
       else [])
   ++ [AChdir (top ++ "/llvm/projects")]
   ++ (if String.eqb (flag_scm_flavor g) "svn" then
         [ADoscmd ("svn co " ++ llvm_ro_svn ++ "/compiler-rt/trunk compiler-rt")]
       else
         [ADoscmd ("git clone " ++ compiler_rt_git)]
         ++ (if String.eqb (flag_scm_flavor g) "git-svn"
             then git_svn_actions g "compiler-rt" "compiler-rt" else []))
   ++ [AChdir top]
   ++ [ADoscmd ("git clone " ++ binutils_git ++ " binutils")]
   ++ [AChdir here])%list.

(** The history [evs] shows that the facade was asked to run [cmd]: the
    command was run, or echoed as about to run. *)
Definition issued (cmd : string) (evs : history) : Prop :=
  In (Spawn cmd) evs \/ In (Stderr ("executing: " ++ cmd ++ nl)) evs.

Definition action_cmds (l : list action) : list string :=
  flat_map (fun a => match a with
                     | ADocmd c | ADoscmd c => [c]
                     | AChdir _ => []
                     end) l.

Fixpoint last_ascii (s : string) : option ascii :=
  match s with
  | EmptyString => None
  | String c s' =>
      match last_ascii s' with
      | None => Some c
      | Some d => Some d
      end
  end.

(** [demo_state] for flavor [git], with llgo included. *)
Definition git_state : state :=
  {| glob := set_flag_include_llgo true
               (set_flag_scm_flavor "git" (demo_globals cmake_flavors_literal));
     cwd := "/home/alice"; trace := [] |}.

(** A table whose entries have the key 2 that [emit_cmake_cmd_script]
    reads, so that its flavors resolve. *)
Definition keyed_table : table :=
  [ ("a", [(PStr "cmflav", PNone); (PStr "ccflav", PStr "gcc");
           (PInt 2, PStr "")]);
    ("b", [(PStr "cmflav", PStr "Release"); (PStr "ccflav", PStr "clang");
           (PInt 2, PStr "-DLLVM_BUILD_EXAMPLES=Off")]) ].

Definition par_state : state :=
  {| glob := demo_globals keyed_table; cwd := "/ssd/demo-snap"; trace := [] |}.

(** The commands of a repository refresh: the search for the
    repositories and the three update commands of [do_fetch]. *)
Definition is_refresh_cmd (c : string) : bool :=
  String.eqb c "git fetch" || String.eqb c "git svn rebase -l"
  || String.eqb c "svn update" || startswith c "find ".

Definition is_refresh_event (e : event) : bool :=
  match e with
  | Spawn c => is_refresh_cmd c
  | _ => false
  end.

Definition no_refresh (e : event) : Prop := is_refresh_event e = false.

(** [c] adds no refresh command to the history, and a value it returns
    satisfies [Q]. *)
Definition quietly {A} (c : M A) (Q : A -> Prop) : Prop :=
  forall st,
    (exists tl, trace (snd (c st)) = (trace st ++ tl)%list /\ Forall no_refresh tl)
    /\ match fst (c st) with
       | Ret a => Q a
       | _ => True
       end.

(** [do_snapshot_create] from the snapshot command on. *)
Definition snapshot_tail (env : world) (g : globals) : M unit :=
  docmd env ("snapshotutil.py mksnap " ++ pystr (flag_subvol g) ++ " "
             ++ pystr (flag_snapshot g)) ;;
  dochdir_val env (ssdroot g) ;;
  dochdir_val env (flag_snapshot g) ;;
  do_configure_binutils env ;;
  do_setup_cmake env.

Definition set_cmake_flavors (v : table) (g : globals) : globals :=
  {| flag_subvol := flag_subvol g; flag_snapshot := flag_snapshot g;
     flag_user := flag_user g; flag_binutils_build := flag_binutils_build g;
     flag_run_ninja := flag_run_ninja g; flag_echo := flag_echo g;
     flag_dryrun := flag_dryrun g; flag_scm_flavor := flag_scm_flavor g;
     flag_cmake_type := flag_cmake_type g; flag_do_fetch := flag_do_fetch g;
     flag_include_tools := flag_include_tools g;
     flag_include_llgo := flag_include_llgo g;
     flag_parallel := flag_parallel g; ssdroot := ssdroot g;
     llvm_rw_svn := llvm_rw_svn g; cmake_flavors := v;
     verbosity := verbosity g |}.

(** An entry, and a table, with every [early] marker taken out. *)
Definition drop_early (d : dict) : dict :=
  filter (fun kv => negb (pyval_eqb (fst kv) (PStr "early"))) d.

Definition without_early (t : table) : table :=
  map (fun e => (fst e, drop_early (snd e))) t.

Definition forget_g (g : globals) : globals :=
  set_cmake_flavors (without_early (cmake_flavors g)) g.

(** The same state, but no table entry is marked [early]. *)
Definition forget (st : state) : state :=
  {| glob := forget_g (glob st); cwd := cwd st; trace := trace st |}.

Definition same_outcome {A} (R : A -> A -> Prop) (o o' : outcome A) : Prop :=
  match o, o' with
  | Ret a, Ret a' => R a a'
  | Exit n, Exit n' => n = n'
  | Raise e, Raise e' => e = e'
  | _, _ => False
  end.

(** Run from a state and from the state without markers, [c] and [c']
    end alike, with values related by [R], in states that differ in the
    markers only. *)
Definition sim {A} (R : A -> A -> Prop) (c c' : M A) : Prop :=
  forall st,
    same_outcome R (fst (c st)) (fst (c' (forget st)))
    /\ snd (c' (forget st)) = forget (snd (c st)).

(** A world with two repositories below [llvm]; every command
    succeeds. *)
Definition repo_world : world :=
  {| os_chdir_error := fun _ _ _ => None;
     docmd_returns := fun _ _ => true;
     doscmd_returns := fun _ _ => true;
     doscmd_nf_ok := fun _ _ => true;
     docmdlines_out := fun _ cmd =>
       if String.eqb cmd "whoami" then Some ["alice"]
       else Some ["./tools/clang/.git"; "./.git"];
     btrfs_ssdroot := fun _ _ => Some "/ssd";
     write_ok := fun _ _ => true;
     in_time := fun _ _ _ => true;
     re_sub_template := fun _ _ _ => None |}.

(** [demo_state] after [-F]. *)
Definition fetch_state : state :=
  {| glob := set_flag_do_fetch true (demo_globals cmake_flavors_literal);
     cwd := "/home/alice"; trace := [] |}.

(** The commands run, in order. *)
Definition spawned (evs : history) : list string :=
  flat_map (fun e => match e with Spawn c => [c] | _ => [] end) evs.

(** [demo_state] after [-G]: the flavor is still the [git-svn] of the
    module body. *)
Definition git_svn_state : state :=
  {| glob := set_flag_include_llgo true (demo_globals cmake_flavors_literal);
     cwd := "/home/alice"; trace := [] |}.

(** ** Vocabulary of the further properties *)

(** From states whose globals satisfy [I], the computation [c] leaves
    the globals alone and adds to the history only events that pass
    [P]; the working directory moves only if a [Chdir] was added. *)
Definition emits_if (I : globals -> Prop) (P : event -> bool) {A} (c : M A) : Prop :=
  forall st, I (glob st) ->
    glob (snd (c st)) = glob st
    /\ exists tl,
         trace (snd (c st)) = (trace st ++ tl)%list
         /\ forallb P tl = true
         /\ (cwd (snd (c st)) = cwd st \/ exists d, In (Chdir d) tl).

(** No process, no directory change, no file, no dispatch. *)
Definition no_io (e : event) : bool :=
  match e with
  | Spawn _ | Chdir _ | WriteFile _ _ | Dispatch _ _ => false
  | _ => true
  end.

(** As [no_io], but for the [find] of the refresh. *)
Definition only_find (e : event) : bool :=
  match e with
  | Spawn c => startswith c "find "
  | Chdir _ | WriteFile _ _ | Dispatch _ _ => false
  | _ => true
  end.

(** The dry-run switch is on. *)
Definition in_dry_run (g : globals) : Prop := flag_dryrun g = true.

(** The facade calls of [do_fetch], entered in the directory [here]. *)
Definition fetch_actions (flavor where_ here : string) : list action :=
  ([AChdir where_]
   ++ (if String.eqb flavor "git" then
         [ADocmd "git fetch"]
       else if String.eqb flavor "git-svn" then
         [ADocmd "git fetch"] ++ [ADocmd "git svn rebase -l"]
       else
         [ADocmd "svn update"])
   ++ [AChdir here])%list.

(** From states whose globals are [g], the computation [c] runs the
    commands [l], in order: nothing in dry-run mode; otherwise a prefix
    of [l], and all of [l] when it returns. *)
Definition runs_cmds (g : globals) {A} (c : M A) (l : list string) : Prop :=
  forall st, glob st = g ->
    glob (snd (c st)) = g
    /\ exists tl,
         trace (snd (c st)) = (trace st ++ tl)%list
         /\ (if flag_dryrun g then spawned tl = []
             else (exists rest, l = (spawned tl ++ rest)%list)
                  /\ (forall a, fst (c st) = Ret a -> spawned tl = l)).

(** Every key of every entry of the table is one of [legal_tags]. *)
Definition table_legal (t : table) : bool :=
  forallb (fun td => forallb (fun kv => dict_has legal_tags (fst kv)) (snd td)) t.

(** What the option loop of [parse_args] maintains, started from the
    globals of the module body with the table [t]. *)
Definition options_inv (t : table) (g : globals) : Prop :=
  (flag_subvol g = PNone \/ exists v, flag_subvol g = PStr v)
  /\ (flag_snapshot g = PNone \/ exists s, flag_snapshot g = PStr s)
  /\ In (flag_scm_flavor g) ["git"; "svn"; "git-svn"]
  /\ llvm_rw_svn g = "https://REPLACE_WITH_USER@llvm.org/svn/llvm-project"
  /\ cmake_flavors g = t.

(** The command line carries the option [o]. *)
Definition has_option (o : string) (argv : list string) : bool :=
  match getopt argv "DGJS:FTXqdnNs:r:" with
  | inl _ => false
  | inr (optlist, _) => existsb (fun oa => String.eqb (fst oa) o) optlist
  end.

(** No Python exception leaves [c]. *)
Definition no_raise {A} (c : M A) : Prop :=
  forall st e, fst (c st) <> Raise e.

(** The option [o] occurs in the parsed option list; how often; and the
    argument of its last occurrence ([d] when there is none). *)
Definition has_opt (o : string) (optlist : list (string * string)) : bool :=
  existsb (fun oa => String.eqb (fst oa) o) optlist.

Definition count_opt (o : string) (optlist : list (string * string)) : nat :=
  List.length (filter (fun oa => String.eqb (fst oa) o) optlist).

Definition last_arg {A} (inj : string -> A) (o : string)
    (optlist : list (string * string)) (d : A) : A :=
  fold_left (fun acc oa => if String.eqb (fst oa) o then inj (snd oa) else acc)
            optlist d.

(** The globals [g1] are the globals [g] after the options of
    [optlist] were applied. *)
Definition options_effect (optlist : list (string * string)) (g g1 : globals) : Prop :=
  flag_dryrun g1 = flag_dryrun g || has_opt "-D" optlist
  /\ flag_echo g1 = flag_echo g && negb (has_opt "-q" optlist)
  /\ flag_run_ninja g1 = flag_run_ninja g && negb (has_opt "-n" optlist)
  /\ flag_binutils_build g1 = flag_binutils_build g && negb (has_opt "-N" optlist)
  /\ flag_include_tools g1 = flag_include_tools g && negb (has_opt "-T" optlist)
  /\ flag_include_llgo g1 = flag_include_llgo g || has_opt "-G" optlist
  /\ flag_do_fetch g1 = flag_do_fetch g || has_opt "-F" optlist
  /\ flag_parallel g1 = flag_parallel g || has_opt "-J" optlist
  /\ flag_cmake_type g1
     = (if has_opt "-X" optlist then "RelWithDebInfo" else flag_cmake_type g)
  /\ verbosity g1 = verbosity g + count_opt "-d" optlist
  /\ flag_subvol g1 = last_arg PStr "-r" optlist (flag_subvol g)
  /\ flag_snapshot g1 = last_arg PStr "-s" optlist (flag_snapshot g)
  /\ flag_scm_flavor g1 = last_arg (fun s => s) "-S" optlist (flag_scm_flavor g)
  /\ flag_user g1 = flag_user g
  /\ ssdroot g1 = ssdroot g
  /\ llvm_rw_svn g1 = llvm_rw_svn g
  /\ cmake_flavors g1 = cmake_flavors g.

(** An event of anything but the worker pool at work: no cmake run is
    dispatched, no result waited for, no failure of a cmake run
    reported. *)
Definition no_cmake_run (e : event) : bool :=
  match e with
  | Dispatch _ _ | WaitResult _ _ => false
  | ErrorMsg m => negb (String.eqb m "one or more cmake cmds failed")
  | _ => true
  end.

(** The state [parse_args] leaves for [-r demo-vol -s demo-snap] and the
    table of the script, in the snapshot directory. *)
Definition snap_state : state :=
  {| glob := demo_globals cmake_flavors_literal;
     cwd := "/ssd/demo-snap"; trace := [] |}.

(** * Reasoning about runs *)

(** ** Laws of the monad *)

Lemma bind_ret_inv {A B} (c : M A) (k : A -> M B) st b st' :
  bind c k st = (Ret b, st') ->
  exists a st1, c st = (Ret a, st1) /\ k a st1 = (Ret b, st').
Proof.
  unfold bind. destruct (c st) as [[a | n | e] st1]; intros H.
  - exists a, st1. split; [reflexivity | exact H].
  - discriminate H.
  - discriminate H.
Qed.

Lemma bind_abort {A B} (c : M A) (k : A -> M B) st :
  (forall a, fst (c st) <> Ret a) ->
  forall b, fst (bind c k st) <> Ret b.
Proof.
  unfold bind. intros H b. destruct (c st) as [[a | n | e] st1]; simpl in *.
  - exfalso. exact (H a eq_refl).
  - discriminate.
  - discriminate.
Qed.

Lemma bind_ret_step {A B} (c : M A) (k : A -> M B) st a st1 :
  c st = (Ret a, st1) -> bind c k st = k a st1.
Proof. unfold bind. intros ->. reflexivity. Qed.

Lemma extends_refl st : extends st st.
Proof. exists []. symmetry. apply app_nil_r. Qed.

Lemma extends_trans st1 st2 st3 :
  extends st1 st2 -> extends st2 st3 -> extends st1 st3.
Proof.
  intros [t1 H1] [t2 H2]. exists (t1 ++ t2)%list.
  rewrite H2, H1. symmetry. apply app_assoc.
Qed.

Lemma framed_ret {A} (a : A) : framed (ret a).
Proof. intros st. simpl. auto using extends_refl. Qed.

Lemma framed_bind {A B} (c : M A) (k : A -> M B) :
  framed c -> (forall a, framed (k a)) -> framed (bind c k).
Proof.
  intros Hc Hk st. unfold bind.
  destruct (Hc st) as (Hg & He & Ho).
  destruct (c st) as [[a | n | e] st1]; simpl in *.
  - destruct (Hk a st1) as (Hg' & He' & Ho').
    repeat split.
    + congruence.
    + eauto using extends_trans.
    + exact Ho'.
  - auto.
  - auto.
Qed.

Lemma framed_emit e : framed (emit e).
Proof.
  intros st. simpl. repeat split. exists [e]. reflexivity.
Qed.

Lemma framed_exit1 {A} : framed (@sys_exit A 1).
Proof. intros st. simpl. auto using extends_refl. Qed.

Lemma framed_raise {A} e : framed (@raise A e).
Proof. intros st. simpl. auto using extends_refl. Qed.

Lemma framed_get_globals : framed get_globals.
Proof. intros st. simpl. auto using extends_refl. Qed.

Lemma framed_get_history : framed get_history.
Proof. intros st. simpl. auto using extends_refl. Qed.

Lemma framed_os_getcwd : framed os_getcwd.
Proof. intros st. simpl. auto using extends_refl. Qed.

Lemma framed_set_cwd d : framed (set_cwd d).
Proof.
  intros st. simpl. repeat split. exists []. simpl. symmetry. apply app_nil_r.
Qed.

Lemma framed_when b c : framed c -> framed (when b c).
Proof. intros H. destruct b; simpl; auto using framed_ret. Qed.

Create HintDb framed.
#[local] Hint Resolve framed_ret framed_emit framed_exit1 framed_raise
  framed_get_globals framed_get_history framed_os_getcwd framed_set_cwd
  : framed.

(** One step of a proof that a composite computation is framed. *)
Ltac framed_step :=
  lazymatch goal with
  | |- framed (bind _ _) => apply framed_bind; [ | intros ? ]
  | |- framed (when _ _) => apply framed_when
  | |- framed (if ?b then _ else _) => destruct b
  | |- framed (match ?x with _ => _ end) => destruct x
  | |- framed _ => solve [ auto with framed ]
  end.

Ltac framed_auto := cbv zeta; repeat framed_step.

Lemma framed_u_error {A} msg : framed (@u_error A msg).
Proof. unfold u_error. framed_auto. Qed.
#[local] Hint Resolve framed_u_error : framed.

Lemma framed_re_sub env pat repl s : framed (re_sub env pat repl s).
Proof.
  unfold re_sub. destruct (has_backslash repl);
    [ destruct (re_sub_template env pat repl s) |]; auto with framed.
Qed.
#[local] Hint Resolve framed_re_sub : framed.

Lemma framed_as_str v : framed (as_str v).
Proof. unfold as_str. framed_auto. Qed.

Lemma framed_u_docmd env cmd : framed (u_docmd env cmd).
Proof. unfold u_docmd. framed_auto. Qed.

Lemma framed_u_doscmd env cmd : framed (u_doscmd env cmd).
Proof. unfold u_doscmd. framed_auto. Qed.

Lemma framed_u_docmdlines env cmd : framed (u_docmdlines env cmd).
Proof. unfold u_docmdlines. framed_auto. Qed.

Lemma framed_u_doscmd_nf env cmd : framed (u_doscmd_nf env cmd).
Proof. unfold u_doscmd_nf. framed_auto. Qed.

Lemma framed_os_chdir env d : framed (os_chdir env d).
Proof. unfold os_chdir. framed_auto. Qed.
#[local] Hint Resolve framed_as_str framed_u_docmd framed_u_doscmd
  framed_u_docmdlines framed_u_doscmd_nf framed_os_chdir : framed.

Lemma framed_docmd env cmd : framed (docmd env cmd).
Proof. unfold docmd. framed_auto. Qed.

Lemma framed_doscmd env cmd : framed (doscmd env cmd).
Proof. unfold doscmd. framed_auto. Qed.

Lemma framed_dochdir env d : framed (dochdir env d).
Proof. unfold dochdir. framed_auto. Qed.
#[local] Hint Resolve framed_docmd framed_doscmd framed_dochdir : framed.

Lemma framed_dochdir_val env v : framed (dochdir_val env v).
Proof. unfold dochdir_val. framed_auto. Qed.
#[local] Hint Resolve framed_dochdir_val : framed.

Lemma framed_u_warning msg : framed (u_warning msg).
Proof. unfold u_warning. framed_auto. Qed.

Lemma framed_u_verbose lvl msg : framed (u_verbose lvl msg).
Proof. unfold u_verbose. framed_auto. Qed.
#[local] Hint Resolve framed_u_warning framed_u_verbose : framed.

Lemma framed_git_svn_setup env subdir svnpath :
  framed (git_svn_setup env subdir svnpath).
Proof. unfold git_svn_setup. framed_auto. Qed.
#[local] Hint Resolve framed_git_svn_setup : framed.

Lemma framed_do_subvol_create env : framed (do_subvol_create env).
Proof. unfold do_subvol_create. framed_auto. Qed.

Lemma framed_do_fetch env flavor where_ : framed (do_fetch env flavor where_).
Proof. unfold do_fetch. framed_auto. Qed.
#[local] Hint Resolve framed_do_fetch : framed.

Lemma framed_fetch_lines env flavor lines : framed (fetch_lines env flavor lines).
Proof. induction lines as [| l lines IH]; simpl; framed_auto. Qed.
#[local] Hint Resolve framed_fetch_lines : framed.

Lemma framed_fetch_in_volume env : framed (fetch_in_volume env).
Proof. unfold fetch_in_volume. framed_auto. Qed.

Lemma framed_flavor_entry flav : framed (flavor_entry flav).
Proof. unfold flavor_entry. framed_auto. Qed.

Lemma framed_dict_item d k : framed (dict_item d k).
Proof. unfold dict_item. framed_auto. Qed.
#[local] Hint Resolve framed_flavor_entry framed_dict_item : framed.

Lemma framed_bootstrap_tooldir flav : framed (bootstrap_tooldir flav).
Proof. unfold bootstrap_tooldir. framed_auto. Qed.
#[local] Hint Resolve framed_bootstrap_tooldir : framed.

Lemma framed_select_cmake_type flav : framed (select_cmake_type flav).
Proof. unfold select_cmake_type. framed_auto. Qed.

Lemma framed_select_cmake_extras flav : framed (select_cmake_extras flav).
Proof. unfold select_cmake_extras. framed_auto. Qed.

Lemma framed_select_dyld_library_path flav : framed (select_dyld_library_path flav).
Proof. unfold select_dyld_library_path. framed_auto. Qed.

Lemma framed_select_compiler_flavor flav : framed (select_compiler_flavor flav).
Proof. unfold select_compiler_flavor. framed_auto. Qed.

Lemma framed_write_file env path content errmsg :
  framed (write_file env path content errmsg).
Proof. unfold write_file. framed_auto. Qed.
#[local] Hint Resolve framed_select_cmake_type framed_select_cmake_extras
  framed_select_dyld_library_path framed_select_compiler_flavor
  framed_write_file : framed.

Lemma framed_emit_cmake_cmd_script env flav : framed (emit_cmake_cmd_script env flav).
Proof. unfold emit_cmake_cmd_script. framed_auto. Qed.

Lemma framed_emit_rebuild_scripts env flav : framed (emit_rebuild_scripts env flav).
Proof. unfold emit_rebuild_scripts. framed_auto. Qed.

Lemma framed_do_configure_binutils env : framed (do_configure_binutils env).
Proof. unfold do_configure_binutils. framed_auto. Qed.

Lemma framed_run_cmake env builddir cmake_cmd : framed (run_cmake env builddir cmake_cmd).
Proof. unfold run_cmake. framed_auto. Qed.

Lemma framed_pool_apply_async env builddir cmake_cmd :
  framed (pool_apply_async_run_cmake env builddir cmake_cmd).
Proof.
  intros st. unfold pool_apply_async_run_cmake.
  match goal with |- context [bind ?c ?k st] => apply (framed_bind c k) end.
  - auto with framed.
  - intros; auto with framed.
Qed.

Lemma framed_async_get env idx r timeout : framed (async_get env idx r timeout).
Proof. unfold async_get. framed_auto. Qed.
#[local] Hint Resolve framed_emit_cmake_cmd_script framed_emit_rebuild_scripts
  framed_do_configure_binutils framed_run_cmake framed_pool_apply_async
  framed_async_get : framed.

Lemma framed_setup_flavors env flavs :
  forall results, framed (setup_flavors env flavs results).
Proof.
  induction flavs as [| flav rest IH]; intros results; simpl; framed_auto.
Qed.

Lemma framed_wait_results env results :
  forall idx rc, framed (wait_results env idx results rc).
Proof.
  induction results as [| r rest IH]; intros idx rc; simpl; framed_auto.
Qed.
#[local] Hint Resolve framed_setup_flavors framed_wait_results : framed.

Lemma framed_multiprocessing_Pool n : framed (multiprocessing_Pool n).
Proof. unfold multiprocessing_Pool. framed_auto. Qed.
#[local] Hint Resolve framed_multiprocessing_Pool : framed.

Lemma framed_do_setup_cmake env : framed (do_setup_cmake env).
Proof. unfold do_setup_cmake. framed_auto. Qed.
#[local] Hint Resolve framed_do_setup_cmake framed_fetch_in_volume
  framed_do_subvol_create : framed.

Lemma framed_do_snapshot_create env : framed (do_snapshot_create env).
Proof. unfold do_snapshot_create. framed_auto. Qed.

Lemma framed_do_snapshot_build env : framed (do_snapshot_build env).
Proof. unfold do_snapshot_build. framed_auto. Qed.
#[local] Hint Resolve framed_do_snapshot_create framed_do_snapshot_build : framed.

Lemma framed_usage me {A} msgarg : framed (@usage me A msgarg).
Proof. unfold usage. framed_auto. Qed.
#[local] Hint Resolve framed_usage : framed.

Lemma framed_validate_tags tag d : framed (validate_tags tag d).
Proof. induction d as [| [subtag v] d IH]; simpl; framed_auto. Qed.
#[local] Hint Resolve framed_validate_tags : framed.

Lemma framed_validate_flavors t : framed (validate_flavors t).
Proof. induction t as [| [tag d] t IH]; simpl; framed_auto. Qed.
#[local] Hint Resolve framed_validate_flavors : framed.

Lemma tame_of_framed {A} (c : M A) : framed c -> tame c.
Proof. intros H st. destruct (H st) as (_ & He & Ho). auto. Qed.

Lemma tame_bind {A B} (c : M A) (k : A -> M B) :
  tame c -> (forall a, tame (k a)) -> tame (bind c k).
Proof.
  intros Hc Hk st. unfold bind.
  destruct (Hc st) as (He & Ho).
  destruct (c st) as [[a | n | e] st1]; simpl in *.
  - destruct (Hk a st1) as (He' & Ho'). eauto using extends_trans.
  - auto.
  - auto.
Qed.

Lemma tame_when b c : tame c -> tame (when b c).
Proof. intros H. destruct b; simpl; auto using tame_of_framed, framed_ret. Qed.

Lemma tame_put_globals g : tame (put_globals g).
Proof.
  intros st. simpl. split; [| exact I]. exists []. simpl. symmetry. apply app_nil_r.
Qed.

Lemma tame_modify_globals f : tame (modify_globals f).
Proof.
  unfold modify_globals. apply tame_bind.
  - apply tame_of_framed, framed_get_globals.
  - intros g. apply tame_put_globals.
Qed.

Create HintDb tame.
#[local] Hint Resolve tame_put_globals tame_modify_globals : tame.
#[local] Hint Extern 5 (tame _) => (apply tame_of_framed; solve [auto with framed]) : tame.

Ltac tame_step :=
  lazymatch goal with
  | |- tame (bind _ _) => apply tame_bind; [ | intros ? ]
  | |- tame (when _ _) => apply tame_when
  | |- tame (if ?b then _ else _) => destruct b
  | |- tame (match ?x with _ => _ end) => destruct x
  | |- tame _ => solve [ auto with tame ]
  end.

Ltac tame_auto := cbv zeta; repeat tame_step.

Lemma tame_parse_opt me opt arg : tame (parse_opt me opt arg).
Proof. unfold parse_opt. tame_auto. Qed.
#[local] Hint Resolve tame_parse_opt : tame.

Lemma tame_parse_opts me optlist : tame (parse_opts me optlist).
Proof. induction optlist as [| [opt arg] rest IH]; simpl; tame_auto. Qed.
#[local] Hint Resolve tame_parse_opts : tame.

Lemma tame_parse_args env me argv : tame (parse_args env me argv).
Proof. unfold parse_args. tame_auto. Qed.

Lemma keeps_of_framed I {A} (c : M A) : framed c -> keeps I c.
Proof. intros H st HI. destruct (H st) as (Hg & _). rewrite Hg. exact HI. Qed.

Lemma keeps_bind I {A B} (c : M A) (k : A -> M B) :
  keeps I c -> (forall a, keeps I (k a)) -> keeps I (bind c k).
Proof.
  intros Hc Hk st HI. unfold bind. specialize (Hc st HI).
  destruct (c st) as [[a | n | e] st1]; simpl in *; auto.
  apply Hk. exact Hc.
Qed.

Lemma keeps_when I b c : keeps I c -> keeps I (when b c).
Proof. intros H. destruct b; simpl; auto. intros st HI. exact HI. Qed.

Lemma keeps_modify_globals (I : globals -> Prop) f :
  (forall g, I g -> I (f g)) -> keeps I (modify_globals f).
Proof. intros H st HI. simpl. auto. Qed.

Ltac keeps_step :=
  lazymatch goal with
  | |- keeps _ (bind _ _) => apply keeps_bind; [ | intros ? ]
  | |- keeps _ (when _ _) => apply keeps_when
  | |- keeps _ (modify_globals _) =>
      apply keeps_modify_globals; intros ? ?; simpl; solve [ auto ]
  | |- keeps _ (if ?b then _ else _) => destruct b
  | |- keeps _ (match ?x with _ => _ end) => destruct x
  | |- keeps _ _ => apply keeps_of_framed; solve [ auto with framed ]
  end.

Ltac keeps_auto := cbv zeta; repeat keeps_step.

(** Nothing in [parse_args] ever turns [flag_parallel] off. *)
Lemma keeps_parallel_parse_opt me opt arg :
  keeps (fun g => flag_parallel g = true) (parse_opt me opt arg).
Proof. unfold parse_opt. keeps_auto. Qed.

Lemma keeps_parallel_parse_opts me optlist :
  keeps (fun g => flag_parallel g = true) (parse_opts me optlist).
Proof.
  induction optlist as [| [opt arg] rest IH]; simpl.
  - intros st H. exact H.
  - apply keeps_bind; [apply keeps_parallel_parse_opt | intros _; exact IH].
Qed.

(** [parse_args] never touches the cmake table. *)
Lemma keeps_table_parse_opt t me opt arg :
  keeps (fun g => cmake_flavors g = t) (parse_opt me opt arg).
Proof. unfold parse_opt. keeps_auto. Qed.

Lemma keeps_table_parse_opts t me optlist :
  keeps (fun g => cmake_flavors g = t) (parse_opts me optlist).
Proof.
  induction optlist as [| [opt arg] rest IH]; simpl.
  - intros st H. exact H.
  - apply keeps_bind; [apply keeps_table_parse_opt | intros _; exact IH].
Qed.

Lemma keeps_table_parse_args t env me argv :
  keeps (fun g => cmake_flavors g = t) (parse_args env me argv).
Proof.
  unfold parse_args.
  destruct (getopt argv _) as [err | [optlist args]].
  - keeps_auto.
  - apply keeps_bind; [apply keeps_table_parse_opts | intros _ ]. keeps_auto.
Qed.

(** * C1: the [-J] flag *)

(** C1 (the code departs from the claim).  The claim says [-J] turns
    parallel execution off.  In [parse_args] the [-J] branch assigns
    [True] to [flag_parallel], the value it already has, and no other
    branch assigns it: whatever the command line, a state that enters
    [parse_args] with [flag_parallel] set leaves it with [flag_parallel]
    set. *)
Theorem parse_args_never_clears_flag_parallel :
  forall (env : world) (me : string) (argv : list string) (st : state),
    flag_parallel (glob st) = true ->
    flag_parallel (glob (snd (parse_args env me argv st))) = true.
Proof.
  intros env me argv st. revert st.
  change (keeps (fun g => flag_parallel g = true) (parse_args env me argv)).
  unfold parse_args.
  destruct (getopt argv _) as [err | [optlist args]].
  - keeps_auto.
  - apply keeps_bind; [apply keeps_parallel_parse_opts | intros _ ]. keeps_auto.
Qed.

(** The run [-r demo-vol -s demo-snap -J]: [parse_args] returns and
    [flag_parallel] is still set. *)
Lemma parse_args_J_witness :
  fst (parse_args calm_world "setup-llvm-repos.py"
         ["-r"; "demo-vol"; "-s"; "demo-snap"; "-J"]
         (initial_state cmake_flavors_literal "/home/alice")) = Ret tt
  /\ flag_parallel
       (glob (snd (parse_args calm_world "setup-llvm-repos.py"
                     ["-r"; "demo-vol"; "-s"; "demo-snap"; "-J"]
                     (initial_state cmake_flavors_literal "/home/alice")))) = true.
Proof.
  split.
  - vm_compute. reflexivity.
  - apply (parse_args_never_clears_flag_parallel calm_world "setup-llvm-repos.py"
             ["-r"; "demo-vol"; "-s"; "demo-snap"; "-J"]
             (initial_state cmake_flavors_literal "/home/alice")).
    reflexivity.
Defined.

(** * C7: a command line without [-r] *)

Lemma usage_spec me {A} msg st :
  msg <> "" -> usage_error me st (@usage me A msg st).
Proof.
  intros Hmsg. unfold usage.
  destruct (String.eqb_spec msg "") as [E | _]; [contradiction |].
  unfold usage_error. cbn. repeat split.
  exists msg. split; [exact Hmsg |]. rewrite <- app_assoc. reflexivity.
Qed.

Lemma do_shorts_error optstring shortopts next e :
  do_shorts optstring shortopts next = inl e -> e <> "".
Proof.
  revert e. induction optstring as [| c rest IH]; intros e; simpl.
  - discriminate.
  - destruct (short_has_arg c shortopts) as [[|] |].
    + destruct rest; [destruct next |]; intros H; inversion H; discriminate.
    + destruct (do_shorts rest shortopts next) as [e' | [opts used]].
      * intros H. inversion H; subst. apply IH. reflexivity.
      * discriminate.
    + intros H. inversion H. discriminate.
Qed.

Lemma getopt_cons_error opts r e : getopt_cons opts r = inl e -> r = inl e.
Proof. destruct r as [e2 | [o2 a2]]; simpl; congruence. Qed.

Lemma getopt_error_upto shortopts n :
  forall args, List.length args <= n ->
  forall e, getopt args shortopts = inl e -> e <> "".
Proof.
  induction n as [| n IH]; intros [| a rest] Hlen e; simpl in *;
    try discriminate; try lia.
  destruct (negb _); [discriminate |].
  destruct (String.eqb a "--"); [discriminate |].
  destruct (startswith a "--").
  { intros H. inversion H. discriminate. }
  destruct rest as [| nxt rest'].
  - destruct (do_shorts _ _ _) as [e' | [opts used]] eqn:E.
    + intros H. inversion H; subst. eapply do_shorts_error; eassumption.
    + discriminate.
  - destruct (do_shorts _ _ _) as [e' | [opts used]] eqn:E.
    + intros H. inversion H; subst. eapply do_shorts_error; eassumption.
    + destruct used; intros H; apply getopt_cons_error in H;
        (eapply IH; [| exact H]); simpl in *; lia.
Qed.

Lemma getopt_error args shortopts e :
  getopt args shortopts = inl e -> e <> "".
Proof. apply (getopt_error_upto shortopts (List.length args)). lia. Qed.

Lemma usage_error_bind me {A B} (c : M A) (k : A -> M B) st :
  usage_error me st (c st) -> usage_error me st (bind c k st).
Proof.
  intros (U1 & U2 & U3). unfold bind.
  destruct (c st) as [[a | n | e] st1]; cbn [fst snd] in *; try discriminate.
  injection U1 as ->.
  unfold usage_error; cbn [fst snd]. auto.
Qed.

Lemma usage_error_from me {A} st st1 (r : outcome A * state) :
  cwd st1 = cwd st -> trace st1 = trace st ->
  usage_error me st1 r -> usage_error me st r.
Proof.
  intros Hc Ht (U1 & U2 & msg & U3 & U4). unfold usage_error.
  repeat split; try congruence. exists msg. split; congruence.
Qed.

Lemma quiet_step_bind {B} (c : M unit) (k : unit -> M B) st :
  quiet_step st (c st) -> bind c k st = k tt (snd (c st)).
Proof.
  intros (Q1 & _). unfold bind.
  destruct (c st) as [[[] | n | e] st1]; cbn [fst snd] in *;
    try discriminate; reflexivity.
Qed.

Lemma parse_opt_no_r me opt arg st :
  String.eqb opt "-r" = false ->
  flag_subvol (glob st) = PNone ->
  quiet_step st (parse_opt me opt arg st)
  \/ usage_error me st (parse_opt me opt arg st).
Proof.
  intros Hr Hsub. unfold parse_opt. rewrite Hr.
  repeat match goal with
         | |- context [if String.eqb opt ?s then _ else _] =>
             destruct (String.eqb opt s)
         end;
    try (left; unfold quiet_step; cbn; auto; fail).
  (* -S *)
  destruct (negb (String.eqb arg "git") && negb (String.eqb arg "svn")
            && negb (String.eqb arg "git-svn")) eqn:E.
  - right. apply usage_error_bind. cbn [when].
    apply usage_spec. cbn. discriminate.
  - left. unfold quiet_step; cbn; auto.
Qed.

Lemma parse_opts_no_r me optlist :
  forall st,
    existsb (fun oa => String.eqb (fst oa) "-r") optlist = false ->
    flag_subvol (glob st) = PNone ->
    quiet_step st (parse_opts me optlist st)
    \/ usage_error me st (parse_opts me optlist st).
Proof.
  induction optlist as [| [opt arg] rest IH]; intros st Hex Hsub;
    cbn [parse_opts existsb fst] in *.
  - left. unfold quiet_step; cbn; auto.
  - apply orb_false_elim in Hex. destruct Hex as [Hopt Hrest].
    destruct (parse_opt_no_r me opt arg st Hopt Hsub) as [Hq | Hu].
    + rewrite (quiet_step_bind _ _ _ Hq).
      destruct Hq as (Q1 & Q2 & Q3 & Q4).
      destruct (IH _ Hrest Q4) as [Hq' | Hu'].
      * left. destruct Hq' as (R1 & R2 & R3 & R4).
        unfold quiet_step. repeat split; congruence.
      * right. eapply usage_error_from; eassumption.
    + right. apply usage_error_bind. exact Hu.
Qed.

(** [parse_args] without a [-r] option ends in [usage]. *)
Lemma parse_args_no_r env me argv st :
  flag_subvol (glob st) = PNone ->
  has_r_option argv = false ->
  usage_error me st (parse_args env me argv st).
Proof.
  intros Hsub Hr. unfold has_r_option in Hr. unfold parse_args.
  destruct (getopt argv _) as [err | [optlist args]] eqn:E.
  - apply usage_spec. eapply getopt_error; eassumption.
  - destruct (parse_opts_no_r me optlist st Hr Hsub) as [Hq | Hu].
    + rewrite (quiet_step_bind _ _ _ Hq).
      destruct Hq as (Q1 & Q2 & Q3 & Q4).
      eapply usage_error_from; [exact Q2 | exact Q3 |].
      destruct args as [| a args'].
      * cbn [when]. unfold bind at 1, ret at 1.
        unfold bind at 1, get_globals at 1.
        rewrite Q4. cbn [truthy negb when].
        apply usage_error_bind. apply usage_spec. discriminate.
      * cbn [when]. apply usage_error_bind. apply usage_spec. discriminate.
    + apply usage_error_bind. exact Hu.
Qed.

(** C7.  For every command line whose parse yields no [-r] option
    (also one that getopt rejects), in every world, the script prints
    an error line and the usage text, exits with status 1, and has done
    nothing else by then: no command run, no directory changed, no file
    written. *)
Theorem missing_volume_flag_is_usage_error :
  forall (env : world) (me : string) (argv : list string)
         (t : table) (here : string),
    has_r_option argv = false ->
    let r := main env me argv (initial_state t here) in
    fst r = Exit 1%Z
    /\ cwd (snd r) = here
    /\ exists msg, msg <> ""
         /\ trace (snd r) = [Stderr ("error: " ++ msg ++ nl);
                             Stdout (usage_text me ++ nl)].
Proof.
  intros env me argv t here Hr r. subst r.
  assert (H : usage_error me (initial_state t here)
                (main env me argv (initial_state t here))).
  { unfold main. apply usage_error_bind.
    apply parse_args_no_r; [reflexivity | exact Hr]. }
  destruct H as (U1 & U2 & msg & U3 & U4).
  repeat split; try assumption.
  exists msg. split; assumption.
Qed.

(** The empty command line, and a command line whose only [-r] is the
    value of [-S]. *)
Lemma missing_volume_flag_witness :
  (let r := main calm_world "setup-llvm-repos.py" ["-D"; "-S"; "-r"]
              (initial_state cmake_flavors_literal "/home/alice") in
   fst r = Exit 1%Z
   /\ cwd (snd r) = "/home/alice"
   /\ exists msg, msg <> ""
        /\ trace (snd r) = [Stderr ("error: " ++ msg ++ nl);
                            Stdout (usage_text "setup-llvm-repos.py" ++ nl)]).
Proof.
  apply (missing_volume_flag_is_usage_error calm_world "setup-llvm-repos.py"
           ["-D"; "-S"; "-r"] cmake_flavors_literal "/home/alice").
  reflexivity.
Defined.

(** * C3: a bootstrap entry whose reference is not in the table *)

Lemma append_assoc (a b c : string) : (a ++ b) ++ c = a ++ (b ++ c).
Proof. induction a as [| x a IH]; cbn; [reflexivity | now rewrite IH]. Qed.

Lemma bind_get_globals {B} (k : globals -> M B) st :
  bind get_globals k st = k (glob st) st.
Proof. reflexivity. Qed.

Lemma bind_ret {A B} (a : A) (k : A -> M B) st : bind (ret a) k st = k a st.
Proof. reflexivity. Qed.

Lemma flavor_entry_some st flav fd :
  table_get (cmake_flavors (glob st)) flav = Some fd ->
  flavor_entry flav st = (Ret fd, st).
Proof.
  intros H. unfold flavor_entry. rewrite bind_get_globals, H. reflexivity.
Qed.

Lemma dict_item_some d k v st :
  dict_get d k = Some v -> dict_item d k st = (Ret v, st).
Proof. intros H. unfold dict_item. rewrite H. reflexivity. Qed.

(** C3.  The table writes a bootstrap entry as [bootstrap=<dir>],
    with <dir> the build directory [build.<name>] of another
    configuration.  For every entry of that form whose directory is
    the build directory of no configuration of the table, resolving the
    entry fails fatally: [select_compiler_flavor] reports
    [bad ccflav setting] through [u.error], the process exits with
    status 1, and nothing else happens.  (The failure does not come
    from a lookup: [bootstrap_tooldir] matches [bootstrap\.] and so
    finds no directory in such an entry.) *)
Theorem dangling_bootstrap_reference_is_fatal :
  forall (st : state) (flav : string) (fd : dict) (dir : string),
    table_get (cmake_flavors (glob st)) flav = Some fd ->
    dict_get fd (PStr "ccflav") = Some (PStr ("bootstrap=" ++ dir)) ->
    (forall name, dir = "build." ++ name ->
                  table_get (cmake_flavors (glob st)) name = None) ->
    select_compiler_flavor flav st
    = (Exit 1,
       {| glob := glob st; cwd := cwd st;
          trace := (trace st
                    ++ [ErrorMsg ("internal error -- bad ccflav setting "
                                  ++ "bootstrap=" ++ dir)])%list |}).
Proof.
  intros st flav fd dir Hfd Hcc _.
  unfold select_compiler_flavor.
  rewrite bind_get_globals, Hfd. cbn [negb when]. rewrite bind_ret.
  rewrite (bind_ret_step _ _ _ _ _ (flavor_entry_some _ _ _ Hfd)).
  unfold dict_has. rewrite Hcc. cbn [negb when]. rewrite bind_ret.
  rewrite (bind_ret_step _ _ _ _ _ (dict_item_some _ _ _ _ Hcc)).
  assert (Htb : bootstrap_tooldir flav st = (Ret PNone, st)).
  { unfold bootstrap_tooldir. rewrite bind_get_globals.
    rewrite (bind_ret_step _ _ _ _ _ (flavor_entry_some _ _ _ Hfd)).
    rewrite (bind_ret_step _ _ _ _ _ (dict_item_some _ _ _ _ Hcc)).
    reflexivity. }
  rewrite (bind_ret_step _ _ _ _ _ Htb).
  reflexivity.
Qed.

(** The entry [stage2] of [dangling_table] names [build.nowhere]. *)
Lemma dangling_bootstrap_reference_witness :
  select_compiler_flavor "stage2" (demo_state dangling_table)
  = (Exit 1,
     {| glob := glob (demo_state dangling_table);
        cwd := cwd (demo_state dangling_table);
        trace := (trace (demo_state dangling_table)
                  ++ [ErrorMsg ("internal error -- bad ccflav setting "
                                ++ "bootstrap=" ++ "build.nowhere")])%list |}).
Proof.
  apply (dangling_bootstrap_reference_is_fatal (demo_state dangling_table)
           "stage2"
           [(PStr "cmflav", PStr "Release");
            (PStr "ccflav", PStr "bootstrap=build.nowhere");
            (PStr "extra", PNone)]
           "build.nowhere").
  - reflexivity.
  - reflexivity.
  - intros name H. injection H as <-. reflexivity.
Defined.

(** * Hoare triples on normal return *)

Lemma triple_bind {A B} P (R : A -> state -> Prop) Q (c : M A) (k : A -> M B) :
  triple P c R -> (forall a, triple (R a) (k a) Q) -> triple P (bind c k) Q.
Proof.
  intros Hc Hk st HP. unfold bind. specialize (Hc st HP).
  destruct (c st) as [[a | n | e] st1]; [| exact I | exact I].
  apply (Hk a st1 Hc).
Qed.

Lemma triple_conseq {A} (P P' : state -> Prop) (Q Q' : A -> state -> Prop) c :
  triple P' c Q' ->
  (forall st, P st -> P' st) ->
  (forall a st, Q' a st -> Q a st) ->
  triple P c Q.
Proof.
  intros H HP HQ st Hst. specialize (H st (HP st Hst)).
  destruct (c st) as [[a | n | e] st1]; auto.
Qed.

Lemma triple_false {A} (c : M A) Q : triple (fun _ => False) c Q.
Proof. intros st []. Qed.

(** A framed computation keeps every fact about the globals. *)
Lemma triple_framed {A} (I : globals -> Prop) (c : M A) :
  framed c ->
  triple (fun st => I (glob st)) c (fun _ st' => I (glob st')).
Proof.
  intros H st HI. destruct (H st) as (Hg & _).
  destruct (c st) as [[a | n | e] st1]; cbn [snd] in *; auto.
  rewrite Hg. exact HI.
Qed.

Lemma triple_ret {A} (a : A) (Q : A -> state -> Prop) :
  triple (Q a) (ret a) Q.
Proof. intros st H. exact H. Qed.

Lemma triple_abort {A} (c : M A) P Q :
  (forall st a, fst (c st) <> Ret a) -> triple P c Q.
Proof.
  intros H st _. specialize (H st).
  destruct (c st) as [[a | n | e] st1]; auto.
  exfalso. exact (H a eq_refl).
Qed.

(** * C2: the dry run of snapshot mode *)

Lemma validate_tags_no_int_key tag d :
  triple (fun _ => True) (validate_tags tag d)
         (fun _ _ => dict_get d (PInt 2) = None).
Proof.
  induction d as [| [subtag v] rest IH]; intros st _; cbn [validate_tags].
  - reflexivity.
  - destruct (dict_has legal_tags subtag) eqn:E; cbn [negb when].
    + rewrite bind_ret. specialize (IH st I).
      destruct (validate_tags tag rest st) as [[[] | n | e] st1]; auto.
      cbn [dict_get].
      destruct subtag as [| s | z]; cbn [pyval_eqb]; try exact IH.
      destruct (Z.eqb_spec 2 z) as [<- | _]; [| exact IH].
      discriminate E.
    + reflexivity.
Qed.

Lemma validate_flavors_valid t :
  triple (fun _ => True) (validate_flavors t) (fun _ _ => table_valid t).
Proof.
  induction t as [| [tag d] rest IH]; cbn [validate_flavors].
  - intros st _. cbn. intros flav fd H. discriminate H.
  - eapply triple_bind.
    + apply validate_tags_no_int_key.
    + intros ? st Hd. specialize (IH st I).
      destruct (validate_flavors rest st) as [[[] | n | e] st1]; auto.
      intros flav fd. cbn [table_get].
      destruct (String.eqb flav tag).
      * intros H. inversion H; subst. exact Hd.
      * apply IH.
Qed.

Lemma triple_any {A} P (c : M A) : triple P c (fun _ _ => True).
Proof. intros st _. destruct (c st) as [[a | n | e] st1]; exact I. Qed.

Lemma triple_conj {A} P1 P2 (Q1 Q2 : A -> state -> Prop) (c : M A) :
  triple P1 c Q1 -> triple P2 c Q2 ->
  triple (fun st => P1 st /\ P2 st) c (fun a st => Q1 a st /\ Q2 a st).
Proof.
  intros H1 H2 st [HP1 HP2]. specialize (H1 st HP1). specialize (H2 st HP2).
  destruct (c st) as [[a | n | e] st1]; auto.
Qed.

Lemma triple_get_globals :
  triple (fun _ => True) get_globals (fun g st => glob st = g).
Proof. intros st _. reflexivity. Qed.

Lemma triple_modify_globals (I : globals -> Prop) f :
  (forall g, I g -> I (f g)) ->
  triple (fun st => I (glob st)) (modify_globals f) (fun _ st => I (glob st)).
Proof. intros H st HI. cbn. auto. Qed.

Ltac triple_skip := eapply triple_bind; [ apply triple_any | intros ? ].

Ltac triple_keep I :=
  eapply triple_bind;
  [ apply (triple_framed I); solve [ framed_auto ] | intros ?; cbv beta ].

(** When [parse_args] returns, every key of every table entry is one of
    [legal_tags]; in particular no entry has the key 2. *)
Lemma parse_args_valid env me argv :
  triple (fun _ => True) (parse_args env me argv)
         (fun _ st => table_valid (cmake_flavors (glob st))).
Proof.
  unfold parse_args.
  destruct (getopt argv _) as [err | [optlist args]].
  { apply triple_abort. intros st a.
    destruct (framed_usage me (A:=unit) err st) as (_ & _ & _).
    unfold usage, bind, when.
    destruct (negb (String.eqb err "")); cbn; discriminate. }
  do 12 triple_skip.
  eapply triple_bind; [ apply triple_get_globals | intros g; cbv beta ].
  eapply triple_bind.
  { eapply triple_conseq.
    - apply (triple_framed (fun gl => cmake_flavors gl = cmake_flavors g)).
      auto with framed.
    - cbv beta. intros st <-. reflexivity.
    - cbv beta. intros ? st H. exact H. }
  intros ?. cbv beta.
  eapply triple_bind.
  { eapply triple_conseq.
    - apply (triple_conj _ _ _ _ _
               (triple_framed (fun gl => cmake_flavors gl = cmake_flavors g) _
                  (framed_validate_flavors (cmake_flavors g)))
               (validate_flavors_valid (cmake_flavors g))).
    - cbv beta. auto.
    - cbv beta. intros ? st [H1 H2].
      instantiate (1 := fun _ st => table_valid (cmake_flavors (glob st))).
      cbv beta. rewrite H1. exact H2. }
  intros ?. cbv beta.
  do 3 triple_keep (fun gl => table_valid (cmake_flavors gl)).
  match goal with |- triple _ (match ?x with _ => _ end) _ => destruct x end.
  - apply (triple_modify_globals (fun gl => table_valid (cmake_flavors gl))).
    intros gl H. exact H.
  - apply triple_abort. intros st b. cbn. discriminate.
Qed.

Lemma triple_pure {A} (phi : Prop) (c : M A) :
  triple (fun _ => phi) c (fun _ _ => phi).
Proof. intros st H. destruct (c st) as [[a | n | e] st1]; auto. Qed.

Lemma flavor_entry_valid flav :
  triple (fun st => table_valid (cmake_flavors (glob st)))
         (flavor_entry flav)
         (fun tup _ => dict_get tup (PInt 2) = None).
Proof.
  intros st H. unfold flavor_entry. rewrite bind_get_globals.
  destruct (table_get (cmake_flavors (glob st)) flav) as [fd |] eqn:E.
  - cbn. eapply H. exact E.
  - exact I.
Qed.

(** [tup[2]] on an entry without the key 2: [emit_cmake_cmd_script]
    never gets to its end. *)
Lemma emit_cmake_cmd_script_never_returns env flav :
  triple (fun st => table_valid (cmake_flavors (glob st)))
         (emit_cmake_cmd_script env flav)
         (fun _ _ => False).
Proof.
  unfold emit_cmake_cmd_script.
  triple_keep (fun gl => table_valid (cmake_flavors gl)).
  cbv zeta.
  eapply triple_bind; [ apply flavor_entry_valid | intros tup; cbv beta ].
  do 3 (eapply triple_bind; [ apply triple_pure | intros ?; cbv beta ]).
  intros st H. unfold bind at 1, dict_item. rewrite H. exact I.
Qed.

Lemma setup_flavors_never_returns env flav rest results :
  triple (fun st => table_valid (cmake_flavors (glob st)))
         (setup_flavors env (flav :: rest) results)
         (fun _ _ => False).
Proof.
  cbn [setup_flavors].
  do 4 triple_keep (fun gl => table_valid (cmake_flavors gl)).
  eapply triple_bind.
  - apply emit_cmake_cmd_script_never_returns.
  - intros ?. apply triple_false.
Qed.

Lemma triple_get_globals_with (I : globals -> Prop) :
  triple (fun st => I (glob st)) get_globals
         (fun g st => glob st = g /\ I g).
Proof. intros st H. cbn. auto. Qed.

Lemma do_setup_cmake_never_returns env :
  triple (fun st => table_valid (cmake_flavors (glob st))
                    /\ cmake_flavors (glob st) <> [])
         (do_setup_cmake env)
         (fun _ _ => False).
Proof.
  unfold do_setup_cmake.
  eapply triple_bind.
  { apply (triple_get_globals_with
             (fun gl => table_valid (cmake_flavors gl) /\ cmake_flavors gl <> [])). }
  intros g. cbv beta.
  eapply triple_bind.
  { apply (triple_framed (fun gl => gl = g /\ table_valid (cmake_flavors g)
                                    /\ cmake_flavors g <> [])).
    framed_auto. }
  intros ?. cbv beta.
  destruct (cmake_flavors g) as [| [flav d] rest] eqn:E.
  - intros st0 (_ & _ & Hne). contradiction.
  - cbn [map fst].
    eapply triple_bind.
    + eapply triple_conseq.
      * apply setup_flavors_never_returns.
      * cbv beta. intros st0 (-> & Hv & _). rewrite E. exact Hv.
      * intros ? ? F. exact F.
    + intros ?. apply triple_false.
Qed.

Lemma do_snapshot_create_never_returns env :
  triple (fun st => table_valid (cmake_flavors (glob st))
                    /\ cmake_flavors (glob st) <> [])
         (do_snapshot_create env)
         (fun _ _ => False).
Proof.
  unfold do_snapshot_create.
  do 6 triple_keep (fun gl => table_valid (cmake_flavors gl)
                              /\ cmake_flavors gl <> []).
  apply do_setup_cmake_never_returns.
Qed.

Lemma parse_args_unfold env me argv st :
  parse_args env me argv st
  = match getopt argv "DGJS:FTXqdnNs:r:" with
    | inl err => usage me err st
    | inr (optlist, args) =>
        bind (parse_opts me optlist) (fun _ => parse_args_rest env me args) st
    end.
Proof.
  unfold parse_args. destruct (getopt argv _) as [err | [optlist args]]; reflexivity.
Qed.

Lemma parse_args_rest_keeps_snapshot env me args v :
  keeps (fun g => flag_snapshot g = v) (parse_args_rest env me args).
Proof. unfold parse_args_rest. keeps_auto. Qed.

Lemma tame_parse_args_rest env me args : tame (parse_args_rest env me args).
Proof. unfold parse_args_rest. tame_auto. Qed.

Lemma in_extends e st st' :
  In e (trace st) -> extends st st' -> In e (trace st').
Proof. intros H [tl ->]. apply in_or_app. left. exact H. Qed.

Lemma bind_extends {A B} (c : M A) (k : A -> M B) st :
  (forall a st1, extends st1 (snd (k a st1))) ->
  extends (snd (c st)) (snd (bind c k st)).
Proof.
  intros H. unfold bind. destruct (c st) as [[a | n | e] st1]; cbn [snd].
  - apply H.
  - apply extends_refl.
  - apply extends_refl.
Qed.

Lemma u_docmdlines_spawns env cmd st :
  In (Spawn cmd) (trace (snd (u_docmdlines env cmd st))).
Proof.
  unfold u_docmdlines. rewrite bind_ret_step with (a := trace st) (st1 := st);
    [| reflexivity].
  unfold bind at 1.
  cbn [emit].
  destruct (docmdlines_out env (trace st) cmd); cbn; apply in_or_app.
  - right. left. reflexivity.
  - left. apply in_or_app. right. left. reflexivity.
Qed.

(** The part of [main] after [parse_args] only adds to the history. *)
Lemma main_tail_extends env st1 :
  extends st1
    (snd ((emit (Call "setdeflanglocale" "") ;;
           g <- get_globals ;;
           (if truthy (flag_snapshot g) then
              do_snapshot_create env ;; do_snapshot_build env
            else do_subvol_create env) ;;
           sys_exit (A:=unit) 0) st1)).
Proof.
  eapply extends_trans; [| apply bind_extends ].
  - exists [Call "setdeflanglocale" ""]. reflexivity.
  - intros ? st2. rewrite bind_get_globals.
    eapply extends_trans; [| apply bind_extends ].
    + assert (F : framed (if truthy (flag_snapshot (glob st2)) then
                            do_snapshot_create env ;; do_snapshot_build env
                          else do_subvol_create env)) by framed_auto.
      apply F.
    + intros ? st3. apply extends_refl.
Qed.

Lemma parse_args_rest_whoami env me st :
  truthy (flag_subvol (glob st)) = true ->
  In (Spawn "whoami") (trace (snd (parse_args_rest env me [] st))).
Proof.
  intros H. unfold parse_args_rest. cbn [when].
  rewrite bind_ret, bind_get_globals, H, andb_false_r. cbn [negb when].
  rewrite !bind_ret.
  eapply in_extends; [ apply u_docmdlines_spawns | apply bind_extends ].
  intros lines st1.
  match goal with
  | |- extends _ (snd (?c st1)) => assert (T : tame c) by tame_auto
  end.
  apply T.
Qed.

(** C2 (the code departs from the claim).  The claim says the run
    [-r demo-vol -s demo-snap -D] prints every action, executes nothing
    and exits 0.  In every world, for every cmake table with at least one
    entry (so for the table of the script, in whatever order Python
    iterates it), the run ends with exit status 1, and it has run the
    external command [whoami].  When [parse_args] returns, the first
    build flavor makes [emit_cmake_cmd_script] evaluate [tup[2]] on a
    dict whose keys are strings. *)
Theorem dry_run_snapshot_exits_nonzero :
  forall (env : world) (me : string) (t : table) (here : string),
    t <> [] ->
    let r := main env me ["-r"; "demo-vol"; "-s"; "demo-snap"; "-D"]
                  (initial_state t here) in
    exit_status (fst r) = 1%Z
    /\ In (Spawn "whoami") (trace (snd r)).
Proof.
  intros env me t here Hne r. subst r.
  set (argv := ["-r"; "demo-vol"; "-s"; "demo-snap"; "-D"]).
  set (st0 := initial_state t here).
  set (st_opts :=
         {| glob := set_flag_dryrun true
                      (set_flag_snapshot (PStr "demo-snap")
                         (set_flag_subvol (PStr "demo-vol") (initial_globals t)));
            cwd := here; trace := [] |}).
  assert (Hpa : parse_args env me argv st0 = parse_args_rest env me [] st_opts).
  { rewrite parse_args_unfold. reflexivity. }
  pose proof (tame_parse_args env me argv st0) as [_ Hok].
  pose proof (parse_args_valid env me argv st0 I) as Hvalid.
  pose proof (keeps_table_parse_args t env me argv st0 eq_refl) as Htab.
  pose proof (parse_args_rest_keeps_snapshot env me [] (PStr "demo-snap")
                st_opts eq_refl) as Hsnap.
  pose proof (parse_args_rest_whoami env me st_opts eq_refl) as Hwho.
  rewrite <- Hpa in Hsnap, Hwho.
  unfold main.
  split.
  - unfold bind at 1.
    destruct (parse_args env me argv st0) as [[[] | n | e] st1];
      cbn [fst snd] in *.
    + unfold bind at 1. cbn [emit].
      rewrite bind_get_globals. cbn [glob].
      rewrite Hsnap. cbn [truthy String.eqb negb].
      set (st2 := {| glob := glob st1; cwd := cwd st1;
                     trace := (trace st1 ++ [Call "setdeflanglocale" ""])%list |}).
      pose proof (do_snapshot_create_never_returns env st2
                    (conj Hvalid (eq_ind_r (fun x => x <> []) Hne Htab))) as Hnr.
      destruct (framed_do_snapshot_create env st2) as (_ & _ & Hok2).
      unfold bind at 1. unfold bind at 1.
      destruct (do_snapshot_create env st2) as [[[] | n | e] st3];
        cbn [fst] in *.
      * contradiction.
      * cbn. exact Hok2.
      * reflexivity.
    + cbn. exact Hok.
    + reflexivity.
  - eapply in_extends; [ exact Hwho |].
    apply bind_extends. intros u st1. apply main_tail_extends.
Qed.

(** The run on the table as the script writes it. *)
Lemma dry_run_snapshot_witness :
  (let r := main calm_world "setup-llvm-repos.py"
              ["-r"; "demo-vol"; "-s"; "demo-snap"; "-D"]
              (initial_state cmake_flavors_literal "/home/alice") in
   exit_status (fst r) = 1%Z
   /\ In (Spawn "whoami") (trace (snd r))).
Proof.
  apply (dry_run_snapshot_exits_nonzero calm_world "setup-llvm-repos.py"
           cmake_flavors_literal "/home/alice").
  discriminate.
Defined.

(** * Sequences of facade calls *)

Lemma run_action_ret env a st st' :
  run_action env a st = (Ret tt, st') ->
  st' = {| glob := glob st;
           cwd := action_cwd (flag_dryrun (glob st)) (cwd st) a;
           trace := (trace st
                     ++ action_events (flag_echo (glob st))
                          (flag_dryrun (glob st)) a)%list |}.
Proof.
  destruct st as [g c tr].
  destruct a as [cmd | cmd | d];
    unfold run_action, docmd, doscmd, dochdir, u_docmd, u_doscmd, os_chdir,
      action_events, action_cwd, u_error, when, bind, get_globals, get_history,
      os_getcwd, emit, set_cwd, ret, sys_exit;
    cbn [glob cwd trace];
    destruct (flag_echo g), (flag_dryrun g); cbn [orb glob cwd trace];
    try match goal with
        | |- context [if ?b then _ else _] => destruct b
        | |- context [match ?x with Some _ => _ | None => _ end] => destruct x
        end;
    intros H; inversion H; subst; clear H;
    rewrite <- ?app_assoc, ?app_nil_r; reflexivity.
Qed.

Lemma run_action_dry env a st :
  flag_dryrun (glob st) = true ->
  run_action env a st
  = (Ret tt, {| glob := glob st; cwd := cwd st;
                trace := (trace st
                          ++ action_events (flag_echo (glob st)) true a)%list |}).
Proof.
  destruct st as [g c tr]. cbn [glob cwd trace]. intros Hd.
  destruct a as [cmd | cmd | d];
    unfold run_action, docmd, doscmd, dochdir, action_events, when, bind,
      get_globals, emit, ret;
    cbn [glob cwd trace]; rewrite Hd;
    destruct (flag_echo g); cbn [orb glob cwd trace];
    rewrite ?app_nil_r; reflexivity.
Qed.

Lemma run_actions_ret env l :
  forall st st',
    run_actions env l st = (Ret tt, st') ->
    st' = {| glob := glob st;
             cwd := actions_cwd (flag_dryrun (glob st)) (cwd st) l;
             trace := (trace st
                       ++ actions_events (flag_echo (glob st))
                            (flag_dryrun (glob st)) l)%list |}.
Proof.
  induction l as [| a l IH]; intros st st' H; cbn [run_actions] in H.
  - inversion H. destruct st'. cbn. rewrite app_nil_r. reflexivity.
  - apply bind_ret_inv in H. destruct H as ([] & st1 & H1 & H2).
    apply run_action_ret in H1. apply IH in H2. subst st1.
    cbn [glob cwd trace] in H2. rewrite H2.
    unfold actions_events, actions_cwd. cbn [flat_map fold_left].
    rewrite <- app_assoc. reflexivity.
Qed.

Lemma run_actions_dry env l :
  forall st,
    flag_dryrun (glob st) = true ->
    run_actions env l st
    = (Ret tt, {| glob := glob st; cwd := cwd st;
                  trace := (trace st
                            ++ actions_events (flag_echo (glob st)) true l)%list |}).
Proof.
  induction l as [| a l IH]; intros st Hd; cbn [run_actions].
  - destruct st. cbn. rewrite app_nil_r. reflexivity.
  - rewrite (bind_ret_step _ _ _ _ _ (run_action_dry env a st Hd)).
    rewrite IH by exact Hd. cbn [glob cwd trace].
    unfold actions_events. cbn [flat_map]. rewrite <- app_assoc. reflexivity.
Qed.

(** * C5: dry run against real run *)

Lemma stderr_text_app a b :
  stderr_text (a ++ b)%list = (stderr_text a ++ stderr_text b)%list.
Proof. unfold stderr_text. apply flat_map_app. Qed.

Lemma actions_events_dry_no_effect echo l :
  Forall (fun e => is_effect e = false) (actions_events echo true l).
Proof.
  induction l as [| a l IH]; unfold actions_events; cbn [flat_map].
  - constructor.
  - apply Forall_app. split; [| exact IH].
    destruct a, echo; cbn; repeat constructor.
Qed.

Lemma actions_events_same_text l :
  stderr_text (actions_events true false l)
  = stderr_text (actions_events true true l).
Proof.
  induction l as [| a l IH]; unfold actions_events; cbn [flat_map].
  - reflexivity.
  - rewrite !stderr_text_app. fold (actions_events true false l).
    fold (actions_events true true l). rewrite IH.
    destruct a; reflexivity.
Qed.

(** C5, as amended.  For every sequence of facade calls ([docmd],
    [doscmd], [dochdir]), in every world, with command echoing on: the
    dry run returns, leaves the working directory where it was, and adds
    to the history only events that are no process, no directory change
    and no file; and whenever the same sequence run for real returns,
    the text it wrote to the diagnostic stream is the text of the dry
    run. *)
Theorem dry_run_logs_what_a_real_run_logs :
  forall (env : world) (l : list action) (st : state),
    flag_echo (glob st) = true ->
    let dry := run_actions env l (with_dryrun true st) in
    let real := run_actions env l (with_dryrun false st) in
    fst dry = Ret tt
    /\ cwd (snd dry) = cwd st
    /\ exists evs,
         trace (snd dry) = (trace st ++ evs)%list
         /\ Forall (fun e => is_effect e = false) evs
         /\ (fst real = Ret tt ->
             exists evs',
               trace (snd real) = (trace st ++ evs')%list
               /\ stderr_text evs' = stderr_text evs).
Proof.
  intros env l st Hecho dry real.
  assert (Hdry : dry = (Ret tt,
             {| glob := set_flag_dryrun true (glob st); cwd := cwd st;
                trace := (trace st ++ actions_events true true l)%list |})).
  { subst dry. rewrite run_actions_dry by reflexivity.
    cbn [with_dryrun glob cwd trace set_flag_dryrun flag_echo].
    rewrite Hecho. reflexivity. }
  rewrite Hdry. cbn [fst snd cwd trace]. repeat split.
  exists (actions_events true true l). repeat split.
  - apply actions_events_dry_no_effect.
  - intros Hreal. subst real.
    destruct (run_actions env l (with_dryrun false st)) as [o st'] eqn:E.
    cbn [fst] in Hreal. subst o. apply run_actions_ret in E.
    exists (actions_events true false l). split.
    + rewrite E.
      cbn [with_dryrun glob cwd trace set_flag_dryrun flag_echo flag_dryrun snd].
      rewrite Hecho. reflexivity.
    + apply actions_events_same_text.
Qed.

(** A state of snapshot mode with echoing on, and the three kinds of
    facade call. *)
Lemma dry_run_logs_witness :
  (let dry := run_actions calm_world
                [ADocmd "mkdir binutils-build"; AChdir "binutils-build";
                 ADoscmd "make -j40"]
                (with_dryrun true (demo_state cmake_flavors_literal)) in
   let real := run_actions calm_world
                 [ADocmd "mkdir binutils-build"; AChdir "binutils-build";
                  ADoscmd "make -j40"]
                 (with_dryrun false (demo_state cmake_flavors_literal)) in
   fst dry = Ret tt
   /\ cwd (snd dry) = cwd (demo_state cmake_flavors_literal)
   /\ exists evs,
        trace (snd dry) = (trace (demo_state cmake_flavors_literal) ++ evs)%list
        /\ Forall (fun e => is_effect e = false) evs
        /\ (fst real = Ret tt ->
            exists evs',
              trace (snd real)
              = (trace (demo_state cmake_flavors_literal) ++ evs')%list
              /\ stderr_text evs' = stderr_text evs)).
Proof.
  apply (dry_run_logs_what_a_real_run_logs calm_world
           [ADocmd "mkdir binutils-build"; AChdir "binutils-build";
            ADoscmd "make -j40"]
           (demo_state cmake_flavors_literal)).
  reflexivity.
Defined.

(** C5, the claim as stated fails.  With echoing off ([-q]), [dochdir]
    in dry-run mode writes its [cd] line, and the same call run for real
    (it returns) writes nothing: the logged text differs. *)
Lemma quiet_dry_run_logs_more :
  stderr_text (trace (snd (dochdir calm_world "build.opt"
                             (with_dryrun true quiet_state))))
  = ["cd build.opt" ++ nl]
  /\ fst (dochdir calm_world "build.opt" (with_dryrun false quiet_state)) = Ret tt
  /\ stderr_text (trace (snd (dochdir calm_world "build.opt"
                                (with_dryrun false quiet_state))))
     = [].
Proof. repeat split; vm_compute; reflexivity. Qed.

(** * Volume provisioning as a sequence of facade calls *)

Lemma bind_unit_ret (c : M unit) st : bind c (fun _ => ret tt) st = c st.
Proof. unfold bind. destruct (c st) as [[[] | n | e] st1]; reflexivity. Qed.

Lemma bind_assoc {A B C} (c : M A) (k : A -> M B) (k' : B -> M C) st :
  bind (bind c k) k' st = bind c (fun a => bind (k a) k') st.
Proof. unfold bind. destruct (c st) as [[a | n | e] st1]; reflexivity. Qed.

Lemma bind_ext {A B} (c : M A) (k k' : A -> M B) st :
  (forall a st1, k a st1 = k' a st1) -> bind c k st = bind c k' st.
Proof.
  intros H. unfold bind. destruct (c st) as [[a | n | e] st1]; auto.
Qed.

Lemma run_actions_app env l1 l2 st :
  run_actions env (l1 ++ l2) st
  = bind (run_actions env l1) (fun _ => run_actions env l2) st.
Proof.
  revert st. induction l1 as [| a l1 IH]; intros st; cbn [run_actions app].
  - reflexivity.
  - rewrite bind_assoc. apply bind_ext. intros _ st1. apply IH.
Qed.

Lemma framed_run_action env a : framed (run_action env a).
Proof. destruct a; cbn; auto with framed. Qed.

Lemma framed_run_actions env l : framed (run_actions env l).
Proof.
  induction l as [| a l IH]; cbn [run_actions].
  - apply framed_ret.
  - apply framed_bind; [apply framed_run_action | intros _; exact IH].
Qed.

Lemma is_actions_one env g a : is_actions env g (run_action env a) [a].
Proof. intros st _. cbn [run_actions]. symmetry. apply bind_unit_ret. Qed.

Lemma is_actions_nil env g : is_actions env g (ret tt) [].
Proof. intros st _. reflexivity. Qed.

Lemma is_actions_seq env g c1 c2 l1 l2 :
  is_actions env g c1 l1 -> is_actions env g c2 l2 ->
  is_actions env g (c1 ;; c2) (l1 ++ l2).
Proof.
  intros H1 H2 st Hg. rewrite run_actions_app.
  unfold bind. rewrite (H1 st Hg).
  destruct (framed_run_actions env l1 st) as (Hgl & _).
  destruct (run_actions env l1 st) as [[[] | n | e] st1]; cbn [snd] in *; auto.
  apply H2. congruence.
Qed.

Lemma is_actions_when env g b c l :
  is_actions env g c l -> is_actions env g (when b c) (if b then l else []).
Proof. intros H. destruct b; [exact H | apply is_actions_nil]. Qed.

Lemma is_actions_if env g (b : bool) c1 c2 l1 l2 :
  is_actions env g c1 l1 -> is_actions env g c2 l2 ->
  is_actions env g (if b then c1 else c2) (if b then l1 else l2).
Proof. intros H1 H2. destruct b; assumption. Qed.

Lemma is_actions_docmd env g cmd : is_actions env g (docmd env cmd) [ADocmd cmd].
Proof. exact (is_actions_one env g (ADocmd cmd)). Qed.

Lemma is_actions_doscmd env g cmd : is_actions env g (doscmd env cmd) [ADoscmd cmd].
Proof. exact (is_actions_one env g (ADoscmd cmd)). Qed.

Lemma is_actions_dochdir env g d : is_actions env g (dochdir env d) [AChdir d].
Proof. exact (is_actions_one env g (AChdir d)). Qed.

Lemma is_actions_dochdir_val env g v s :
  v = PStr s -> is_actions env g (dochdir_val env v) [AChdir (pystr v)].
Proof.
  intros -> st Hg. cbn [pystr].
  rewrite <- (is_actions_dochdir env g s st Hg). reflexivity.
Qed.

Lemma is_actions_git_svn_setup env g subdir svnpath :
  is_actions env g (git_svn_setup env subdir svnpath)
             (git_svn_actions g subdir svnpath).
Proof.
  intros st Hg. unfold git_svn_setup. rewrite bind_get_globals, Hg.
  revert st Hg.
  change (is_actions env g
            (dochdir env subdir ;;
             doscmd env ("git svn init " ++ llvm_git_on_svn ++ "/" ++ svnpath
                         ++ "/trunk " ++ "--username=" ++ pystr (flag_user g)) ;;
             doscmd env "git config svn-remote.svn.fetch :refs/remotes/origin/master" ;;
             doscmd env "git svn rebase -l")
            (git_svn_actions g subdir svnpath)).
  unfold git_svn_actions.
  repeat first [ apply is_actions_seq | apply is_actions_dochdir
               | apply is_actions_doscmd ].
Qed.

Ltac actions_auto :=
  repeat first
    [ apply is_actions_seq
    | apply is_actions_when
    | apply is_actions_if
    | apply is_actions_docmd
    | apply is_actions_doscmd
    | apply is_actions_dochdir
    | apply is_actions_git_svn_setup
    | apply is_actions_nil ].

(** [do_subvol_create] is its sequence of facade calls. *)
Lemma do_subvol_create_actions env st root vol :
  ssdroot (glob st) = PStr root ->
  flag_subvol (glob st) = PStr vol ->
  do_subvol_create env st
  = run_actions env (subvol_actions (glob st) (cwd st)) st.
Proof.
  intros Hroot Hvol. unfold do_subvol_create.
  rewrite bind_get_globals.
  change (bind os_getcwd ?k st) with (k (cwd st) st). cbv beta zeta.
  unfold subvol_actions. cbv zeta.
  match goal with
  | |- ?c st = run_actions env ?l st =>
      enough (H : is_actions env (glob st) c l) by (apply H; reflexivity)
  end.
  repeat first
    [ apply is_actions_seq
    | apply is_actions_when
    | apply is_actions_if
    | apply is_actions_docmd
    | apply is_actions_doscmd
    | apply is_actions_dochdir
    | (eapply is_actions_dochdir_val; eassumption)
    | apply is_actions_git_svn_setup
    | apply is_actions_nil ].
Qed.

(** * C9: the working directory after volume provisioning *)

Lemma dochdir_val_ret env v st u st' :
  dochdir_val env v st = (Ret u, st') -> exists s, v = PStr s.
Proof.
  destruct v as [| s | z]; cbn; intros H; try discriminate H.
  exists s. reflexivity.
Qed.

Lemma do_subvol_create_ret_names env st st' :
  do_subvol_create env st = (Ret tt, st') ->
  exists root vol,
    ssdroot (glob st) = PStr root /\ flag_subvol (glob st) = PStr vol.
Proof.
  unfold do_subvol_create. rewrite bind_get_globals.
  change (bind os_getcwd ?k st) with (k (cwd st) st). cbv beta.
  intros H.
  apply bind_ret_inv in H. destruct H as (? & st1 & _ & H).
  apply bind_ret_inv in H. destruct H as (? & st2 & H2 & H).
  apply bind_ret_inv in H. destruct H as (? & st3 & H3 & _).
  apply dochdir_val_ret in H2. apply dochdir_val_ret in H3.
  destruct H2 as [root Hr]. destruct H3 as [vol Hv].
  exists root, vol. split; assumption.
Qed.

Lemma actions_cwd_dry c l : actions_cwd true c l = c.
Proof. induction l as [| a l IH]; [reflexivity | exact IH]. Qed.

Lemma actions_cwd_app dry c l1 l2 :
  actions_cwd dry c (l1 ++ l2) = actions_cwd dry (actions_cwd dry c l1) l2.
Proof. apply fold_left_app. Qed.

Lemma path_join_abs base d : is_abs d = true -> path_join base d = d.
Proof. unfold path_join. intros ->. reflexivity. Qed.

(** C9, as amended.  [do_subvol_create] records the working directory
    when it is entered and its last step changes back to it: whenever
    it returns, in every world, dry run or not, the working directory is
    the one it was entered with (an absolute path, as [os.getcwd]
    gives). *)
Theorem do_subvol_create_restores_cwd :
  forall (env : world) (st st' : state),
    is_abs (cwd st) = true ->
    do_subvol_create env st = (Ret tt, st') ->
    cwd st' = cwd st.
Proof.
  intros env st st' Habs H.
  destruct (do_subvol_create_ret_names env st st' H) as (root & vol & Hr & Hv).
  rewrite (do_subvol_create_actions env st root vol Hr Hv) in H.
  apply run_actions_ret in H. rewrite H. cbn [cwd].
  destruct (flag_dryrun (glob st)).
  - apply actions_cwd_dry.
  - unfold subvol_actions. cbv zeta.
    rewrite !actions_cwd_app.
    cbn [actions_cwd fold_left action_cwd].
    apply path_join_abs. exact Habs.
Qed.

Lemma do_subvol_create_restores_cwd_witness :
  cwd (snd (do_subvol_create calm_world (demo_state cmake_flavors_literal)))
  = cwd (demo_state cmake_flavors_literal).
Proof.
  apply (do_subvol_create_restores_cwd calm_world
           (demo_state cmake_flavors_literal)
           (snd (do_subvol_create calm_world (demo_state cmake_flavors_literal)))).
  - reflexivity.
  - vm_compute. reflexivity.
Defined.

(** C9, the claim as stated fails.  Entered in [/home/alice], the
    provisioning of [demo-vol] (every command succeeds) returns; the
    process changed to [/ssd] and further on its way, and ends in
    [/home/alice] again. *)
Lemma subvol_create_comes_back :
  fst (do_subvol_create calm_world (demo_state cmake_flavors_literal)) = Ret tt
  /\ In (Chdir "/ssd")
        (trace (snd (do_subvol_create calm_world (demo_state cmake_flavors_literal))))
  /\ cwd (demo_state cmake_flavors_literal) = "/home/alice"
  /\ cwd (snd (do_subvol_create calm_world (demo_state cmake_flavors_literal)))
     = "/home/alice".
Proof.
  split; [ vm_compute; reflexivity |].
  split; [ vm_compute; tauto |].
  split; vm_compute; reflexivity.
Qed.

(** * C10: how the optional repositories are checked out *)

Lemma last_ascii_app p c s :
  last_ascii (p ++ String c s) = last_ascii (String c s).
Proof.
  induction p as [| x p IH]; [reflexivity |].
  change (String x p ++ String c s) with (String x (p ++ String c s)).
  cbn [last_ascii] in *. rewrite IH.
  destruct (last_ascii s); reflexivity.
Qed.

Lemma length_append (a b : string) :
  String.length (a ++ b) = String.length a + String.length b.
Proof. induction a as [| x a IH]; cbn; [reflexivity | now rewrite IH]. Qed.

Lemma append_cancel_r a b s : a ++ s = b ++ s -> a = b.
Proof.
  revert b. induction a as [| x a IH]; intros [| y b] H; cbn in H.
  - reflexivity.
  - apply (f_equal String.length) in H. cbn in H.
    rewrite length_append in H. lia.
  - apply (f_equal String.length) in H. cbn in H.
    rewrite length_append in H. lia.
  - injection H as -> H. f_equal. apply IH. exact H.
Qed.

Lemma issued_app cmd a b :
  issued cmd (a ++ b)%list <-> issued cmd a \/ issued cmd b.
Proof. unfold issued. rewrite !in_app_iff. tauto. Qed.

Lemma issued_nil cmd : ~ issued cmd [].
Proof. unfold issued. cbn [In]. tauto. Qed.

Lemma executing_inj c cmd :
  Stderr ("executing: " ++ c ++ nl) = Stderr ("executing: " ++ cmd ++ nl) ->
  c = cmd.
Proof. intros H. injection H as H. apply append_cancel_r in H. exact H. Qed.

Lemma issued_cmd_events cmd (echo dry : bool) c :
  issued cmd ((if echo then [Stderr ("executing: " ++ c ++ nl)] else [])
              ++ (if dry then [] else [Spawn c]))%list
  <-> (echo = true \/ dry = false) /\ c = cmd.
Proof.
  unfold issued. destruct echo, dry; cbn [app In]; split.
  - intros [[H | []] | [H | []]]; [discriminate H |].
    apply executing_inj in H. auto.
  - intros [_ ->]. right. left. reflexivity.
  - intros [[H | [H | []]] | [H | [H | []]]]; try discriminate H.
    + injection H as H. auto.
    + apply executing_inj in H. auto.
  - intros [_ ->]. right. left. reflexivity.
  - intros [[] | []].
  - intros [[H | H] _]; discriminate H.
  - intros [[H | []] | [H | []]]; [| discriminate H].
    injection H as H. auto.
  - intros [_ ->]. left. left. reflexivity.
Qed.

Lemma issued_chdir_events cmd (echo dry : bool) d :
  ~ issued cmd ((if echo || dry then [Stderr ("cd " ++ d ++ nl)] else [])
                ++ (if dry then [] else [Chdir d]))%list.
Proof.
  unfold issued. destruct echo, dry; cbn [orb app In];
    intros [H | H]; repeat destruct H as [H | H];
    try contradiction; discriminate H.
Qed.

Lemma issued_actions cmd echo dry l :
  issued cmd (actions_events echo dry l)
  <-> (echo = true \/ dry = false) /\ In cmd (action_cmds l).
Proof.
  induction l as [| a l IH].
  - cbn. split; [intros H; destruct (issued_nil cmd H) | intros [_ []]].
  - unfold actions_events, action_cmds. cbn [flat_map].
    fold (actions_events echo dry l). fold (action_cmds l).
    rewrite issued_app, in_app_iff, IH.
    destruct a as [c | c | d]; cbn [action_events].
    + rewrite issued_cmd_events. cbn [In]. tauto.
    + rewrite issued_cmd_events. cbn [In]. tauto.
    + pose proof (issued_chdir_events cmd echo dry d). cbn [In]. tauto.
Qed.

Lemma last_ascii_app2 a b c s :
  last_ascii (a ++ b ++ String c s) = last_ascii (String c s).
Proof. rewrite <- append_assoc. apply last_ascii_app. Qed.

(** Two command strings differ: at a character of their literal parts,
    or in their last character. *)
Ltac str_neq H :=
  exfalso;
  first
    [ discriminate H
    | cbn in H; discriminate H
    | apply (f_equal last_ascii) in H;
      rewrite ?last_ascii_app2, ?last_ascii_app in H;
      vm_compute in H; discriminate H ].

Ltac not_in_cmds :=
  let Hin := fresh "Hin" in
  intros Hin; cbn [In] in Hin;
  repeat (destruct Hin as [Hin | Hin]; [ str_neq Hin |]);
  exact Hin.

Ltac in_cmds := cbn [In]; repeat first [ left; reflexivity | right ].

Ltac cmds_of_flavor Hflav :=
  unfold subvol_actions, git_svn_actions; cbv zeta; rewrite Hflav;
  cbn [String.eqb Ascii.eqb Bool.eqb];
  destruct (flag_include_tools _) eqn:?, (flag_include_llgo _) eqn:?;
  try discriminate;
  cbn [action_cmds flat_map app].

(** C10, as amended.  Whenever [do_subvol_create] returns and its
    commands can be seen (they are echoed, or run), the history it added
    shows: for flavor [git] the clang tools and llgo are checked out
    with [svn co] from the read-only mirror and not cloned, while llvm,
    clang and compiler-rt are cloned with git; for [svn] and [git-svn]
    the tools and llgo are cloned with git and not checked out with
    svn; for [svn] llvm, clang and compiler-rt are checked out with
    [svn co] and not cloned.  So for [git] and [svn] the optional
    repositories get the opposite of the method of the main ones; for
    [git-svn] the main ones are cloned with git as well, and there all
    repositories get the same method. *)
Theorem checkout_method_by_flavor :
  forall (env : world) (st st' : state),
    do_subvol_create env st = (Ret tt, st') ->
    flag_echo (glob st) = true \/ flag_dryrun (glob st) = false ->
    exists evs,
      trace st' = (trace st ++ evs)%list
      /\ let g := glob st in
         let svn_tools := "svn co " ++ llvm_ro_svn ++ "/clang-tools-extra/trunk extra" in
         let git_tools := "git clone " ++ clang_tools_git ++ " extra" in
         let svn_llgo := "svn co " ++ llvm_ro_svn ++ "/llgo/trunk llgo" in
         let git_llgo := "git clone " ++ llgo_git ++ " llgo" in
         let svn_llvm := "svn co " ++ llvm_rw_svn g ++ "/llvm/trunk llvm" in
         let git_llvm := "git clone " ++ llvm_git in
         let svn_clang := "svn co " ++ llvm_ro_svn ++ "/cfe/trunk clang" in
         let git_clang := "git clone " ++ clang_git in
         let svn_rt := "svn co " ++ llvm_ro_svn ++ "/compiler-rt/trunk compiler-rt" in
         let git_rt := "git clone " ++ compiler_rt_git in
         (flag_include_tools g = true ->
            (flag_scm_flavor g = "git" ->
               issued svn_tools evs /\ ~ issued git_tools evs)
            /\ (flag_scm_flavor g = "svn" \/ flag_scm_flavor g = "git-svn" ->
                  issued git_tools evs /\ ~ issued svn_tools evs))
         /\ (flag_include_llgo g = true ->
               (flag_scm_flavor g = "git" ->
                  issued svn_llgo evs /\ ~ issued git_llgo evs)
               /\ (flag_scm_flavor g = "svn" \/ flag_scm_flavor g = "git-svn" ->
                     issued git_llgo evs /\ ~ issued svn_llgo evs))
         /\ (flag_scm_flavor g = "svn" ->
               issued svn_llvm evs /\ issued svn_clang evs /\ issued svn_rt evs
               /\ ~ issued git_llvm evs /\ ~ issued git_clang evs
               /\ ~ issued git_rt evs)
         /\ (flag_scm_flavor g = "git" \/ flag_scm_flavor g = "git-svn" ->
               issued git_llvm evs /\ issued git_clang evs /\ issued git_rt evs
               /\ ~ issued svn_llvm evs /\ ~ issued svn_clang evs
               /\ ~ issued svn_rt evs).
Proof.
  intros env st st' H Hobs.
  destruct (do_subvol_create_ret_names env st st' H) as (root & vol & Hr & Hv).
  rewrite (do_subvol_create_actions env st root vol Hr Hv) in H.
  apply run_actions_ret in H.
  exists (actions_events (flag_echo (glob st)) (flag_dryrun (glob st))
            (subvol_actions (glob st) (cwd st))).
  split; [ rewrite H; reflexivity |].
  clear H Hr Hv root vol st'.
  assert (Hiff : forall c,
             issued c (actions_events (flag_echo (glob st))
                         (flag_dryrun (glob st))
                         (subvol_actions (glob st) (cwd st)))
             <-> In c (action_cmds (subvol_actions (glob st) (cwd st)))).
  { intros c. rewrite issued_actions. tauto. }
  cbv zeta. rewrite !Hiff. clear Hiff Hobs.
  generalize (cwd st) as here. generalize (glob st) as g. clear st.
  intros g here.
  split; [| split; [| split]].
  - intros Htools. split.
    + intros Hf. cmds_of_flavor Hf; (split; [ in_cmds | not_in_cmds ]).
    + intros [Hf | Hf]; cmds_of_flavor Hf; (split; [ in_cmds | not_in_cmds ]).
  - intros Hllgo. split.
    + intros Hf. cmds_of_flavor Hf; (split; [ in_cmds | not_in_cmds ]).
    + intros [Hf | Hf]; cmds_of_flavor Hf; (split; [ in_cmds | not_in_cmds ]).
  - intros Hf. cmds_of_flavor Hf;
      (split; [ in_cmds | split; [ in_cmds | split; [ in_cmds |
        split; [ not_in_cmds | split; not_in_cmds ]]]]).
  - intros [Hf | Hf]; cmds_of_flavor Hf;
      (split; [ in_cmds | split; [ in_cmds | split; [ in_cmds |
        split; [ not_in_cmds | split; not_in_cmds ]]]]).
Qed.

Lemma checkout_method_by_flavor_witness :
  exists evs,
    trace (snd (do_subvol_create calm_world git_state)) = evs
    /\ issued "svn co http://llvm.org/svn/llvm-project/clang-tools-extra/trunk extra" evs
    /\ ~ issued "git clone http://llvm.org/git/clang-tools-extra.git extra" evs
    /\ issued "svn co http://llvm.org/svn/llvm-project/llgo/trunk llgo" evs
    /\ issued "git clone http://llvm.org/git/llvm.git" evs.
Proof.
  destruct (checkout_method_by_flavor calm_world git_state
              (snd (do_subvol_create calm_world git_state)))
    as (evs & Ht & Htools & Hllgo & _ & Hmain).
  - vm_compute. reflexivity.
  - left. reflexivity.
  - exists evs. split; [ exact Ht |].
    destruct Htools as [Hgit _]; [ reflexivity |].
    destruct (Hgit eq_refl) as [H1 H2].
    destruct Hllgo as [Hgit' _]; [ reflexivity |].
    destruct (Hgit' eq_refl) as [H3 _].
    destruct (Hmain (or_introl eq_refl)) as [H4 _].
    repeat split; assumption.
Defined.

(** C10, the claim as stated fails.  Under [git-svn], the flavor the
    script starts with, the optional repositories are cloned with git
    exactly like llvm, clang and compiler-rt, not in the opposite way:
    these are all the commands of a run of [do_subvol_create] with the
    clang tools and llgo included, and none is an [svn co]. *)
Lemma git_svn_clones_optional_like_main :
  flag_scm_flavor (glob git_svn_state) = "git-svn"
  /\ flag_include_tools (glob git_svn_state) = true
  /\ flag_include_llgo (glob git_svn_state) = true
  /\ fst (do_subvol_create calm_world git_svn_state) = Ret tt
  /\ spawned (trace (snd (do_subvol_create calm_world git_svn_state)))
     = [ "snapshotutil.py mkvol demo-vol";
         "git clone http://llvm.org/git/llvm.git";
         "git svn init https://llvm.org/svn/llvm-project/llvm/trunk --username=alice";
         "git config svn-remote.svn.fetch :refs/remotes/origin/master";
         "git svn rebase -l";
         "git clone http://llvm.org/git/clang.git";
         "git svn init https://llvm.org/svn/llvm-project/cfe/trunk --username=alice";
         "git config svn-remote.svn.fetch :refs/remotes/origin/master";
         "git svn rebase -l";
         "git clone http://llvm.org/git/clang-tools-extra.git extra";
         "git svn init https://llvm.org/svn/llvm-project/clang-tools-extra/trunk --username=alice";
         "git config svn-remote.svn.fetch :refs/remotes/origin/master";
         "git svn rebase -l";
         "git clone http://llvm.org/git/llgo.git llgo";
         "git svn init https://llvm.org/svn/llvm-project/llgo/trunk --username=alice";
         "git config svn-remote.svn.fetch :refs/remotes/origin/master";
         "git svn rebase -l";
         "git clone http://llvm.org/git/compiler-rt.git";
         "git svn init https://llvm.org/svn/llvm-project/compiler-rt/trunk --username=alice";
         "git config svn-remote.svn.fetch :refs/remotes/origin/master";
         "git svn rebase -l";
         "git clone git://sourceware.org/git/binutils-gdb.git binutils" ].
Proof.
  split; [reflexivity |]. split; [reflexivity |]. split; [reflexivity |].
  split; vm_compute; reflexivity.
Qed.

Lemma framed_glob {A} (c : M A) st o st' :
  framed c -> c st = (o, st') -> glob st' = glob st.
Proof. intros F H. destruct (F st) as (Hg & _). rewrite H in Hg. exact Hg. Qed.

(** * C8: refresh before snapshot *)

Lemma quietly_ret {A} (a : A) (Q : A -> Prop) : Q a -> quietly (ret a) Q.
Proof.
  intros H st. split; [| exact H].
  exists []. split; [symmetry; apply app_nil_r | constructor].
Qed.

Lemma quietly_silent {A} (c : M A) (Q : A -> Prop) :
  (forall st, trace (snd (c st)) = trace st) ->
  (forall st a, fst (c st) = Ret a -> Q a) ->
  quietly c Q.
Proof.
  intros Ht HQ st. split.
  - exists []. rewrite Ht. split; [symmetry; apply app_nil_r | constructor].
  - specialize (HQ st). destruct (fst (c st)); auto.
Qed.

Lemma quietly_bind {A B} (c : M A) (k : A -> M B) (Q : A -> Prop) (R : B -> Prop) :
  quietly c Q -> (forall a, Q a -> quietly (k a) R) -> quietly (bind c k) R.
Proof.
  intros Hc Hk st. unfold bind.
  destruct (Hc st) as ((tl & Ht & Hf) & HQ).
  destruct (c st) as [[a | n | e] st1]; cbn [fst snd] in *.
  - destruct (Hk a HQ st1) as ((tl' & Ht' & Hf') & HR).
    split; [| exact HR].
    exists (tl ++ tl')%list. split.
    + rewrite Ht', Ht. symmetry. apply app_assoc.
    + apply Forall_app. auto.
  - split; [| exact I]. exists tl. auto.
  - split; [| exact I]. exists tl. auto.
Qed.

Lemma quietly_weaken {A} (c : M A) (Q Q' : A -> Prop) :
  quietly c Q -> (forall a, Q a -> Q' a) -> quietly c Q'.
Proof.
  intros H HQ st. destruct (H st) as (Ht & Hq). split; [exact Ht |].
  destruct (fst (c st)); auto.
Qed.

Lemma quietly_emit e : no_refresh e -> quietly (emit e) (fun _ => True).
Proof.
  intros H st. split; [| exact I].
  exists [e]. split; [reflexivity | repeat constructor; exact H].
Qed.

Lemma quietly_when b c :
  quietly c (fun _ => True) -> quietly (when b c) (fun _ => True).
Proof. intros H. destruct b; [exact H | apply quietly_ret; exact I]. Qed.

Lemma quietly_exit {A} n : quietly (@sys_exit A n) (fun _ => True).
Proof. apply quietly_silent; auto. Qed.

Lemma quietly_raise {A} e : quietly (@raise A e) (fun _ => True).
Proof. apply quietly_silent; auto. Qed.

Lemma quietly_get_globals : quietly get_globals (fun _ => True).
Proof. apply quietly_silent; auto. Qed.

Lemma quietly_get_history : quietly get_history (fun _ => True).
Proof. apply quietly_silent; auto. Qed.

Lemma quietly_os_getcwd : quietly os_getcwd (fun _ => True).
Proof. apply quietly_silent; auto. Qed.

Lemma quietly_set_cwd d : quietly (set_cwd d) (fun _ => True).
Proof. apply quietly_silent; auto. Qed.

Lemma quietly_ret_true {A} (a : A) : quietly (ret a) (fun _ => True).
Proof. apply quietly_ret. exact I. Qed.

Create HintDb quiet.
#[local] Hint Resolve quietly_exit quietly_raise quietly_get_globals
  quietly_get_history quietly_os_getcwd quietly_set_cwd quietly_ret_true
  : quiet.

Ltac quiet_step :=
  lazymatch goal with
  | |- quietly (bind _ _) _ => eapply quietly_bind; [ | intros ? ? ]
  | |- quietly (when _ _) _ => apply quietly_when
  | |- quietly (emit _) _ => apply quietly_emit; reflexivity
  | |- quietly (if ?b then _ else _) _ => destruct b
  | |- quietly (match ?x with _ => _ end) _ => destruct x
  | |- quietly _ _ => solve [ auto with quiet ]
  end.

Ltac quiet_auto := cbv zeta; repeat quiet_step.

Lemma quietly_u_error {A} msg : quietly (@u_error A msg) (fun _ => True).
Proof. unfold u_error. quiet_auto. Qed.

Lemma quietly_u_warning msg : quietly (u_warning msg) (fun _ => True).
Proof. unfold u_warning. quiet_auto. Qed.

Lemma quietly_u_verbose lvl msg : quietly (u_verbose lvl msg) (fun _ => True).
Proof. unfold u_verbose. quiet_auto. Qed.

Lemma quietly_as_str v : quietly (as_str v) (fun _ => True).
Proof. unfold as_str. quiet_auto. Qed.

Lemma quietly_os_chdir env d : quietly (os_chdir env d) (fun _ => True).
Proof. unfold os_chdir. quiet_auto. Qed.
#[local] Hint Resolve quietly_u_error quietly_u_warning quietly_u_verbose
  quietly_as_str quietly_os_chdir : quiet.

Lemma quietly_dochdir env d : quietly (dochdir env d) (fun _ => True).
Proof. unfold dochdir. quiet_auto. Qed.
#[local] Hint Resolve quietly_dochdir : quiet.

Lemma quietly_dochdir_val env v : quietly (dochdir_val env v) (fun _ => True).
Proof. unfold dochdir_val. quiet_auto. Qed.
#[local] Hint Resolve quietly_dochdir_val : quiet.

Lemma quietly_docmd env cmd :
  is_refresh_cmd cmd = false -> quietly (docmd env cmd) (fun _ => True).
Proof.
  intros H. unfold docmd, u_docmd.
  assert (no_refresh (Spawn cmd)) by exact H.
  repeat first [ apply quietly_emit; assumption | quiet_step ].
Qed.

Lemma quietly_doscmd env cmd :
  is_refresh_cmd cmd = false -> quietly (doscmd env cmd) (fun _ => True).
Proof.
  intros H. unfold doscmd, u_doscmd.
  assert (no_refresh (Spawn cmd)) by exact H.
  repeat first [ apply quietly_emit; assumption | quiet_step ].
Qed.

Ltac quiet_cmd_step :=
  lazymatch goal with
  | |- quietly (docmd _ _) _ =>
      apply quietly_docmd; first [ reflexivity | assumption ]
  | |- quietly (doscmd _ _) _ =>
      apply quietly_doscmd; first [ reflexivity | assumption ]
  | |- _ => quiet_step
  end.

Ltac quiet_cmds := cbv zeta; repeat quiet_cmd_step.

Lemma quietly_do_configure_binutils env :
  quietly (do_configure_binutils env) (fun _ => True).
Proof. unfold do_configure_binutils. quiet_cmds. Qed.

Lemma quietly_flavor_entry flav : quietly (flavor_entry flav) (fun _ => True).
Proof. unfold flavor_entry. quiet_auto. Qed.

Lemma quietly_dict_item d k : quietly (dict_item d k) (fun _ => True).
Proof. unfold dict_item. quiet_auto. Qed.
#[local] Hint Resolve quietly_flavor_entry quietly_dict_item : quiet.

Lemma quietly_bootstrap_tooldir flav : quietly (bootstrap_tooldir flav) (fun _ => True).
Proof. unfold bootstrap_tooldir. quiet_auto. Qed.
#[local] Hint Resolve quietly_bootstrap_tooldir : quiet.

Lemma quietly_select_cmake_type flav : quietly (select_cmake_type flav) (fun _ => True).
Proof. unfold select_cmake_type. quiet_auto. Qed.

Lemma quietly_select_compiler_flavor flav :
  quietly (select_compiler_flavor flav) (fun _ => True).
Proof. unfold select_compiler_flavor. quiet_auto. Qed.

(** The setting is empty or starts with [env]. *)
Lemma quietly_select_dyld_library_path flav :
  quietly (select_dyld_library_path flav)
          (fun d => d = "" \/ exists x, d = "env DYLD_LIBRARY_PATH=" ++ x).
Proof.
  unfold select_dyld_library_path.
  eapply quietly_bind; [ apply quietly_bootstrap_tooldir | intros tbdir _ ].
  destruct (negb (truthy tbdir)); apply quietly_ret.
  - left. reflexivity.
  - right. eexists. reflexivity.
Qed.

Lemma quietly_write_file env path content errmsg :
  quietly (write_file env path content errmsg) (fun _ => True).
Proof. unfold write_file. quiet_auto. Qed.
#[local] Hint Resolve quietly_select_cmake_type quietly_select_compiler_flavor
  quietly_select_dyld_library_path quietly_write_file : quiet.

Lemma quietly_emit_rebuild_scripts env flav :
  quietly (emit_rebuild_scripts env flav) (fun _ => True).
Proof. unfold emit_rebuild_scripts. quiet_auto. Qed.

(** The cmake command is no refresh command. *)
Lemma quietly_emit_cmake_cmd_script env flav :
  quietly (emit_cmake_cmd_script env flav) (fun c => is_refresh_cmd c = false).
Proof.
  unfold emit_cmake_cmd_script. cbv zeta.
  eapply quietly_bind; [ apply quietly_get_globals | intros g _ ].
  eapply quietly_bind; [ apply quietly_flavor_entry | intros tup _ ].
  eapply quietly_bind; [ apply quietly_select_dyld_library_path | intros dyld Hd ].
  eapply quietly_bind; [ apply quietly_select_compiler_flavor | intros ccomp _ ].
  eapply quietly_bind; [ apply quietly_select_cmake_type | intros ty _ ].
  eapply quietly_bind; [ apply quietly_dict_item | intros extra _ ].
  eapply quietly_bind.
  { instantiate (1 := fun _ => True). destruct (flag_dryrun g); quiet_auto. }
  intros _ _. apply quietly_ret.
  destruct Hd as [-> | [x ->]]; reflexivity.
Qed.

Lemma quietly_pool_apply_async env builddir cmake_cmd :
  quietly (pool_apply_async_run_cmake env builddir cmake_cmd) (fun _ => True).
Proof.
  intros st. unfold pool_apply_async_run_cmake.
  match goal with |- context [bind ?c ?k st] => apply (quietly_bind c k (fun _ => True)) end.
  - apply quietly_emit. reflexivity.
  - intros _ _. auto with quiet.
Qed.

Lemma quietly_async_get env idx r timeout :
  quietly (async_get env idx r timeout) (fun _ => True).
Proof. unfold async_get. quiet_auto. Qed.
#[local] Hint Resolve quietly_emit_rebuild_scripts quietly_emit_cmake_cmd_script
  quietly_pool_apply_async quietly_async_get quietly_do_configure_binutils
  : quiet.

Lemma quietly_setup_flavors env flavs :
  forall results, quietly (setup_flavors env flavs results) (fun _ => True).
Proof.
  induction flavs as [| flav rest IH]; intros results; cbn [setup_flavors].
  - auto with quiet.
  - quiet_cmds.
Qed.

Lemma quietly_wait_results env results :
  forall idx rc, quietly (wait_results env idx results rc) (fun _ => True).
Proof.
  induction results as [| r rest IH]; intros idx rc; cbn [wait_results];
    quiet_auto.
Qed.
#[local] Hint Resolve quietly_setup_flavors quietly_wait_results : quiet.

Lemma quietly_multiprocessing_Pool n :
  quietly (multiprocessing_Pool n) (fun _ => True).
Proof. unfold multiprocessing_Pool. quiet_auto. Qed.
#[local] Hint Resolve quietly_multiprocessing_Pool : quiet.

Lemma quietly_do_setup_cmake env : quietly (do_setup_cmake env) (fun _ => True).
Proof. unfold do_setup_cmake. quiet_auto. Qed.
#[local] Hint Resolve quietly_do_setup_cmake : quiet.

(** What [docmd] adds to the history: the events of the call, then at
    most the failure of the command. *)
Lemma docmd_issue env cmd st :
  exists tl,
    trace (snd (docmd env cmd st))
    = (trace st
       ++ action_events (flag_echo (glob st)) (flag_dryrun (glob st)) (ADocmd cmd)
       ++ tl)%list
    /\ Forall no_refresh tl.
Proof.
  destruct st as [g c tr].
  unfold docmd, u_docmd, action_events, when, bind, get_globals, get_history,
    emit, ret, sys_exit.
  cbn [glob cwd trace].
  destruct (flag_echo g), (flag_dryrun g); cbn [glob cwd trace fst snd];
    try (exists []; split; [ rewrite ?app_nil_r; reflexivity | constructor ]; fail);
    destruct (docmd_returns env _ cmd); cbn [glob cwd trace fst snd];
    try (exists []; split;
         [ rewrite <- ?app_assoc, ?app_nil_r; reflexivity | constructor ]; fail);
    (exists [CmdFailed cmd]; split;
     [ rewrite <- ?app_assoc; reflexivity | repeat constructor ]).
Qed.

Lemma action_events_no_refresh echo dry cmd :
  is_refresh_cmd cmd = false ->
  Forall no_refresh (action_events echo dry (ADocmd cmd)).
Proof.
  intros H. destruct echo, dry; cbn; repeat constructor; exact H.
Qed.

Lemma do_snapshot_create_unfold env st :
  do_snapshot_create env st
  = bind (when (flag_do_fetch (glob st)) (fetch_in_volume env))
         (fun _ => snapshot_tail env (glob st)) st.
Proof. reflexivity. Qed.

Lemma snapshot_tail_trace env g st :
  glob st = g ->
  exists tl,
    trace (snd (snapshot_tail env g st))
    = (trace st
       ++ action_events (flag_echo g) (flag_dryrun g)
            (ADocmd ("snapshotutil.py mksnap " ++ pystr (flag_subvol g) ++ " "
                     ++ pystr (flag_snapshot g)))
       ++ tl)%list
    /\ Forall no_refresh tl.
Proof.
  intros Hg. unfold snapshot_tail.
  set (mksnap := "snapshotutil.py mksnap " ++ pystr (flag_subvol g) ++ " "
                 ++ pystr (flag_snapshot g)).
  destruct (docmd_issue env mksnap st) as (tl0 & Ht0 & Hf0).
  rewrite Hg in Ht0.
  assert (HK : quietly (dochdir_val env (ssdroot g) ;;
                        dochdir_val env (flag_snapshot g) ;;
                        do_configure_binutils env ;;
                        do_setup_cmake env) (fun _ => True)) by quiet_auto.
  unfold bind at 1.
  destruct (docmd env mksnap st) as [[[] | n | e] st1]; cbn [snd] in *.
  - destruct (HK st1) as ((tl1 & Ht1 & Hf1) & _).
    exists (tl0 ++ tl1)%list. split.
    + rewrite Ht1, Ht0. rewrite <- !app_assoc. reflexivity.
    + apply Forall_app. auto.
  - exists tl0. auto.
  - exists tl0. auto.
Qed.

(** C8.  In [do_snapshot_create], in every world and state: with the
    refresh flag unset the first thing added to the history is the
    snapshot command, and no refresh command (the [find] for the
    repositories, [git fetch], [git svn rebase -l], [svn update]) is
    run at all; with the flag set, when [fetch_in_volume] returns, the
    history is that of the complete refresh, then the snapshot command,
    then a rest without any refresh command; and when the refresh ends
    the process instead, that is the whole run: no snapshot command is
    issued. *)
Theorem refresh_completes_before_snapshot :
  forall (env : world) (st : state),
    let g := glob st in
    let mksnap := "snapshotutil.py mksnap " ++ pystr (flag_subvol g) ++ " "
                  ++ pystr (flag_snapshot g) in
    let issue := action_events (flag_echo g) (flag_dryrun g) (ADocmd mksnap) in
    (flag_do_fetch g = false ->
       exists tl,
         trace (snd (do_snapshot_create env st))
         = (trace st ++ issue ++ tl)%list
         /\ Forall no_refresh (issue ++ tl)%list)
    /\ (flag_do_fetch g = true ->
          match fst (fetch_in_volume env st) with
          | Ret _ =>
              exists tl,
                trace (snd (do_snapshot_create env st))
                = (trace (snd (fetch_in_volume env st)) ++ issue ++ tl)%list
                /\ Forall no_refresh (issue ++ tl)%list
          | _ => do_snapshot_create env st = fetch_in_volume env st
          end).
Proof.
  intros env st g mksnap issue.
  assert (Hissue : Forall no_refresh issue).
  { apply action_events_no_refresh. reflexivity. }
  rewrite do_snapshot_create_unfold. fold g.
  split; intros Hf; rewrite Hf; cbn [when].
  - rewrite bind_ret.
    destruct (snapshot_tail_trace env g st eq_refl) as (tl & Ht & Hn).
    exists tl. split; [ exact Ht | apply Forall_app; auto ].
  - unfold bind.
    destruct (framed_fetch_in_volume env st) as (Hg & _).
    destruct (fetch_in_volume env st) as [[[] | n | e] st1]; cbn [fst snd] in *;
      try reflexivity.
    destruct (snapshot_tail_trace env g st1 Hg) as (tl & Ht & Hn).
    exists tl. split; [ exact Ht | apply Forall_app; auto ].
Qed.

(** A run with the refresh flag set: the refresh returns, and all of
    its commands come before the snapshot command. *)
Example refresh_then_snapshot_run :
  fst (fetch_in_volume repo_world fetch_state) = Ret tt
  /\ spawned (trace (snd (do_snapshot_create repo_world fetch_state)))
     = ["git fetch"; "find . -depth -name .git -print"; "git fetch";
        "git svn rebase -l"; "git fetch"; "git svn rebase -l";
        "snapshotutil.py mksnap demo-vol demo-snap"; "mkdir binutils-build";
        "../binutils/configure --enable-gold --enable-plugins --disable-werror";
        "mkdir build.opt"].
Proof. split; vm_compute; reflexivity. Qed.

(** * C4: the [early] marker *)

Lemma sim_bind {A B} (R : A -> A -> Prop) (R' : B -> B -> Prop)
      (c c' : M A) (k k' : A -> M B) :
  sim R c c' -> (forall a a', R a a' -> sim R' (k a) (k' a')) ->
  sim R' (bind c k) (bind c' k').
Proof.
  intros Hc Hk st. unfold bind.
  destruct (Hc st) as (Ho & Hs).
  destruct (c st) as [[a | n | e] st1];
    destruct (c' (forget st)) as [[a' | n' | e'] st1'];
    cbn [fst snd same_outcome] in *; try contradiction; subst.
  - apply (Hk a a' Ho st1).
  - auto.
  - auto.
Qed.

Lemma sim_blind {A} (c : M A) :
  (forall st, c (forget st) = (fst (c st), forget (snd (c st)))) ->
  sim eq c c.
Proof.
  intros H st. rewrite H. cbn [fst snd]. split; [| reflexivity].
  destruct (fst (c st)); reflexivity.
Qed.

Lemma sim_ret {A} (R : A -> A -> Prop) a a' : R a a' -> sim R (ret a) (ret a').
Proof. intros H st. cbn. auto. Qed.

Lemma sim_ret_eq {A} (a : A) : sim eq (ret a) (ret a).
Proof. apply sim_ret. reflexivity. Qed.

Lemma sim_emit e : sim eq (emit e) (emit e).
Proof. apply sim_blind. reflexivity. Qed.

Lemma sim_exit {A} n : sim eq (@sys_exit A n) (sys_exit n).
Proof. apply sim_blind. reflexivity. Qed.

Lemma sim_raise {A} e : sim eq (@raise A e) (raise e).
Proof. apply sim_blind. reflexivity. Qed.

Lemma sim_get_history : sim eq get_history get_history.
Proof. apply sim_blind. reflexivity. Qed.

Lemma sim_os_getcwd : sim eq os_getcwd os_getcwd.
Proof. apply sim_blind. reflexivity. Qed.

Lemma sim_set_cwd d : sim eq (set_cwd d) (set_cwd d).
Proof. apply sim_blind. reflexivity. Qed.

Lemma sim_get_globals : sim (fun g g' => g' = forget_g g) get_globals get_globals.
Proof. intros st. cbn. auto. Qed.

Lemma sim_when b c c' : sim eq c c' -> sim eq (when b c) (when b c').
Proof. intros H. destruct b; [exact H | apply sim_ret_eq]. Qed.

Create HintDb sim.
#[local] Hint Resolve sim_ret_eq sim_emit sim_exit sim_raise sim_get_history
  sim_os_getcwd sim_set_cwd sim_when : sim.

Ltac forget_fields :=
  cbn [forget_g set_cmake_flavors flag_subvol flag_snapshot flag_user
       flag_binutils_build flag_run_ninja flag_echo flag_dryrun flag_scm_flavor
       flag_cmake_type flag_do_fetch flag_include_tools flag_include_llgo
       flag_parallel ssdroot llvm_rw_svn cmake_flavors verbosity].

Ltac sim_step :=
  lazymatch goal with
  | |- sim _ (bind get_globals _) (bind get_globals _) =>
      eapply sim_bind; [ apply sim_get_globals | intros ? ? ->; forget_fields ]
  | |- sim _ (bind _ _) (bind _ _) =>
      eapply sim_bind; [ solve [ auto with sim ] | intros ? ? <- ]
  | |- sim _ (when _ _) (when _ _) => apply sim_when
  | |- sim _ (if ?b then _ else _) (if ?b then _ else _) => destruct b
  | |- sim _ (match ?x with _ => _ end) (match ?x with _ => _ end) => destruct x
  | |- sim _ _ _ => solve [ auto with sim ]
  end.

Ltac sim_auto := cbv zeta; repeat sim_step.

Lemma sim_u_error {A} msg : sim eq (@u_error A msg) (u_error msg).
Proof. unfold u_error. sim_auto. Qed.

Lemma sim_u_warning msg : sim eq (u_warning msg) (u_warning msg).
Proof. unfold u_warning. sim_auto. Qed.

Lemma sim_u_verbose lvl msg : sim eq (u_verbose lvl msg) (u_verbose lvl msg).
Proof. unfold u_verbose. sim_auto. Qed.

Lemma sim_as_str v : sim eq (as_str v) (as_str v).
Proof. unfold as_str. sim_auto. Qed.
#[local] Hint Resolve sim_u_error sim_u_warning sim_u_verbose sim_as_str : sim.

Lemma sim_u_docmd env cmd : sim eq (u_docmd env cmd) (u_docmd env cmd).
Proof. unfold u_docmd. sim_auto. Qed.

Lemma sim_u_doscmd env cmd : sim eq (u_doscmd env cmd) (u_doscmd env cmd).
Proof. unfold u_doscmd. sim_auto. Qed.

Lemma sim_u_doscmd_nf env cmd : sim eq (u_doscmd_nf env cmd) (u_doscmd_nf env cmd).
Proof. unfold u_doscmd_nf. sim_auto. Qed.

Lemma sim_os_chdir env d : sim eq (os_chdir env d) (os_chdir env d).
Proof. unfold os_chdir. sim_auto. Qed.
#[local] Hint Resolve sim_u_docmd sim_u_doscmd sim_u_doscmd_nf sim_os_chdir : sim.

Lemma sim_docmd env cmd : sim eq (docmd env cmd) (docmd env cmd).
Proof. unfold docmd. sim_auto. Qed.

Lemma sim_doscmd env cmd : sim eq (doscmd env cmd) (doscmd env cmd).
Proof. unfold doscmd. sim_auto. Qed.

Lemma sim_dochdir env d : sim eq (dochdir env d) (dochdir env d).
Proof. unfold dochdir. sim_auto. Qed.

Lemma sim_write_file env path content errmsg :
  sim eq (write_file env path content errmsg) (write_file env path content errmsg).
Proof. unfold write_file. sim_auto. Qed.

Lemma sim_run_cmake env builddir cmake_cmd :
  sim eq (run_cmake env builddir cmake_cmd) (run_cmake env builddir cmake_cmd).
Proof. unfold run_cmake. sim_auto. Qed.
#[local] Hint Resolve sim_docmd sim_doscmd sim_dochdir sim_write_file
  sim_run_cmake : sim.

Lemma pyval_eqb_true a b : pyval_eqb a b = true -> a = b.
Proof.
  destruct a, b; cbn; intros H; try discriminate H; try reflexivity.
  - apply String.eqb_eq in H. congruence.
  - apply Z.eqb_eq in H. congruence.
Qed.

Lemma dict_get_drop_early d k :
  pyval_eqb k (PStr "early") = false ->
  dict_get (drop_early d) k = dict_get d k.
Proof.
  intros Hk. induction d as [| [k' v] d IH]; [reflexivity |].
  cbn [drop_early filter fst dict_get].
  destruct (pyval_eqb k' (PStr "early")) eqn:E; cbn [negb].
  - apply pyval_eqb_true in E. subst k'. rewrite Hk. exact IH.
  - cbn [dict_get]. fold (drop_early d). rewrite IH. reflexivity.
Qed.

Lemma dict_has_drop_early d k :
  pyval_eqb k (PStr "early") = false ->
  dict_has (drop_early d) k = dict_has d k.
Proof. intros H. unfold dict_has. rewrite dict_get_drop_early by exact H. reflexivity. Qed.

Lemma table_get_without_early t flav :
  table_get (without_early t) flav = option_map drop_early (table_get t flav).
Proof.
  induction t as [| [k d] t IH]; [reflexivity |].
  cbn [without_early map fst snd table_get].
  destruct (String.eqb flav k); [reflexivity | exact IH].
Qed.

Lemma table_has_without_early t flav :
  match table_get (without_early t) flav with Some _ => true | None => false end
  = match table_get t flav with Some _ => true | None => false end.
Proof. rewrite table_get_without_early. destruct (table_get t flav); reflexivity. Qed.

Lemma map_fst_without_early t : map fst (without_early t) = map fst t.
Proof. unfold without_early. rewrite map_map. reflexivity. Qed.

Lemma length_without_early t : List.length (without_early t) = List.length t.
Proof. apply length_map. Qed.

Lemma same_outcome_eq {A} (o o' : outcome A) : same_outcome eq o o' -> o = o'.
Proof. destruct o, o'; cbn; intros H; try contradiction; congruence. Qed.

Lemma sim_flavor_entry flav :
  sim (fun fd fd' => fd' = drop_early fd) (flavor_entry flav) (flavor_entry flav).
Proof.
  unfold flavor_entry.
  eapply sim_bind; [ apply sim_get_globals | intros g g' ->; forget_fields ].
  rewrite table_get_without_early.
  destruct (table_get (cmake_flavors g) flav); cbn [option_map].
  - apply sim_ret. reflexivity.
  - apply sim_raise.
Qed.

Lemma sim_dict_item fd k :
  pyval_eqb k (PStr "early") = false ->
  sim eq (dict_item fd k) (dict_item (drop_early fd) k).
Proof.
  intros H. unfold dict_item. rewrite dict_get_drop_early by exact H.
  destruct (dict_get fd k); auto with sim.
Qed.

#[local] Hint Extern 2 (sim _ (dict_item _ _) (dict_item (drop_early _) _)) =>
  (apply sim_dict_item; reflexivity) : sim.

Ltac sim_table :=
  cbv zeta;
  rewrite ?table_has_without_early, ?map_fst_without_early,
    ?length_without_early;
  rewrite ?dict_has_drop_early by reflexivity;
  lazymatch goal with
  | |- sim _ (bind get_globals _) (bind get_globals _) =>
      eapply sim_bind;
      [ apply sim_get_globals | intros ? ? ->; forget_fields; sim_table ]
  | |- sim _ (bind (flavor_entry _) _) (bind (flavor_entry _) _) =>
      eapply sim_bind; [ apply sim_flavor_entry | intros ? ? ->; sim_table ]
  | |- sim _ (bind _ _) (bind _ _) =>
      eapply sim_bind; [ solve [ sim_table ] | intros ? ? <-; sim_table ]
  | |- sim _ (when _ _) (when _ _) => apply sim_when; sim_table
  | |- sim _ (if ?b then _ else _) (if ?b then _ else _) => destruct b; sim_table
  | |- sim _ (match ?x with _ => _ end) (match ?x with _ => _ end) =>
      destruct x; sim_table
  | |- sim _ _ _ => solve [ auto with sim ]
  end.

Lemma sim_bootstrap_tooldir flav :
  sim eq (bootstrap_tooldir flav) (bootstrap_tooldir flav).
Proof. unfold bootstrap_tooldir. sim_table. Qed.
#[local] Hint Resolve sim_bootstrap_tooldir : sim.

Lemma sim_select_cmake_type flav :
  sim eq (select_cmake_type flav) (select_cmake_type flav).
Proof. unfold select_cmake_type. sim_table. Qed.

Lemma sim_select_dyld_library_path flav :
  sim eq (select_dyld_library_path flav) (select_dyld_library_path flav).
Proof. unfold select_dyld_library_path. sim_table. Qed.

Lemma sim_select_compiler_flavor flav :
  sim eq (select_compiler_flavor flav) (select_compiler_flavor flav).
Proof. unfold select_compiler_flavor. sim_table. Qed.
#[local] Hint Resolve sim_select_cmake_type sim_select_dyld_library_path
  sim_select_compiler_flavor : sim.

Lemma sim_emit_cmake_cmd_script env flav :
  sim eq (emit_cmake_cmd_script env flav) (emit_cmake_cmd_script env flav).
Proof. unfold emit_cmake_cmd_script. sim_table. Qed.

Lemma sim_emit_rebuild_scripts env flav :
  sim eq (emit_rebuild_scripts env flav) (emit_rebuild_scripts env flav).
Proof. unfold emit_rebuild_scripts. sim_table. Qed.

Lemma sim_pool_apply_async env builddir cmake_cmd :
  sim eq (pool_apply_async_run_cmake env builddir cmake_cmd)
         (pool_apply_async_run_cmake env builddir cmake_cmd).
Proof.
  intros st. unfold pool_apply_async_run_cmake, bind, emit, ret.
  cbn [fst snd same_outcome].
  destruct (sim_run_cmake env builddir cmake_cmd st) as (Ho & _).
  apply same_outcome_eq in Ho. rewrite Ho. split; reflexivity.
Qed.

Lemma sim_async_get env idx r timeout :
  sim eq (async_get env idx r timeout) (async_get env idx r timeout).
Proof. unfold async_get. sim_table. Qed.
#[local] Hint Resolve sim_emit_cmake_cmd_script sim_emit_rebuild_scripts
  sim_pool_apply_async sim_async_get : sim.

Lemma sim_setup_flavors env flavs :
  forall results,
    sim eq (setup_flavors env flavs results) (setup_flavors env flavs results).
Proof.
  induction flavs as [| flav rest IH]; intros results; cbn [setup_flavors];
    sim_table.
Qed.

Lemma sim_wait_results env results :
  forall idx rc,
    sim eq (wait_results env idx results rc) (wait_results env idx results rc).
Proof.
  induction results as [| r rest IH]; intros idx rc; cbn [wait_results];
    sim_table.
Qed.
#[local] Hint Resolve sim_setup_flavors sim_wait_results : sim.

Lemma sim_multiprocessing_Pool n :
  sim eq (multiprocessing_Pool n) (multiprocessing_Pool n).
Proof. unfold multiprocessing_Pool. sim_table. Qed.
#[local] Hint Resolve sim_multiprocessing_Pool : sim.

Lemma sim_do_setup_cmake env : sim eq (do_setup_cmake env) (do_setup_cmake env).
Proof. unfold do_setup_cmake. sim_table. Qed.

Lemma sim_u_docmdlines env cmd : sim eq (u_docmdlines env cmd) (u_docmdlines env cmd).
Proof. unfold u_docmdlines. sim_table. Qed.

Lemma sim_dochdir_val env v : sim eq (dochdir_val env v) (dochdir_val env v).
Proof. unfold dochdir_val. sim_table. Qed.
#[local] Hint Resolve sim_u_docmdlines sim_dochdir_val : sim.

Lemma sim_do_fetch env flavor where_ :
  sim eq (do_fetch env flavor where_) (do_fetch env flavor where_).
Proof. unfold do_fetch. sim_table. Qed.
#[local] Hint Resolve sim_do_fetch : sim.

Lemma sim_fetch_lines env flavor lines :
  sim eq (fetch_lines env flavor lines) (fetch_lines env flavor lines).
Proof. induction lines as [| l lines IH]; cbn [fetch_lines]; sim_table. Qed.
#[local] Hint Resolve sim_fetch_lines : sim.

Lemma sim_fetch_in_volume env : sim eq (fetch_in_volume env) (fetch_in_volume env).
Proof. unfold fetch_in_volume. sim_table. Qed.

Lemma sim_do_configure_binutils env :
  sim eq (do_configure_binutils env) (do_configure_binutils env).
Proof. unfold do_configure_binutils. sim_table. Qed.
#[local] Hint Resolve sim_fetch_in_volume sim_do_configure_binutils
  sim_do_setup_cmake : sim.

Lemma sim_do_snapshot_create env :
  sim eq (do_snapshot_create env) (do_snapshot_create env).
Proof. unfold do_snapshot_create. sim_table. Qed.

(** C4 (the code departs from the claim).  The claim says that
    snapshot creation configures exactly the entries marked [early].
    Nothing in snapshot creation reads the marker: run from any state
    and from the same state with every [early] marker removed from the
    table, in any world, [do_snapshot_create] ends the same way, with
    the same history and in the same directory.  Its loop takes every
    entry of the table in turn. *)
Theorem do_snapshot_create_ignores_early :
  forall (env : world) (st : state),
    fst (do_snapshot_create env (forget st)) = fst (do_snapshot_create env st)
    /\ trace (snd (do_snapshot_create env (forget st)))
       = trace (snd (do_snapshot_create env st))
    /\ cwd (snd (do_snapshot_create env (forget st)))
       = cwd (snd (do_snapshot_create env st)).
Proof.
  intros env st. destruct (sim_do_snapshot_create env st) as (Ho & Hs).
  apply same_outcome_eq in Ho. rewrite Hs, Ho.
  split; [reflexivity | split; reflexivity].
Qed.

(** The table of the script loses its three markers. *)
Example without_early_literal :
  map (fun e => dict_has (snd e) (PStr "early")) cmake_flavors_literal
  = [true; true; true; false; false; false]
  /\ map (fun e => dict_has (snd e) (PStr "early"))
         (without_early cmake_flavors_literal)
     = [false; false; false; false; false; false].
Proof. split; reflexivity. Qed.

(** * Further properties of the script *)

(** ** What a computation adds to the history *)

Lemma emits_ret I P {A} (a : A) : emits_if I P (ret a).
Proof.
  intros st _. cbn. split; [reflexivity |].
  exists []. rewrite app_nil_r. auto.
Qed.

Lemma emits_silent I P {A} (c : M A) :
  (forall st, snd (c st) = st) -> emits_if I P c.
Proof.
  intros H st _. rewrite H. split; [reflexivity |].
  exists []. rewrite app_nil_r. auto.
Qed.

Lemma emits_emit I P e : P e = true -> emits_if I P (emit e).
Proof.
  intros H st _. cbn. split; [reflexivity |].
  exists [e]. cbn. rewrite H. auto.
Qed.

Lemma emits_bind I P {A B} (c : M A) (k : A -> M B) :
  emits_if I P c -> (forall a, emits_if I P (k a)) -> emits_if I P (bind c k).
Proof.
  intros Hc Hk st HI. unfold bind.
  destruct (Hc st HI) as (Hg & tl & Ht & Hp & Hcwd).
  destruct (c st) as [[a | n | e] st1]; cbn [fst snd] in *;
    try (split; [exact Hg | exists tl; auto]; fail).
  assert (HI1 : I (glob st1)) by (rewrite Hg; exact HI).
  destruct (Hk a st1 HI1) as (Hg' & tl' & Ht' & Hp' & Hcwd').
  split; [congruence |].
  exists (tl ++ tl')%list. repeat split.
  - rewrite Ht', Ht. symmetry. apply app_assoc.
  - rewrite forallb_app, Hp, Hp'. reflexivity.
  - destruct Hcwd' as [E' | [d Hd]].
    + destruct Hcwd as [E | [d Hd]].
      * left. congruence.
      * right. exists d. apply in_or_app. auto.
    + right. exists d. apply in_or_app. auto.
Qed.

Lemma emits_bind_globals I P {B} (k : globals -> M B) :
  (forall g, I g -> emits_if I P (k g)) -> emits_if I P (bind get_globals k).
Proof. intros H st HI. rewrite bind_get_globals. apply (H (glob st) HI st HI). Qed.

Lemma emits_when I P b c : emits_if I P c -> emits_if I P (when b c).
Proof. intros H. destruct b; [exact H | apply emits_ret]. Qed.

Lemma emits_exit I P {A} n : emits_if I P (@sys_exit A n).
Proof. apply emits_silent. reflexivity. Qed.

Lemma emits_raise I P {A} e : emits_if I P (@raise A e).
Proof. apply emits_silent. reflexivity. Qed.

Lemma emits_get_history I P : emits_if I P get_history.
Proof. apply emits_silent. reflexivity. Qed.

Lemma emits_os_getcwd I P : emits_if I P os_getcwd.
Proof. apply emits_silent. reflexivity. Qed.

Lemma emits_get_globals I P : emits_if I P get_globals.
Proof. apply emits_silent. reflexivity. Qed.

(** [os.chdir] moves the working directory only after its [Chdir]. *)
Lemma emits_os_chdir I P env d :
  P (Chdir d) = true -> emits_if I P (os_chdir env d).
Proof.
  intros HP st _. unfold os_chdir, bind, get_history, os_getcwd, emit, set_cwd, ret.
  cbn [trace cwd glob].
  destruct (os_chdir_error env (trace st) (cwd st) d); cbn [fst snd glob trace cwd];
    (split; [reflexivity |]); exists [Chdir d]; cbn [forallb]; rewrite HP;
    repeat split; right; exists d; left; reflexivity.
Qed.

Create HintDb emits.
#[local] Hint Resolve emits_ret emits_exit emits_raise emits_get_history
  emits_os_getcwd emits_get_globals : emits.

(** One step; [use_inv] says how the invariant of the globals is put
    to use after the globals were read. *)
Ltac emits_step use_inv :=
  lazymatch goal with
  | |- emits_if _ _ (bind get_globals _) =>
      apply emits_bind_globals;
      let g := fresh "g" in let Hg := fresh "Hg" in
      intros g Hg; cbv beta in Hg; use_inv Hg
  | |- emits_if _ _ (bind _ _) => apply emits_bind; [ | intros ? ]
  | |- emits_if _ _ (when _ _) => apply emits_when
  | |- emits_if _ _ (emit _) =>
      apply emits_emit; first [ reflexivity | assumption ]
  | |- emits_if _ _ (os_chdir _ _) => apply emits_os_chdir; reflexivity
  | |- emits_if _ _ (if ?b then _ else _) => destruct b
  | |- emits_if _ _ (match ?x with _ => _ end) => destruct x
  | |- emits_if _ _ (docmd _ _) => unfold docmd
  | |- emits_if _ _ (doscmd _ _) => unfold doscmd
  | |- emits_if _ _ (dochdir _ _) => unfold dochdir
  | |- emits_if _ _ (dochdir_val _ _) => unfold dochdir_val
  | |- emits_if _ _ (as_str _) => unfold as_str
  | |- emits_if _ _ (u_docmd _ _) => unfold u_docmd
  | |- emits_if _ _ (u_doscmd _ _) => unfold u_doscmd
  | |- emits_if _ _ (u_docmdlines _ _) => unfold u_docmdlines
  | |- emits_if _ _ (u_error _) => unfold u_error
  | |- emits_if _ _ (u_verbose _ _) => unfold u_verbose
  | |- emits_if _ _ (u_warning _) => unfold u_warning
  | |- emits_if _ _ (write_file _ _ _ _) => unfold write_file
  | |- emits_if _ _ (flavor_entry _) => unfold flavor_entry
  | |- emits_if _ _ (dict_item _ _) => unfold dict_item
  | |- emits_if _ _ _ => solve [ auto with emits ]
  end.

(** In dry-run mode. *)
Ltac use_dry Hg :=
  rewrite ?Hg, ?andb_false_r; cbn [negb orb]; rewrite ?orb_true_r.

Ltac emits_dry := cbv zeta; repeat emits_step use_dry.

(** ** Dry run *)

Lemma emits_dry_do_configure_binutils env :
  emits_if in_dry_run no_io (do_configure_binutils env).
Proof. unfold do_configure_binutils. emits_dry. Qed.

Lemma emits_dry_emit_rebuild_scripts env flav :
  emits_if in_dry_run no_io (emit_rebuild_scripts env flav).
Proof. unfold emit_rebuild_scripts. emits_dry. Qed.

Lemma emits_dry_bootstrap_tooldir flav :
  emits_if in_dry_run no_io (bootstrap_tooldir flav).
Proof. unfold bootstrap_tooldir. emits_dry. Qed.
#[local] Hint Resolve emits_dry_bootstrap_tooldir : emits.

Lemma emits_dry_select_cmake_type flav :
  emits_if in_dry_run no_io (select_cmake_type flav).
Proof. unfold select_cmake_type. emits_dry. Qed.

Lemma emits_dry_select_dyld_library_path flav :
  emits_if in_dry_run no_io (select_dyld_library_path flav).
Proof. unfold select_dyld_library_path. emits_dry. Qed.

Lemma emits_dry_select_compiler_flavor flav :
  emits_if in_dry_run no_io (select_compiler_flavor flav).
Proof. unfold select_compiler_flavor. emits_dry. Qed.
#[local] Hint Resolve emits_dry_select_cmake_type
  emits_dry_select_dyld_library_path emits_dry_select_compiler_flavor
  emits_dry_do_configure_binutils emits_dry_emit_rebuild_scripts : emits.

Lemma emits_dry_emit_cmake_cmd_script env flav :
  emits_if in_dry_run no_io (emit_cmake_cmd_script env flav).
Proof. unfold emit_cmake_cmd_script. emits_dry. Qed.
#[local] Hint Resolve emits_dry_emit_cmake_cmd_script : emits.

Lemma emits_dry_setup_flavors env flavs :
  forall results, emits_if in_dry_run no_io (setup_flavors env flavs results).
Proof.
  induction flavs as [| flav rest IH]; intros results; cbn [setup_flavors];
    emits_dry.
Qed.

Lemma emits_dry_async_get env idx r timeout :
  emits_if in_dry_run no_io (async_get env idx r timeout).
Proof. unfold async_get. emits_dry. Qed.
#[local] Hint Resolve emits_dry_setup_flavors emits_dry_async_get : emits.

Lemma emits_dry_wait_results env results :
  forall idx rc, emits_if in_dry_run no_io (wait_results env idx results rc).
Proof.
  induction results as [| r rest IH]; intros idx rc; cbn [wait_results];
    emits_dry.
Qed.
#[local] Hint Resolve emits_dry_wait_results : emits.

Lemma emits_dry_do_setup_cmake env :
  emits_if in_dry_run no_io (do_setup_cmake env).
Proof. unfold do_setup_cmake, multiprocessing_Pool. emits_dry. Qed.
#[local] Hint Resolve emits_dry_do_setup_cmake : emits.

Lemma emits_dry_snapshot_tail env g :
  emits_if in_dry_run no_io (snapshot_tail env g).
Proof. unfold snapshot_tail. emits_dry. Qed.

Lemma emits_dry_do_snapshot_build env :
  emits_if in_dry_run no_io (do_snapshot_build env).
Proof. unfold do_snapshot_build. emits_dry. Qed.

Lemma emits_dry_git_svn_setup env subdir svnpath :
  emits_if in_dry_run no_io (git_svn_setup env subdir svnpath).
Proof. unfold git_svn_setup. emits_dry. Qed.
#[local] Hint Resolve emits_dry_git_svn_setup : emits.

Lemma emits_dry_do_subvol_create env :
  emits_if in_dry_run no_io (do_subvol_create env).
Proof. unfold do_subvol_create. emits_dry. Qed.

Lemma no_io_no_chdir tl d : forallb no_io tl = true -> ~ In (Chdir d) tl.
Proof.
  intros H Hin. rewrite forallb_forall in H. apply H in Hin. discriminate Hin.
Qed.

Lemma emits_no_io_spec I {A} (c : M A) st :
  emits_if I no_io c -> I (glob st) ->
  cwd (snd (c st)) = cwd st
  /\ exists tl, trace (snd (c st)) = (trace st ++ tl)%list
                /\ forallb no_io tl = true.
Proof.
  intros H HI. destruct (H st HI) as (_ & tl & Ht & Hp & Hc).
  split.
  - destruct Hc as [E | [d Hd]]; [exact E |].
    destruct (no_io_no_chdir tl d Hp Hd).
  - exists tl. auto.
Qed.

Lemma emits_weaken (I I' : globals -> Prop) P {A} (c : M A) :
  (forall g, I' g -> I g) -> emits_if I P c -> emits_if I' P c.
Proof. intros HI H st Hst. apply H. apply HI. exact Hst. Qed.

Lemma emits_dry_do_snapshot_create env :
  emits_if (fun g => in_dry_run g /\ flag_do_fetch g = false) no_io
           (do_snapshot_create env).
Proof.
  intros st [Hd Hf]. rewrite do_snapshot_create_unfold, Hf. cbn [when].
  rewrite bind_ret. apply emits_dry_snapshot_tail. exact Hd.
Qed.

(** X1.  In dry-run mode without the refresh flag, the work [main]
    dispatches (snapshot creation followed by the snapshot build in
    snapshot mode, volume creation otherwise) runs no command, changes
    no directory, writes no file and dispatches nothing, however it
    ends; the process stays in the directory it was in.  (The worker
    pool is still created.) *)
Theorem dry_run_does_nothing_outside :
  forall (env : world) (st : state),
    flag_dryrun (glob st) = true ->
    flag_do_fetch (glob st) = false ->
    let r := (if truthy (flag_snapshot (glob st)) then
                do_snapshot_create env ;; do_snapshot_build env
              else do_subvol_create env) st in
    cwd (snd r) = cwd st
    /\ exists tl, trace (snd r) = (trace st ++ tl)%list
                  /\ forallb no_io tl = true.
Proof.
  intros env st Hd Hf r. subst r.
  destruct (truthy (flag_snapshot (glob st))).
  - apply (emits_no_io_spec (fun g => in_dry_run g /\ flag_do_fetch g = false));
      [| split; assumption ].
    apply emits_bind; [ apply emits_dry_do_snapshot_create |].
    intros _. apply (emits_weaken in_dry_run); [ tauto |].
    apply emits_dry_do_snapshot_build.
  - apply (emits_no_io_spec in_dry_run); [| exact Hd].
    apply emits_dry_do_subvol_create.
Qed.

(** A dry run of snapshot mode on a table whose entries resolve. *)
Lemma dry_run_does_nothing_outside_witness :
  let st := with_dryrun true par_state in
  let r := (if truthy (flag_snapshot (glob st)) then
              do_snapshot_create calm_world ;; do_snapshot_build calm_world
            else do_subvol_create calm_world) st in
  cwd (snd r) = cwd st
  /\ exists tl, trace (snd r) = (trace st ++ tl)%list
                /\ forallb no_io tl = true.
Proof.
  apply (dry_run_does_nothing_outside calm_world (with_dryrun true par_state));
    reflexivity.
Defined.

(** ** Refreshing one repository *)

Lemma do_fetch_actions env flavor where_ st :
  do_fetch env flavor where_ st
  = run_actions env (fetch_actions flavor where_ (cwd st)) st.
Proof.
  unfold do_fetch.
  change (bind os_getcwd ?k st) with (k (cwd st) st). cbv beta.
  unfold fetch_actions.
  match goal with
  | |- ?c st = run_actions env ?l st =>
      enough (H : is_actions env (glob st) c l) by (apply H; reflexivity)
  end.
  repeat first
    [ apply is_actions_seq
    | apply is_actions_if
    | apply is_actions_docmd
    | apply is_actions_dochdir ].
Qed.

(** X2.  Whenever [do_fetch] returns, it has changed to the repository,
    issued the update commands of the flavor ([git fetch] for [git];
    [git fetch] then [git svn rebase -l] for [git-svn]; [svn update]
    for anything else, also a flavor it does not know) and changed
    back: the history grew by exactly these calls, the globals are
    untouched, and the working directory is the one it was called in
    (an absolute path, as [os.getcwd] gives). *)
Theorem do_fetch_updates_and_comes_back :
  forall (env : world) (flavor where_ : string) (st st' : state),
    is_abs (cwd st) = true ->
    do_fetch env flavor where_ st = (Ret tt, st') ->
    cwd st' = cwd st
    /\ glob st' = glob st
    /\ trace st'
       = (trace st
          ++ actions_events (flag_echo (glob st)) (flag_dryrun (glob st))
               ([AChdir where_]
                ++ (if String.eqb flavor "git" then
                      [ADocmd "git fetch"]
                    else if String.eqb flavor "git-svn" then
                      [ADocmd "git fetch"; ADocmd "git svn rebase -l"]
                    else [ADocmd "svn update"])
                ++ [AChdir (cwd st)]))%list.
Proof.
  intros env flavor where_ st st' Habs H.
  rewrite do_fetch_actions in H. apply run_actions_ret in H. subst st'.
  cbn [cwd glob trace]. split; [| split; reflexivity ].
  destruct (flag_dryrun (glob st)).
  - apply actions_cwd_dry.
  - unfold fetch_actions. rewrite !actions_cwd_app.
    cbn [actions_cwd fold_left action_cwd].
    apply path_join_abs. exact Habs.
Qed.

Lemma do_fetch_updates_witness :
  cwd (snd (do_fetch calm_world "hg" "./.git" quiet_state)) = cwd quiet_state
  /\ glob (snd (do_fetch calm_world "hg" "./.git" quiet_state)) = glob quiet_state
  /\ trace (snd (do_fetch calm_world "hg" "./.git" quiet_state))
     = (trace quiet_state
        ++ actions_events (flag_echo (glob quiet_state))
             (flag_dryrun (glob quiet_state))
             ([AChdir "./.git"]
              ++ (if String.eqb "hg" "git" then
                    [ADocmd "git fetch"]
                  else if String.eqb "hg" "git-svn" then
                    [ADocmd "git fetch"; ADocmd "git svn rebase -l"]
                  else [ADocmd "svn update"])
              ++ [AChdir (cwd quiet_state)]))%list.
Proof.
  apply (do_fetch_updates_and_comes_back calm_world "hg" "./.git" quiet_state
           (snd (do_fetch calm_world "hg" "./.git" quiet_state))).
  - reflexivity.
  - vm_compute. reflexivity.
Defined.

(** ** Refreshing the volume in dry-run mode *)

Lemma emits_dry_do_fetch env flavor where_ :
  emits_if in_dry_run no_io (do_fetch env flavor where_).
Proof. unfold do_fetch. emits_dry. Qed.
#[local] Hint Resolve emits_dry_do_fetch : emits.

Lemma emits_dry_fetch_lines env flavor lines :
  emits_if in_dry_run no_io (fetch_lines env flavor lines).
Proof. induction lines as [| l lines IH]; cbn [fetch_lines]; emits_dry. Qed.
#[local] Hint Resolve emits_dry_fetch_lines : emits.

Lemma do_fetch_dry_returns env flavor where_ st :
  flag_dryrun (glob st) = true -> fst (do_fetch env flavor where_ st) = Ret tt.
Proof.
  intros Hd. rewrite do_fetch_actions, run_actions_dry by exact Hd. reflexivity.
Qed.

Lemma dochdir_dry_returns env d st :
  flag_dryrun (glob st) = true -> fst (dochdir env d st) = Ret tt.
Proof.
  intros Hd. change (dochdir env d) with (run_action env (AChdir d)).
  rewrite run_action_dry by exact Hd. reflexivity.
Qed.

(** A step that returns in dry-run mode hands over to what follows it
    in a state that differs by harmless events only. *)
Lemma dry_prefix {B} (c : M unit) (k : M B) st :
  emits_if in_dry_run no_io c ->
  (forall st0, flag_dryrun (glob st0) = true -> fst (c st0) = Ret tt) ->
  flag_dryrun (glob st) = true ->
  exists st1 pre,
    (c ;; k) st = k st1
    /\ glob st1 = glob st /\ cwd st1 = cwd st
    /\ trace st1 = (trace st ++ pre)%list /\ forallb no_io pre = true.
Proof.
  intros He Hr Hd.
  destruct (He st Hd) as (Hg & _).
  destruct (emits_no_io_spec in_dry_run c st He Hd) as (Hc & pre & Ht & Hp).
  specialize (Hr st Hd).
  destruct (c st) as [o st1] eqn:E. cbn [fst snd] in *. subst o.
  exists st1, pre. repeat split; auto.
  unfold bind. rewrite E. reflexivity.
Qed.

(** X3.  A dry run of the refresh still runs one command for real: the
    [find] that lists the repositories (it goes through [u.docmdlines],
    not through the facade).  Everything before it and after it is log
    output only: in dry-run mode the history of [fetch_in_volume] grows
    by harmless events, then the [find] for the marker directory of the
    flavor, then harmless events again, and the working directory is
    left as it was, however the run ends. *)
Theorem dry_run_refresh_still_runs_find :
  forall (env : world) (st : state),
    flag_dryrun (glob st) = true ->
    let r := fetch_in_volume env st in
    let tofind :=
      if String.eqb (flag_scm_flavor (glob st)) "svn" then ".svn" else ".git" in
    cwd (snd r) = cwd st
    /\ exists pre post,
         trace (snd r)
         = (trace st ++ pre
            ++ Spawn ("find . -depth -name " ++ tofind ++ " -print") :: post)%list
         /\ forallb no_io pre = true
         /\ forallb no_io post = true.
Proof.
  intros env st Hd r tofind. subst r.
  unfold fetch_in_volume. rewrite bind_get_globals. cbv zeta.
  fold tofind.
  set (top := pystr (ssdroot (glob st)) ++ "/" ++ pystr (flag_subvol (glob st))).
  set (find := "find . -depth -name " ++ tofind ++ " -print").
  match goal with
  | |- context [bind (dochdir env top) (fun _ => ?k)] =>
      destruct (dry_prefix (dochdir env top) k st) as
        (st1 & p1 & E1 & Hg1 & Hc1 & Ht1 & Hp1);
      [ unfold dochdir; emits_dry
      | intros; apply dochdir_dry_returns; assumption
      | exact Hd | ]
  end.
  rewrite E1. clear E1.
  assert (Hd1 : flag_dryrun (glob st1) = true) by (rewrite Hg1; exact Hd).
  match goal with
  | |- context [bind (do_fetch env "git" "binutils") (fun _ => ?k)] =>
      destruct (dry_prefix (do_fetch env "git" "binutils") k st1) as
        (st2 & p2 & E2 & Hg2 & Hc2 & Ht2 & Hp2);
      [ apply emits_dry_do_fetch
      | intros; apply do_fetch_dry_returns; assumption
      | exact Hd1 | ]
  end.
  rewrite E2. clear E2.
  assert (Hd2 : flag_dryrun (glob st2) = true) by (rewrite Hg2; exact Hd1).
  match goal with
  | |- context [bind (dochdir env "llvm") (fun _ => ?k)] =>
      destruct (dry_prefix (dochdir env "llvm") k st2) as
        (st3 & p3 & E3 & Hg3 & Hc3 & Ht3 & Hp3);
      [ unfold dochdir; emits_dry
      | intros; apply dochdir_dry_returns; assumption
      | exact Hd2 | ]
  end.
  rewrite E3. clear E3.
  assert (Hd3 : flag_dryrun (glob st3) = true) by (rewrite Hg3; exact Hd2).
  assert (Hc : cwd st3 = cwd st) by congruence.
  assert (Ht : trace st3 = (trace st ++ p1 ++ p2 ++ p3)%list).
  { rewrite Ht3, Ht2, Ht1, <- !app_assoc. reflexivity. }
  assert (Hp : forallb no_io (p1 ++ p2 ++ p3) = true).
  { rewrite !forallb_app, Hp1, Hp2, Hp3. reflexivity. }
  clear Hg1 Hc1 Ht1 Hp1 Hd1 Hg2 Hc2 Ht2 Hp2 Hd2 Hg3 Hc3 Ht3 Hp3 st1 st2.
  unfold u_docmdlines.
  rewrite bind_assoc.
  rewrite bind_ret_step with (a := trace st3) (st1 := st3); [| reflexivity].
  rewrite bind_assoc.
  set (st4 := {| glob := glob st3; cwd := cwd st3;
                 trace := (trace st3 ++ [Spawn find])%list |}).
  rewrite bind_ret_step with (a := tt) (st1 := st4); [| reflexivity].
  destruct (docmdlines_out env (trace st3) find) as [lines |].
  - rewrite bind_ret.
    match goal with
    | |- context [snd (?c st4)] =>
        assert (He : emits_if in_dry_run no_io c) by emits_dry;
        destruct (emits_no_io_spec in_dry_run c st4 He Hd3) as (Hc4 & post & Ht4 & Hp4)
    end.
    split; [ rewrite Hc4; exact Hc |].
    exists (p1 ++ p2 ++ p3)%list, post.
    rewrite Ht4. cbn [st4 trace]. rewrite Ht, <- !app_assoc.
    repeat split; auto.
  - cbn [bind emit sys_exit fst snd cwd trace glob st4].
    split; [ exact Hc |].
    exists (p1 ++ p2 ++ p3)%list, [CmdFailed find].
    rewrite Ht, <- !app_assoc. repeat split; auto.
Qed.

Lemma dry_run_refresh_witness :
  let st := with_dryrun true fetch_state in
  let r := fetch_in_volume repo_world st in
  let tofind :=
    if String.eqb (flag_scm_flavor (glob st)) "svn" then ".svn" else ".git" in
  cwd (snd r) = cwd st
  /\ exists pre post,
       trace (snd r)
       = (trace st ++ pre
          ++ Spawn ("find . -depth -name " ++ tofind ++ " -print") :: post)%list
       /\ forallb no_io pre = true
       /\ forallb no_io post = true.
Proof.
  apply (dry_run_refresh_still_runs_find repo_world (with_dryrun true fetch_state)).
  reflexivity.
Defined.

(** ** Refreshing the volume for real *)

Lemma u_docmdlines_ret env cmd st lines st' :
  u_docmdlines env cmd st = (Ret lines, st') ->
  docmdlines_out env (trace st) cmd = Some lines
  /\ st' = {| glob := glob st; cwd := cwd st;
              trace := (trace st ++ [Spawn cmd])%list |}.
Proof.
  unfold u_docmdlines, bind, get_history, emit, ret, sys_exit. cbn [trace glob cwd].
  destruct (docmdlines_out env (trace st) cmd) as [l |]; intros H.
  - inversion H. subst. split; reflexivity.
  - discriminate H.
Qed.

Lemma actions_events_app echo dry l1 l2 :
  actions_events echo dry (l1 ++ l2)
  = (actions_events echo dry l1 ++ actions_events echo dry l2)%list.
Proof. unfold actions_events. apply flat_map_app. Qed.

Lemma actions_events_one echo dry a :
  actions_events echo dry [a] = action_events echo dry a.
Proof. unfold actions_events. cbn [flat_map]. apply app_nil_r. Qed.

(** The calls of [do_fetch] in the loop of [fetch_in_volume]: one per
    line, each returning to the directory it was entered in. *)
Lemma fetch_lines_ret env flavor lines :
  forall st st',
    fetch_lines env flavor lines st = (Ret tt, st') ->
    glob st' = glob st
    /\ exists backs,
         List.length backs = List.length lines
         /\ trace st'
            = (trace st
               ++ actions_events (flag_echo (glob st)) (flag_dryrun (glob st))
                    (flat_map
                       (fun lb => fetch_actions flavor (strip (fst lb)) (snd lb))
                       (combine lines backs)))%list.
Proof.
  induction lines as [| line rest IH]; intros st st' H; cbn [fetch_lines] in H.
  - inversion H; subst. split; [reflexivity |].
    exists []. split; [reflexivity |]. cbn. symmetry. apply app_nil_r.
  - apply bind_ret_inv in H. destruct H as ([] & st1 & H1 & H).
    rewrite do_fetch_actions in H1. apply run_actions_ret in H1.
    apply IH in H. destruct H as (Hg & backs & Hlen & Ht).
    subst st1. cbn [glob trace] in *.
    split; [exact Hg |].
    exists (cwd st :: backs). split; [cbn; rewrite Hlen; reflexivity |].
    rewrite Ht. cbn [combine flat_map fst snd].
    rewrite actions_events_app, <- app_assoc. reflexivity.
Qed.



(** ** The commands of the snapshot build *)

Lemma spawned_app (a b : history) :
  spawned (a ++ b)%list = (spawned a ++ spawned b)%list.
Proof. unfold spawned. apply flat_map_app. Qed.

Lemma runs_silent g {A} (c : M A) :
  (forall st, exists o tl,
      c st = (o, {| glob := glob st; cwd := cwd (snd (c st));
                    trace := (trace st ++ tl)%list |})
      /\ spawned tl = []) ->
  runs_cmds g c [].
Proof.
  intros H st Hg. destruct (H st) as (o & tl & E & Hs).
  rewrite E. cbn [fst snd glob trace]. split; [exact Hg |].
  exists tl. split; [reflexivity |]. rewrite Hs.
  destruct (flag_dryrun g); [reflexivity |].
  split; [exists []; reflexivity | reflexivity].
Qed.

Lemma runs_ret g {A} (a : A) : runs_cmds g (ret a) [].
Proof.
  apply runs_silent. intros st. exists (Ret a), []. cbn.
  rewrite app_nil_r. destruct st; split; reflexivity.
Qed.

Lemma runs_raise g {A} e : runs_cmds g (raise (A:=A) e) [].
Proof.
  apply runs_silent. intros st. exists (Raise e), []. cbn.
  rewrite app_nil_r. destruct st; split; reflexivity.
Qed.

Lemma runs_emit g e :
  (forall c, e <> Spawn c) -> runs_cmds g (emit e) [].
Proof.
  intros He. apply runs_silent. intros st. exists (Ret tt), [e]. cbn.
  split; [reflexivity |]. destruct e; try reflexivity.
  destruct (He cmd eq_refl).
Qed.

Lemma runs_bind g {A B} (c : M A) (k : A -> M B) l1 l2 :
  runs_cmds g c l1 -> (forall a, runs_cmds g (k a) l2) ->
  runs_cmds g (bind c k) (l1 ++ l2).
Proof.
  intros Hc Hk st Hg. destruct (Hc st Hg) as (Hg1 & tl1 & Ht1 & Hs1).
  unfold bind. destruct (c st) as [[a | n | e] st1]; cbn [fst snd] in *.
  - destruct (Hk a st1 Hg1) as (Hg2 & tl2 & Ht2 & Hs2).
    split; [exact Hg2 |]. exists (tl1 ++ tl2)%list.
    split; [rewrite Ht2, Ht1, app_assoc; reflexivity |].
    rewrite spawned_app. destruct (flag_dryrun g).
    + rewrite Hs1, Hs2. reflexivity.
    + destruct Hs1 as (_ & E1). rewrite (E1 a eq_refl).
      destruct Hs2 as ((rest & Hr) & E2). split.
      * exists rest. rewrite Hr at 1. apply app_assoc.
      * intros b Hb. rewrite (E2 b Hb). reflexivity.
  - split; [exact Hg1 |]. exists tl1. split; [exact Ht1 |].
    destruct (flag_dryrun g); [exact Hs1 |].
    destruct Hs1 as ((rest & Hr) & _). split; [| discriminate ].
    exists (rest ++ l2)%list. rewrite Hr, app_assoc. reflexivity.
  - split; [exact Hg1 |]. exists tl1. split; [exact Ht1 |].
    destruct (flag_dryrun g); [exact Hs1 |].
    destruct Hs1 as ((rest & Hr) & _). split; [| discriminate ].
    exists (rest ++ l2)%list. rewrite Hr, app_assoc. reflexivity.
Qed.

Lemma runs_bind_silent g {A B} (c : M A) (k : A -> M B) l :
  runs_cmds g c [] -> (forall a, runs_cmds g (k a) l) ->
  runs_cmds g (bind c k) l.
Proof. intros Hc Hk. apply (runs_bind g c k [] l Hc Hk). Qed.

Lemma runs_bind_globals g {B} (k : globals -> M B) l :
  runs_cmds g (k g) l -> runs_cmds g (bind get_globals k) l.
Proof. intros H st Hg. rewrite bind_get_globals, Hg. apply H. exact Hg. Qed.

Lemma runs_dochdir g env d : runs_cmds g (dochdir env d) [].
Proof.
  intros st Hg. subst g.
  unfold dochdir, os_chdir, u_error, when, bind, get_globals, get_history,
    os_getcwd, emit, set_cwd, ret, sys_exit. cbn [glob cwd trace].
  destruct (flag_echo (glob st)), (flag_dryrun (glob st)) eqn:Hd;
    cbn [orb fst snd glob cwd trace];
    try destruct (os_chdir_error env _ (cwd st) d);
    cbn [fst snd glob cwd trace]; (split; [reflexivity |]);
    rewrite <- ?app_assoc;
    eexists; (split; [ first [ reflexivity | symmetry; apply app_nil_r ] |]);
    cbn; try reflexivity;
    (split; [exists []; reflexivity | reflexivity]).
Qed.

Lemma runs_dochdir_val g env v : runs_cmds g (dochdir_val env v) [].
Proof.
  unfold dochdir_val. apply runs_bind_silent.
  - destruct v; cbn [as_str]; first [apply runs_ret | apply runs_raise].
  - intros d. apply runs_dochdir.
Qed.

Lemma runs_docmd g env cmd : runs_cmds g (docmd env cmd) [cmd].
Proof.
  intros st Hg. subst g.
  unfold docmd, u_docmd, when, bind, get_globals, get_history, emit, ret,
    sys_exit. cbn [glob cwd trace].
  destruct (flag_echo (glob st)), (flag_dryrun (glob st)) eqn:Hd;
    cbn [fst snd glob cwd trace];
    try destruct (docmd_returns env _ cmd);
    cbn [fst snd glob cwd trace]; (split; [reflexivity |]);
    rewrite <- ?app_assoc;
    eexists; (split; [ first [ reflexivity | symmetry; apply app_nil_r ] |]);
    cbn; try reflexivity;
    (split; [exists []; reflexivity | reflexivity]).
Qed.

Lemma runs_doscmd g env cmd : runs_cmds g (doscmd env cmd) [cmd].
Proof.
  intros st Hg. subst g.
  unfold doscmd, u_doscmd, when, bind, get_globals, get_history, emit, ret,
    sys_exit. cbn [glob cwd trace].
  destruct (flag_echo (glob st)), (flag_dryrun (glob st)) eqn:Hd;
    cbn [fst snd glob cwd trace];
    try destruct (doscmd_returns env _ cmd);
    cbn [fst snd glob cwd trace]; (split; [reflexivity |]);
    rewrite <- ?app_assoc;
    eexists; (split; [ first [ reflexivity | symmetry; apply app_nil_r ] |]);
    cbn; try reflexivity;
    (split; [exists []; reflexivity | reflexivity]).
Qed.

Lemma runs_u_verbose g lvl msg : runs_cmds g (u_verbose lvl msg) [].
Proof. apply runs_emit. discriminate. Qed.

Lemma runs_do_snapshot_build g env :
  runs_cmds g (do_snapshot_build env)
    ((if flag_binutils_build g then ["make -j40"; "make -j40 all-gold"] else [])
     ++ (if flag_run_ninja g then ["ninja"] else [])).
Proof.
  unfold do_snapshot_build. apply runs_bind_globals.
  apply runs_bind_silent; [apply runs_dochdir_val | intros _].
  apply runs_bind_silent; [apply runs_dochdir_val | intros _].
  apply runs_bind; [| intros _].
  - destruct (flag_binutils_build g); [| apply runs_u_verbose ].
    apply runs_bind_silent; [apply runs_dochdir | intros _].
    apply (runs_bind g _ _ ["make -j40"] ["make -j40 all-gold"]);
      [apply runs_doscmd | intros _].
    apply (runs_bind g _ _ ["make -j40 all-gold"] []);
      [apply runs_doscmd | intros _; apply runs_dochdir].
  - destruct (flag_run_ninja g); [| apply runs_u_verbose ].
    apply runs_bind_silent; [apply runs_dochdir | intros _].
    apply (runs_bind g _ _ ["ninja"] []);
      [apply runs_docmd | intros _; apply runs_dochdir].
Qed.

(** X5.  The commands of [do_snapshot_build], however it ends: in
    dry-run mode none; otherwise, in this order, [make -j40] and
    [make -j40 all-gold] unless [-N] cleared [flag_binutils_build], then
    [ninja] unless [-n] cleared [flag_run_ninja] -- a prefix of that
    list when a step ends the run, the whole list when it returns.  So
    with [-N] no [make] is ever run and with [-n] no [ninja], and a
    failed [make] means [ninja] is not run. *)
Theorem do_snapshot_build_commands :
  forall (env : world) (st : state),
    let g := glob st in
    let r := do_snapshot_build env st in
    let want :=
      ((if flag_binutils_build g then ["make -j40"; "make -j40 all-gold"] else [])
       ++ (if flag_run_ninja g then ["ninja"] else []))%list in
    exists tl,
      trace (snd r) = (trace st ++ tl)%list
      /\ (if flag_dryrun g then spawned tl = []
          else (exists rest, want = (spawned tl ++ rest)%list)
               /\ (fst r = Ret tt -> spawned tl = want)).
Proof.
  intros env st g r want.
  destruct (runs_do_snapshot_build g env st eq_refl) as (_ & tl & Ht & Hs).
  exists tl. split; [exact Ht |].
  destruct (flag_dryrun g); [exact Hs |].
  destruct Hs as (Hp & He). split; [exact Hp |].
  intros Hr. apply (He tt Hr).
Qed.

(** ** The compiler settings a flavor is given *)

Lemma bootstrap_tooldir_str st flav fd s :
  table_get (cmake_flavors (glob st)) flav = Some fd ->
  dict_get fd (PStr "ccflav") = Some (PStr s) ->
  bootstrap_tooldir flav st
  = (Ret (match bootstrap_rx_match s with
          | None => PNone
          | Some tb =>
              PStr (pystr (ssdroot (glob st)) ++ "/"
                    ++ pystr (flag_subvol (glob st)) ++ "/" ++ tb)
          end), st).
Proof.
  intros Hfd Hcc. unfold bootstrap_tooldir.
  rewrite bind_get_globals.
  rewrite (bind_ret_step _ _ _ _ _ (flavor_entry_some _ _ _ Hfd)).
  rewrite (bind_ret_step _ _ _ _ _ (dict_item_some _ _ _ _ Hcc)).
  cbn [as_str]. rewrite bind_ret.
  destruct (bootstrap_rx_match s); reflexivity.
Qed.

(** X6.  The compiler-selection modes [select_compiler_flavor] accepts.
    For a flavor of the table whose [ccflav] is the string [s], the
    call returns, leaving the state as it was, exactly when [s] is
    [gcc], [clang] or [def] or matches [^bootstrap\.(\S+)$]; for every
    other string it reports [bad ccflav setting] through [u.error] and
    the process exits with status 1.  The form [bootstrap=<name>],
    which the table of the script uses, is among the rejected ones. *)
Theorem select_compiler_flavor_accepts :
  forall (st : state) (flav : string) (fd : dict) (s : string),
    table_get (cmake_flavors (glob st)) flav = Some fd ->
    dict_get fd (PStr "ccflav") = Some (PStr s) ->
    let r := select_compiler_flavor flav st in
    let rejected :=
      (Exit 1,
       {| glob := glob st; cwd := cwd st;
          trace := (trace st
                    ++ [ErrorMsg ("internal error -- bad ccflav setting " ++ s)])%list |}) in
    (if String.eqb s "gcc" || String.eqb s "clang" || String.eqb s "def"
        || match bootstrap_rx_match s with Some _ => true | None => false end
     then exists out, r = (Ret out, st)
     else r = rejected)
    /\ (forall name, s = "bootstrap=" ++ name -> r = rejected).
Proof.
  intros st flav fd s Hfd Hcc r rejected.
  assert (Hr : r = (if String.eqb s "gcc" || String.eqb s "clang"
                       || String.eqb s "def"
                       || match bootstrap_rx_match s with
                          | Some _ => true | None => false end
                    then fst r else Exit 1,
                    snd (if String.eqb s "gcc" || String.eqb s "clang"
                            || String.eqb s "def"
                            || match bootstrap_rx_match s with
                               | Some _ => true | None => false end
                         then (fst r, st) else rejected))
               /\ (String.eqb s "gcc" || String.eqb s "clang"
                   || String.eqb s "def"
                   || match bootstrap_rx_match s with
                      | Some _ => true | None => false end = true ->
                   exists out, fst r = Ret out)).
  { subst r rejected. unfold select_compiler_flavor.
    rewrite bind_get_globals, Hfd. cbn [negb when]. rewrite bind_ret.
    rewrite (bind_ret_step _ _ _ _ _ (flavor_entry_some _ _ _ Hfd)).
    unfold dict_has. rewrite Hcc. cbn [negb when]. rewrite bind_ret.
    rewrite (bind_ret_step _ _ _ _ _ (dict_item_some _ _ _ _ Hcc)).
    rewrite (bind_ret_step _ _ _ _ _ (bootstrap_tooldir_str _ _ _ _ Hfd Hcc)).
    cbv zeta. cbn [pyval_eqb].
    destruct (String.eqb s "gcc");
      [ cbn [orb fst snd]; split; [destruct st; reflexivity | eexists; reflexivity] |].
    destruct (String.eqb s "clang");
      [ cbn [orb fst snd]; split; [destruct st; reflexivity | eexists; reflexivity] |].
    destruct (String.eqb s "def");
      [ cbn [orb fst snd]; split; [destruct st; reflexivity | eexists; reflexivity] |].
    cbn [orb].
    destruct (bootstrap_rx_match s) as [tb |].
    - assert (Ht : truthy (PStr (pystr (ssdroot (glob st)) ++ "/"
                                 ++ pystr (flag_subvol (glob st)) ++ "/" ++ tb))
                   = true).
      { unfold truthy. destruct (pystr (ssdroot (glob st))); reflexivity. }
      rewrite Ht. cbn [fst snd]. split; [destruct st; reflexivity |].
      eexists; reflexivity.
    - cbn [truthy pystr fst snd]. split; [reflexivity | discriminate]. }
  destruct Hr as (Hr & Hex).
  assert (Hcase : if String.eqb s "gcc" || String.eqb s "clang"
                     || String.eqb s "def"
                     || match bootstrap_rx_match s with
                        | Some _ => true | None => false end
                  then exists out, r = (Ret out, st)
                  else r = rejected).
  { destruct (String.eqb s "gcc" || String.eqb s "clang" || String.eqb s "def"
              || match bootstrap_rx_match s with
                 | Some _ => true | None => false end).
    - destruct (Hex eq_refl) as (out & Hout). exists out.
      rewrite Hr, Hout. reflexivity.
    - exact Hr. }
  split; [exact Hcase |].
  intros name ->.
  change (String.eqb ("bootstrap=" ++ name) "gcc") with false in Hcase.
  change (String.eqb ("bootstrap=" ++ name) "clang") with false in Hcase.
  change (String.eqb ("bootstrap=" ++ name) "def") with false in Hcase.
  change (bootstrap_rx_match ("bootstrap=" ++ name)) with (@None string) in Hcase.
  exact Hcase.
Qed.

(** The entry [bootstrap.reldb] of the table of the script. *)
Lemma select_compiler_flavor_accepts_witness :
  let st := demo_state cmake_flavors_literal in
  let r := select_compiler_flavor "bootstrap.reldb" st in
  let rejected :=
    (Exit 1,
     {| glob := glob st; cwd := cwd st;
        trace := (trace st
                  ++ [ErrorMsg ("internal error -- bad ccflav setting "
                                ++ "bootstrap=build.opt")])%list |}) in
  (if String.eqb "bootstrap=build.opt" "gcc"
      || String.eqb "bootstrap=build.opt" "clang"
      || String.eqb "bootstrap=build.opt" "def"
      || match bootstrap_rx_match "bootstrap=build.opt" with
         | Some _ => true | None => false end
   then exists out, r = (Ret out, st)
   else r = rejected)
  /\ (forall name, "bootstrap=build.opt" = "bootstrap=" ++ name -> r = rejected).
Proof.
  apply (select_compiler_flavor_accepts (demo_state cmake_flavors_literal)
           "bootstrap.reldb"
           [(PStr "cmflav", PStr "RelWithDebInfo");
            (PStr "ccflav", PStr "bootstrap=build.opt");
            (PStr "extra",
             PStr ("-DLLVM_BUILD_EXAMPLES=Off "
                   ++ "-DCOMPILER_RT_BUILD_BUILTINS=Off "))]
           "bootstrap=build.opt").
  - reflexivity.
  - reflexivity.
Defined.

(** ** What [parse_args] establishes *)

Lemma usage_not_ret me {A B} msg (k : A -> M B) st b st' :
  msg <> "" -> bind (@usage me A msg) k st <> (Ret b, st').
Proof.
  intros Hmsg H.
  pose proof (usage_error_bind me (@usage me A msg) k st
                (usage_spec me msg st Hmsg)) as (E & _).
  rewrite H in E. discriminate E.
Qed.

Lemma parse_opt_ret me t opt arg st st1 :
  parse_opt me opt arg st = (Ret tt, st1) ->
  cwd st1 = cwd st /\ trace st1 = trace st
  /\ (options_inv t (glob st) -> options_inv t (glob st1)).
Proof.
  unfold parse_opt.
  repeat match goal with
         | |- context [if String.eqb opt ?s then _ else _] =>
             destruct (String.eqb opt s)
         end;
    try (intros H; inversion H; subst; clear H; cbn [cwd trace glob];
         split; [reflexivity | split; [reflexivity |]];
         unfold options_inv; cbn; intros (I1 & I2 & I3 & I4 & I5);
         repeat split; eauto; fail).
  (* -S *)
  destruct (negb (String.eqb arg "git") && negb (String.eqb arg "svn")
            && negb (String.eqb arg "git-svn")) eqn:E; cbn [when].
  - intros H. exfalso. revert H. apply usage_not_ret. cbn. discriminate.
  - rewrite bind_ret. intros H; inversion H; subst; clear H; cbn [cwd trace glob].
    split; [reflexivity | split; [reflexivity |]].
    unfold options_inv; cbn. intros (I1 & I2 & I3 & I4 & I5).
    repeat split; eauto.
    destruct (String.eqb_spec arg "git") as [-> | _]; [auto |].
    destruct (String.eqb_spec arg "svn") as [-> | _]; [auto |].
    destruct (String.eqb_spec arg "git-svn") as [-> | _]; [auto |].
    discriminate E.
Qed.

Lemma parse_opts_ret me t optlist :
  forall st st1,
    parse_opts me optlist st = (Ret tt, st1) ->
    cwd st1 = cwd st /\ trace st1 = trace st
    /\ (options_inv t (glob st) -> options_inv t (glob st1)).
Proof.
  induction optlist as [| [opt arg] rest IH]; intros st st1 H;
    cbn [parse_opts] in H.
  - inversion H. subst. auto.
  - apply bind_ret_inv in H. destruct H as ([] & st0 & H0 & H).
    apply (parse_opt_ret me t) in H0. apply IH in H.
    destruct H0 as (A1 & A2 & A3), H as (B1 & B2 & B3).
    split; [congruence | split; [congruence | auto]].
Qed.

Lemma validate_tags_cases tag d st :
  if forallb (fun kv => dict_has legal_tags (fst kv)) d
  then validate_tags tag d st = (Ret tt, st)
  else fst (validate_tags tag d st) = Exit 1
       /\ cwd (snd (validate_tags tag d st)) = cwd st
       /\ exists subtag,
            In subtag (map fst d)
            /\ dict_has legal_tags subtag = false
            /\ trace (snd (validate_tags tag d st))
               = (trace st
                  ++ [ErrorMsg ("internal error: cmake_flavors entry " ++ tag
                                ++ " has unknown tag " ++ pystr subtag)])%list.
Proof.
  induction d as [| [subtag v] rest IH]; cbn [validate_tags forallb fst].
  - reflexivity.
  - destruct (dict_has legal_tags subtag) eqn:E; cbn [negb when andb].
    + rewrite bind_ret.
      destruct (forallb _ rest); [exact IH |].
      destruct IH as (I1 & I2 & s & I3 & I4 & I5).
      repeat split; auto. exists s. repeat split; auto. right. exact I3.
    + repeat split. exists subtag. repeat split; auto. left. reflexivity.
Qed.

Lemma validate_flavors_cases t :
  forall st,
    if table_legal t
    then validate_flavors t st = (Ret tt, st)
    else fst (validate_flavors t st) = Exit 1
         /\ cwd (snd (validate_flavors t st)) = cwd st
         /\ exists tag d subtag,
              In (tag, d) t /\ In subtag (map fst d)
              /\ dict_has legal_tags subtag = false
              /\ trace (snd (validate_flavors t st))
                 = (trace st
                    ++ [ErrorMsg ("internal error: cmake_flavors entry " ++ tag
                                  ++ " has unknown tag " ++ pystr subtag)])%list.
Proof.
  induction t as [| [tag d] rest IH]; intros st;
    cbn [validate_flavors table_legal forallb snd].
  - reflexivity.
  - pose proof (validate_tags_cases tag d st) as Hd.
    destruct (forallb _ d); cbn [andb].
    + rewrite (bind_ret_step _ _ _ _ _ Hd).
      specialize (IH st). fold (table_legal rest).
      destruct (table_legal rest); [exact IH |].
      destruct IH as (I1 & I2 & tg & d' & s & I3 & I4 & I5 & I6).
      repeat split; auto. exists tg, d', s. repeat split; auto.
      right. exact I3.
    + destruct Hd as (D1 & D2 & s & D3 & D4 & D5).
      unfold bind.
      destruct (validate_tags tag d st) as [[[] | n | e] st1];
        cbn [fst snd] in *; try discriminate D1.
      inversion D1; subst.
      repeat split; auto. exists tag, d, s. repeat split; auto.
      left. reflexivity.
Qed.

(** X7.  The validation loop of [parse_args] accepts exactly the
    tables all of whose keys are legal tags.  On such a table it
    returns and leaves the state untouched; on any other table the
    process exits with status 1 after one [u.error] line that names an
    entry of the table and a key of that entry that is not a legal tag;
    nothing else is printed or done. *)
Theorem validate_flavors_accepts_legal_tables :
  forall (t : table) (st : state),
    let r := validate_flavors t st in
    (table_legal t = true -> r = (Ret tt, st))
    /\ (table_legal t = false ->
        fst r = Exit 1
        /\ glob (snd r) = glob st
        /\ cwd (snd r) = cwd st
        /\ exists tag d subtag,
             In (tag, d) t /\ In subtag (map fst d)
             /\ dict_has legal_tags subtag = false
             /\ trace (snd r)
                = (trace st
                   ++ [ErrorMsg ("internal error: cmake_flavors entry " ++ tag
                                 ++ " has unknown tag " ++ pystr subtag)])%list).
Proof.
  intros t st r. subst r. pose proof (validate_flavors_cases t st) as H.
  destruct (table_legal t).
  - split; [intros _; exact H | discriminate].
  - split; [discriminate | intros _].
    destruct H as (H1 & H2 & H3).
    repeat split; auto.
    apply (framed_validate_flavors t st).
Qed.

Lemma validate_flavors_ret t st st' :
  validate_flavors t st = (Ret tt, st') -> st' = st /\ table_legal t = true.
Proof.
  intros H. pose proof (validate_flavors_cases t st) as C.
  destruct (table_legal t).
  - rewrite C in H. inversion H. auto.
  - destruct C as (C & _). rewrite H in C. discriminate C.
Qed.

Lemma re_sub_ret env pat repl s st url st' :
  re_sub env pat repl s st = (Ret url, st') ->
  st' = st /\ (has_backslash repl = false -> url = re_sub_literal pat repl s).
Proof.
  unfold re_sub. destruct (has_backslash repl).
  - destruct (re_sub_template env pat repl s); intros H; inversion H; subst.
    split; [reflexivity | discriminate].
  - intros H. inversion H; subst. auto.
Qed.

Lemma has_backslash_false s :
  ~ In "092"%char (list_ascii_of_string s) -> has_backslash s = false.
Proof.
  unfold has_backslash. intros H.
  destruct (existsb (Ascii.eqb "092") (list_ascii_of_string s)) eqn:E;
    [| reflexivity ].
  apply existsb_exists in E. destruct E as (c & Hin & Hc).
  apply Ascii.eqb_eq in Hc. subst c. contradiction.
Qed.

Lemma parse_args_rest_ret env me args st st' :
  parse_args_rest env me args st = (Ret tt, st') ->
  args = []
  /\ truthy (flag_subvol (glob st)) = true
  /\ table_legal (cmake_flavors (glob st)) = true
  /\ cwd st' = cwd st
  /\ exists user others root url,
       docmdlines_out env (trace st) "whoami" = Some (user :: others)
       /\ user <> "root"
       /\ (has_backslash user = false ->
           url = re_sub_literal "REPLACE_WITH_USER" user (llvm_rw_svn (glob st)))
       /\ glob st'
          = set_ssdroot (PStr root)
              (set_llvm_rw_svn url (set_flag_user (PStr user) (glob st)))
       /\ trace st'
          = (trace st
             ++ [Spawn "whoami";
                 Verbose 2 ("llvm_rw_svn is: " ++ url);
                 Call "determine_btrfs_ssdroot" (cwd st)])%list.
Proof.
  unfold parse_args_rest. intros H.
  destruct args as [| a args]; cbn [when] in H;
    [| exfalso; revert H; apply usage_not_ret; discriminate ].
  rewrite bind_ret, bind_get_globals in H.
  destruct (truthy (flag_subvol (glob st))) eqn:Hsub; cbn [negb when] in H;
    [| exfalso; revert H; apply usage_not_ret; discriminate ].
  rewrite andb_false_r in H. cbn [when] in H. rewrite !bind_ret in H.
  apply bind_ret_inv in H. destruct H as (lines & st1 & H1 & H).
  apply u_docmdlines_ret in H1. destruct H1 as (Hl & ->).
  destruct lines as [| user others];
    [ unfold bind, raise in H; discriminate H |].
  rewrite bind_ret in H.
  unfold modify_globals in H. rewrite bind_assoc, bind_get_globals in H.
  cbn [glob] in H.
  match type of H with
  | bind (put_globals ?g) ?k ?s = _ =>
      change (bind (put_globals g) k s)
        with (k tt {| glob := g; cwd := cwd s; trace := trace s |}) in H
  end.
  cbv beta in H. cbn [cwd trace] in H.
  destruct (String.eqb_spec user "root") as [E | Hroot]; cbn [when] in H;
    [ unfold u_error, bind, emit, sys_exit in H; discriminate H |].
  rewrite bind_ret, bind_get_globals in H. cbn [glob] in H.
  apply bind_ret_inv in H. destruct H as (url & stx & Hx & H).
  apply re_sub_ret in Hx. destruct Hx as (-> & Hurl).
  rewrite bind_assoc, bind_get_globals in H. cbn [glob] in H.
  match type of H with
  | bind (put_globals ?g) ?k ?s = _ =>
      change (bind (put_globals g) k s)
        with (k tt {| glob := g; cwd := cwd s; trace := trace s |}) in H
  end.
  cbv beta in H. cbn [cwd trace] in H.
  rewrite bind_get_globals in H. cbn [glob] in H.
  unfold u_verbose in H.
  match type of H with
  | bind (emit ?e) ?k ?s = _ =>
      change (bind (emit e) k s)
        with (k tt {| glob := glob s; cwd := cwd s;
                      trace := (trace s ++ [e])%list |}) in H
  end.
  cbv beta in H. cbn [glob cwd trace] in H.
  apply bind_ret_inv in H. destruct H as ([] & st2 & H2 & H).
  apply validate_flavors_ret in H2. destruct H2 as (-> & Hleg).
  change (cmake_flavors (set_llvm_rw_svn _ (set_flag_user _ (glob st))))
    with (cmake_flavors (glob st)) in Hleg.
  unfold bind, os_getcwd, get_history, emit in H. cbn [glob cwd trace] in H.
  match type of H with
  | context [btrfs_ssdroot env ?h ?c] =>
      destruct (btrfs_ssdroot env h c) as [root |]
  end; [| unfold sys_exit in H; discriminate H ].
  unfold get_globals, put_globals in H. cbn [glob cwd trace] in H.
  inversion H; subst; clear H. cbn [glob cwd trace].
  repeat split; auto.
  exists user, others, root, url. repeat split; auto.
  rewrite <- !app_assoc. reflexivity.
Qed.

(** X8.  What the rest of the script may rely on after [parse_args].
    Started from the globals of the module body (any table [t], any
    directory), whenever [parse_args] returns: the volume name is a
    non-empty string; the user is a string other than [root], the first
    line [whoami] printed; the user's name has replaced the placeholder
    in the read-write repository URL (for a name without a backslash,
    which [re.sub] would interpret); the SSD root is a string; the
    snapshot name is unset or a string; the flavor is one of [git],
    [svn], [git-svn]; the table is the one of the module body and all
    its keys are legal tags; the working directory has not changed; and
    all that has happened is [whoami], one verbose message and the
    query for the SSD root. *)
Theorem parse_args_establishes :
  forall (env : world) (me : string) (argv : list string)
         (t : table) (here : string) (st' : state),
    parse_args env me argv (initial_state t here) = (Ret tt, st') ->
    exists vol user root,
      flag_subvol (glob st') = PStr vol /\ vol <> ""
      /\ flag_user (glob st') = PStr user /\ user <> "root"
      /\ (exists others, docmdlines_out env [] "whoami" = Some (user :: others))
      /\ (~ In "092"%char (list_ascii_of_string user) ->
          llvm_rw_svn (glob st')
          = "https://" ++ user ++ "@llvm.org/svn/llvm-project")
      /\ ssdroot (glob st') = PStr root
      /\ (flag_snapshot (glob st') = PNone
          \/ exists s, flag_snapshot (glob st') = PStr s)
      /\ In (flag_scm_flavor (glob st')) ["git"; "svn"; "git-svn"]
      /\ cmake_flavors (glob st') = t
      /\ table_legal t = true
      /\ cwd st' = here
      /\ trace st'
         = [Spawn "whoami";
            Verbose 2 ("llvm_rw_svn is: " ++ llvm_rw_svn (glob st'));
            Call "determine_btrfs_ssdroot" here].
Proof.
  intros env me argv t here st' H.
  rewrite parse_args_unfold in H.
  destruct (getopt argv _) as [err | [optlist args]] eqn:G.
  { pose proof (usage_spec me (A:=unit) err (initial_state t here)
                  (getopt_error _ _ _ G)) as (E & _).
    rewrite H in E. discriminate E. }
  apply bind_ret_inv in H. destruct H as ([] & st1 & H1 & H).
  apply (parse_opts_ret me t) in H1. destruct H1 as (Hc1 & Ht1 & Hinv).
  assert (I0 : options_inv t (glob (initial_state t here))).
  { unfold options_inv. cbn. repeat split; auto. }
  apply Hinv in I0. destruct I0 as (I1 & I2 & I3 & I4 & I5).
  apply parse_args_rest_ret in H.
  destruct H as (_ & Hsub & Hleg & Hc & user & others & root & url & Hw & Hroot
                 & Hurl & Hg & Ht).
  rewrite Ht1 in Hw, Ht. rewrite Hc1 in Hc, Ht. rewrite I4 in Hurl.
  rewrite I5 in Hleg.
  assert (Hlit : re_sub_literal "REPLACE_WITH_USER" user
                   "https://REPLACE_WITH_USER@llvm.org/svn/llvm-project"
                 = "https://" ++ user ++ "@llvm.org/svn/llvm-project")
    by reflexivity.
  rewrite Hlit in Hurl. clear Hlit.
  cbn [initial_state trace cwd app] in Hw, Ht, Hc.
  destruct I1 as [I1 | [vol I1]];
    [ rewrite I1 in Hsub; discriminate Hsub |].
  exists vol, user, root. rewrite Hg, Ht, Hc.
  cbn [flag_subvol flag_user ssdroot llvm_rw_svn flag_snapshot flag_scm_flavor
       cmake_flavors set_ssdroot set_llvm_rw_svn set_flag_user].
  split; [exact I1 |].
  split; [intros ->; rewrite I1 in Hsub; discriminate Hsub |].
  split; [reflexivity |].
  split; [exact Hroot |].
  split; [exists others; exact Hw |].
  split; [intros Hb; apply Hurl; apply has_backslash_false; exact Hb |].
  split; [reflexivity |].
  split; [exact I2 |].
  split; [exact I3 |].
  split; [exact I5 |].
  split; [exact Hleg |].
  split; reflexivity.
Qed.

(** The command line [-r demo-vol] for user alice. *)
Lemma parse_args_establishes_witness :
  let st' := snd (parse_args calm_world "setup-llvm-repos.py" ["-r"; "demo-vol"]
                    (initial_state cmake_flavors_literal "/home/alice")) in
  exists vol user root,
    flag_subvol (glob st') = PStr vol /\ vol <> ""
    /\ flag_user (glob st') = PStr user /\ user <> "root"
    /\ (exists others,
          docmdlines_out calm_world [] "whoami" = Some (user :: others))
    /\ (~ In "092"%char (list_ascii_of_string user) ->
        llvm_rw_svn (glob st')
        = "https://" ++ user ++ "@llvm.org/svn/llvm-project")
    /\ ssdroot (glob st') = PStr root
    /\ (flag_snapshot (glob st') = PNone
        \/ exists s, flag_snapshot (glob st') = PStr s)
    /\ In (flag_scm_flavor (glob st')) ["git"; "svn"; "git-svn"]
    /\ cmake_flavors (glob st') = cmake_flavors_literal
    /\ table_legal cmake_flavors_literal = true
    /\ cwd st' = "/home/alice"
    /\ trace st'
       = [Spawn "whoami";
          Verbose 2 ("llvm_rw_svn is: " ++ llvm_rw_svn (glob st'));
          Call "determine_btrfs_ssdroot" "/home/alice"].
Proof.
  apply (parse_args_establishes calm_world "setup-llvm-repos.py"
           ["-r"; "demo-vol"] cmake_flavors_literal "/home/alice").
  vm_compute. reflexivity.
Defined.

(** ** Runs that end without an exception *)

Lemma no_raise_ret {A} (a : A) : no_raise (ret a).
Proof. intros st e. discriminate. Qed.

Lemma no_raise_exit {A} n : no_raise (sys_exit (A:=A) n).
Proof. intros st e. discriminate. Qed.

Lemma no_raise_emit e : no_raise (emit e).
Proof. intros st e'. discriminate. Qed.

Lemma no_raise_get_globals : no_raise get_globals.
Proof. intros st e. discriminate. Qed.

Lemma no_raise_get_history : no_raise get_history.
Proof. intros st e. discriminate. Qed.

Lemma no_raise_os_getcwd : no_raise os_getcwd.
Proof. intros st e. discriminate. Qed.

Lemma no_raise_put_globals g : no_raise (put_globals g).
Proof. intros st e. discriminate. Qed.

Lemma no_raise_bind {A B} (c : M A) (k : A -> M B) :
  no_raise c -> (forall a, no_raise (k a)) -> no_raise (bind c k).
Proof.
  intros Hc Hk st e. unfold bind. specialize (Hc st).
  destruct (c st) as [[a | n | e'] st1]; cbn [fst] in *.
  - apply Hk.
  - discriminate.
  - destruct (Hc e' eq_refl).
Qed.

Lemma no_raise_when b c : no_raise c -> no_raise (when b c).
Proof. intros H. destruct b; [exact H | apply no_raise_ret]. Qed.

Lemma no_raise_re_sub env pat repl s :
  has_backslash repl = false -> no_raise (re_sub env pat repl s).
Proof. intros H st e. unfold re_sub. rewrite H. discriminate. Qed.

Create HintDb no_raise.
#[local] Hint Resolve no_raise_ret no_raise_exit no_raise_emit
  no_raise_get_globals no_raise_get_history no_raise_os_getcwd
  no_raise_put_globals : no_raise.

Ltac no_raise_step :=
  lazymatch goal with
  | |- no_raise (bind _ _) => apply no_raise_bind; [ | intros ? ]
  | |- no_raise (when _ _) => apply no_raise_when
  | |- no_raise (if ?b then _ else _) => destruct b
  | |- no_raise (match ?x with _ => _ end) => destruct x
  | |- no_raise (modify_globals _) => unfold modify_globals
  | |- no_raise (usage _ _) => unfold usage
  | |- no_raise (u_error _) => unfold u_error
  | |- no_raise (u_verbose _ _) => unfold u_verbose
  | |- no_raise (u_docmd _ _) => unfold u_docmd
  | |- no_raise (u_doscmd _ _) => unfold u_doscmd
  | |- no_raise (docmd _ _) => unfold docmd
  | |- no_raise (doscmd _ _) => unfold doscmd
  | |- no_raise (dochdir _ _) => unfold dochdir
  | |- no_raise (os_chdir _ _) => unfold os_chdir
  | |- no_raise (set_cwd _) => intros ? ?; discriminate
  | |- no_raise (re_sub _ _ _ _) => apply no_raise_re_sub; assumption
  | |- no_raise _ => solve [ auto with no_raise ]
  end.

Ltac no_raise_auto := cbv zeta; repeat no_raise_step.

Lemma no_raise_parse_opt me opt arg : no_raise (parse_opt me opt arg).
Proof. unfold parse_opt. no_raise_auto. Qed.

Lemma no_raise_parse_opts me optlist : no_raise (parse_opts me optlist).
Proof.
  induction optlist as [| [opt arg] rest IH]; cbn [parse_opts].
  - apply no_raise_ret.
  - apply no_raise_bind; [apply no_raise_parse_opt | intros _; exact IH].
Qed.

Lemma no_raise_validate_tags tag d : no_raise (validate_tags tag d).
Proof. induction d as [| [subtag v] rest IH]; cbn [validate_tags]; no_raise_auto. Qed.
#[local] Hint Resolve no_raise_validate_tags : no_raise.

Lemma no_raise_validate_flavors t : no_raise (validate_flavors t).
Proof. induction t as [| [tag d] rest IH]; cbn [validate_flavors]; no_raise_auto. Qed.
#[local] Hint Resolve no_raise_validate_flavors : no_raise.

Lemma no_raise_parse_args_rest env me args :
  (forall h, docmdlines_out env h "whoami" <> Some []) ->
  (forall h user others,
      docmdlines_out env h "whoami" = Some (user :: others) ->
      ~ In "092"%char (list_ascii_of_string user)) ->
  no_raise (parse_args_rest env me args).
Proof.
  intros Hw Hb. unfold parse_args_rest.
  do 3 (apply no_raise_bind; [solve [no_raise_auto] | intros ?]).
  apply no_raise_bind; [solve [no_raise_auto] | intros _].
  intros st e. unfold u_docmdlines.
  rewrite bind_assoc.
  rewrite bind_ret_step with (a := trace st) (st1 := st); [| reflexivity].
  rewrite bind_assoc.
  match goal with
  | |- context [bind (emit ?ev) ?k st] =>
      change (bind (emit ev) k st)
        with (k tt {| glob := glob st; cwd := cwd st;
                      trace := (trace st ++ [ev])%list |})
  end.
  cbv beta. specialize (Hw (trace st)). specialize (Hb (trace st)).
  destruct (docmdlines_out env (trace st) "whoami") as [[| user others] |].
  - destruct (Hw eq_refl).
  - pose proof (has_backslash_false user (Hb user others eq_refl)) as Hbs.
    rewrite !bind_ret. revert e.
    match goal with
    | |- forall e, fst (?c ?s) <> Raise e =>
        assert (N : no_raise c) by no_raise_auto; apply N
    end.
  - cbn. discriminate.
Qed.

Lemma no_raise_run_action env a : no_raise (run_action env a).
Proof. destruct a; cbn [run_action]; no_raise_auto. Qed.

Lemma no_raise_run_actions env l : no_raise (run_actions env l).
Proof.
  induction l as [| a l IH]; cbn [run_actions].
  - apply no_raise_ret.
  - apply no_raise_bind; [apply no_raise_run_action | intros _; exact IH].
Qed.

Lemma parse_opt_keeps_no_snapshot me opt arg :
  String.eqb opt "-s" = false ->
  keeps (fun g => flag_snapshot g = PNone) (parse_opt me opt arg).
Proof. intros H. unfold parse_opt. rewrite H. keeps_auto. Qed.

Lemma parse_opts_keeps_no_snapshot me optlist :
  existsb (fun oa => String.eqb (fst oa) "-s") optlist = false ->
  keeps (fun g => flag_snapshot g = PNone) (parse_opts me optlist).
Proof.
  induction optlist as [| [opt arg] rest IH]; cbn [parse_opts existsb fst];
    intros H.
  - intros st Hs. exact Hs.
  - apply orb_false_elim in H. destruct H as [H1 H2].
    apply keeps_bind; [apply parse_opt_keeps_no_snapshot; exact H1 |].
    intros _. apply IH. exact H2.
Qed.



(** ** Command lines that are turned down *)

(** An option either is taken in silently or ends in [usage]. *)
Lemma parse_opt_silent_or_usage me opt arg st :
  (exists st1, parse_opt me opt arg st = (Ret tt, st1)
               /\ cwd st1 = cwd st /\ trace st1 = trace st
               /\ (opt = "-S" -> In arg ["git"; "svn"; "git-svn"]))
  \/ usage_error me st (parse_opt me opt arg st).
Proof.
  unfold parse_opt.
  destruct (String.eqb_spec opt "-S") as [-> | HS].
  - cbn [String.eqb Ascii.eqb Bool.eqb].
    destruct (negb (String.eqb arg "git") && negb (String.eqb arg "svn")
              && negb (String.eqb arg "git-svn")) eqn:E; cbn [when].
    + right. apply usage_error_bind. apply usage_spec. cbn. discriminate.
    + left. eexists. split; [reflexivity |]. cbn [cwd trace].
      split; [reflexivity | split; [reflexivity |]]. intros _.
      destruct (String.eqb_spec arg "git") as [-> | _]; [cbn; auto |].
      destruct (String.eqb_spec arg "svn") as [-> | _]; [cbn; auto |].
      destruct (String.eqb_spec arg "git-svn") as [-> | _]; [cbn; auto |].
      discriminate E.
  - left.
    repeat match goal with
           | |- context [if String.eqb opt ?s then _ else _] =>
               destruct (String.eqb_spec opt s); [ try contradiction |]
           end;
      (eexists; split; [reflexivity |]; cbn [cwd trace];
       split; [reflexivity | split; [reflexivity | intros; contradiction]]).
Qed.

Lemma parse_opts_silent_or_usage me optlist :
  forall st,
    (exists st1, parse_opts me optlist st = (Ret tt, st1)
                 /\ cwd st1 = cwd st /\ trace st1 = trace st
                 /\ (forall arg, In ("-S", arg) optlist ->
                                 In arg ["git"; "svn"; "git-svn"]))
    \/ usage_error me st (parse_opts me optlist st).
Proof.
  induction optlist as [| [opt arg] rest IH]; intros st; cbn [parse_opts].
  - left. exists st. repeat split. intros arg [].
  - destruct (parse_opt_silent_or_usage me opt arg st)
      as [(st1 & H1 & Hc1 & Ht1 & HS1) | Hu].
    + rewrite (bind_ret_step _ _ _ _ _ H1).
      destruct (IH st1) as [(st2 & H2 & Hc2 & Ht2 & HS2) | Hu].
      * left. exists st2. rewrite H2.
        split; [reflexivity |]. split; [congruence |]. split; [congruence |].
        intros a [E | Hin]; [inversion E; subst; auto | auto].
      * right. eapply usage_error_from; eassumption.
    + right. apply usage_error_bind. exact Hu.
Qed.

Lemma u_docmdlines_trace env cmd st :
  exists tl,
    trace (snd (u_docmdlines env cmd st)) = (trace st ++ Spawn cmd :: tl)%list.
Proof.
  unfold u_docmdlines, bind, get_history, emit, ret, sys_exit.
  cbn [trace glob cwd].
  destruct (docmdlines_out env (trace st) cmd); cbn [fst snd trace].
  - exists []. reflexivity.
  - exists [CmdFailed cmd]. rewrite <- app_assoc. reflexivity.
Qed.

(** X10.  Mistakes on the command line are reported before anything is
    run.  A call of [parse_args] either ends as a usage error (the
    error line and the usage text are printed, nothing else happens,
    exit status 1) or the first thing it does is run [whoami].  It ends
    as a usage error whenever [getopt] rejects the command line, an
    argument is left over after the options, or some [-S] names a
    flavor other than [git], [svn] and [git-svn]. *)
Theorem command_line_mistakes_are_usage_errors :
  forall (env : world) (me : string) (argv : list string) (st : state),
    let r := parse_args env me argv st in
    (usage_error me st r
     \/ exists tl, trace (snd r) = (trace st ++ Spawn "whoami" :: tl)%list)
    /\ match getopt argv "DGJS:FTXqdnNs:r:" with
       | inl _ => usage_error me st r
       | inr (optlist, args) =>
           args <> []
           \/ (exists arg, In ("-S", arg) optlist
                           /\ ~ In arg ["git"; "svn"; "git-svn"]) ->
           usage_error me st r
       end.
Proof.
  intros env me argv st r. subst r. rewrite parse_args_unfold.
  destruct (getopt argv _) as [err | [optlist args]] eqn:G.
  { assert (U : usage_error me st (@usage me unit err st))
      by (apply usage_spec; eapply getopt_error; eassumption).
    split; [left |]; exact U. }
  destruct (parse_opts_silent_or_usage me optlist st)
    as [(st1 & H1 & Hc1 & Ht1 & HS1) | Hu].
  2:{ assert (U : usage_error me st
                    (bind (parse_opts me optlist)
                          (fun _ => parse_args_rest env me args) st))
        by (apply usage_error_bind; exact Hu).
      split; [left; exact U | intros _; exact U]. }
  rewrite (bind_ret_step _ _ _ _ _ H1).
  unfold parse_args_rest.
  destruct args as [| a args]; cbn [when].
  2:{ match goal with
      | |- context [bind (usage me "unknown extra args") ?k st1] =>
          assert (U : usage_error me st
                        (bind (usage me "unknown extra args") k st1))
      end.
      { eapply usage_error_from; [exact Hc1 | exact Ht1 |].
        apply usage_error_bind. apply usage_spec. discriminate. }
      split; [left; exact U | intros _; exact U]. }
  rewrite bind_ret, bind_get_globals.
  split.
  - destruct (truthy (flag_subvol (glob st1))); cbn [negb when].
    + right. rewrite andb_false_r. cbn [when]. rewrite !bind_ret.
      match goal with
      | |- context [bind (u_docmdlines env "whoami") ?k st1] =>
          assert (T : forall l, tame (k l)) by (intros l; tame_auto);
          pose proof (bind_extends (u_docmdlines env "whoami") k st1
                        (fun l s => proj1 (T l s))) as [tl2 E2]
      end.
      destruct (u_docmdlines_trace env "whoami" st1) as [tl1 E1].
      exists (tl1 ++ tl2)%list.
      rewrite E2, E1, Ht1, <- app_assoc. reflexivity.
    + left. eapply usage_error_from; [exact Hc1 | exact Ht1 |].
      apply usage_error_bind. apply usage_spec. discriminate.
  - intros [Hne | (arg & Hin & Hbad)]; [destruct (Hne eq_refl) |].
    destruct (Hbad (HS1 arg Hin)).
Qed.

(** ** The cmake helper of the worker pool *)

(** X11.  [run_cmake] always returns a status, 0 or 1: it never ends
    its process and lets no exception out.  It returns 0 exactly when
    the change to the build directory and the cmake command both
    succeeded.  When the change of directory fails, the cmake command
    is not run; each failure is reported by exactly one warning. *)
Theorem run_cmake_returns_status :
  forall (env : world) (builddir cmake_cmd : string) (st : state),
    let r := run_cmake env builddir cmake_cmd st in
    glob (snd r) = glob st
    /\ exists v tl,
         fst r = Ret v
         /\ trace (snd r) = (trace st ++ Chdir builddir :: tl)%list
         /\ ((v = 0%Z /\ tl = [Spawn cmake_cmd]
              /\ cwd (snd r) = path_join (cwd st) builddir)
             \/ (v = 1%Z
                 /\ (exists err, tl = [Warning ("chdir failed: " ++ err)])
                 /\ cwd (snd r) = cwd st)
             \/ (v = 1%Z
                 /\ tl = [Spawn cmake_cmd;
                          Warning ("cmd command returned bad status: "
                                   ++ cmake_cmd)])).
Proof.
  intros env builddir cmake_cmd st r. subst r.
  unfold run_cmake, os_chdir, u_doscmd_nf, u_warning, bind, get_history,
    os_getcwd, emit, set_cwd, ret.
  cbn [trace cwd glob].
  destruct (os_chdir_error env (trace st) (cwd st) builddir) as [err |];
    cbn [fst snd glob cwd trace].
  - split; [reflexivity |].
    exists 1%Z, [Warning ("chdir failed: " ++ err)].
    split; [reflexivity |]. split; [rewrite <- app_assoc; reflexivity |].
    right. left. split; [reflexivity |]. split; [| reflexivity].
    exists err. reflexivity.
  - destruct (doscmd_nf_ok env _ cmake_cmd); cbn [negb fst snd glob cwd trace].
    + split; [reflexivity |].
      exists 0%Z, [Spawn cmake_cmd].
      split; [reflexivity |]. split; [rewrite <- app_assoc; reflexivity |].
      left. repeat split.
    + split; [reflexivity |].
      exists 1%Z, [Spawn cmake_cmd;
                   Warning ("cmd command returned bad status: " ++ cmake_cmd)].
      split; [reflexivity |]. split; [rewrite <- !app_assoc; reflexivity |].
      right. right. split; reflexivity.
Qed.

(** ** Running as root *)

Lemma spawned_usage_error me st {A} (r : outcome A * state) :
  usage_error me st r ->
  fst r = Exit 1 /\ cwd (snd r) = cwd st
  /\ exists tl, trace (snd r) = (trace st ++ tl)%list /\ spawned tl = [].
Proof.
  intros (U1 & U2 & msg & _ & U4). repeat split; auto.
  eexists. split; [exact U4 | reflexivity].
Qed.

(** X12.  Root is turned away before anything is touched.  In a world
    where [whoami] answers [root], every run of [main], whatever the
    command line, ends with exit status 1, in the directory it started
    in, and [whoami] is the only command it can have run. *)
Theorem root_is_turned_away :
  forall (env : world) (me : string) (argv : list string) (st : state),
    (forall h, exists others,
        docmdlines_out env h "whoami" = Some ("root" :: others)) ->
    let r := main env me argv st in
    fst r = Exit 1
    /\ cwd (snd r) = cwd st
    /\ exists tl,
         trace (snd r) = (trace st ++ tl)%list
         /\ (spawned tl = [] \/ spawned tl = ["whoami"]).
Proof.
  intros env me argv st Hw r. subst r.
  enough (P : fst (parse_args env me argv st) = Exit 1
              /\ cwd (snd (parse_args env me argv st)) = cwd st
              /\ exists tl,
                   trace (snd (parse_args env me argv st)) = (trace st ++ tl)%list
                   /\ (spawned tl = [] \/ spawned tl = ["whoami"])).
  { destruct (parse_args env me argv st) as [o st1] eqn:Hp.
    cbn [fst snd] in P. destruct P as (P1 & P2 & P3). subst o.
    assert (E : main env me argv st = (Exit 1, st1))
      by (unfold main, bind; rewrite Hp; reflexivity).
    rewrite E. cbn [fst snd].
    split; [reflexivity | split; [exact P2 | exact P3]]. }
  rewrite parse_args_unfold.
  destruct (getopt argv _) as [err | [optlist args]] eqn:G.
  { destruct (spawned_usage_error me st _
                (usage_spec me (A:=unit) err st (getopt_error _ _ _ G)))
      as (U1 & U2 & tl & U3 & U4).
    repeat split; auto. exists tl. auto. }
  destruct (parse_opts_silent_or_usage me optlist st)
    as [(st1 & H1 & Hc1 & Ht1 & _) | Hu].
  2:{ destruct (spawned_usage_error me st _
                  (usage_error_bind me _ (fun _ => parse_args_rest env me args)
                     st Hu))
        as (U1 & U2 & tl & U3 & U4).
      repeat split; auto. exists tl. auto. }
  rewrite (bind_ret_step _ _ _ _ _ H1).
  unfold parse_args_rest.
  destruct args as [| a args]; cbn [when].
  2:{ match goal with
      | |- context [bind (usage me "unknown extra args") ?k st1] =>
          assert (U : usage_error me st
                        (bind (usage me "unknown extra args") k st1))
      end.
      { eapply usage_error_from; [exact Hc1 | exact Ht1 |].
        apply usage_error_bind. apply usage_spec. discriminate. }
      destruct (spawned_usage_error me st _ U) as (U1 & U2 & tl & U3 & U4).
      repeat split; auto. exists tl. auto. }
  rewrite bind_ret, bind_get_globals.
  destruct (truthy (flag_subvol (glob st1))); cbn [negb when].
  2:{ match goal with
      | |- context [bind (usage me ?m) ?k st1] =>
          assert (U : usage_error me st (bind (usage me m) k st1))
      end.
      { eapply usage_error_from; [exact Hc1 | exact Ht1 |].
        apply usage_error_bind. apply usage_spec. discriminate. }
      destruct (spawned_usage_error me st _ U) as (U1 & U2 & tl & U3 & U4).
      repeat split; auto. exists tl. auto. }
  rewrite andb_false_r. cbn [when]. rewrite !bind_ret.
  destruct (Hw (trace st1)) as [others Hl].
  unfold u_docmdlines.
  rewrite bind_assoc.
  rewrite bind_ret_step with (a := trace st1) (st1 := st1); [| reflexivity].
  rewrite bind_assoc.
  match goal with
  | |- context [bind (emit ?ev) ?k st1] =>
      change (bind (emit ev) k st1)
        with (k tt {| glob := glob st1; cwd := cwd st1;
                      trace := (trace st1 ++ [ev])%list |})
  end.
  cbv beta. rewrite Hl. rewrite !bind_ret.
  unfold modify_globals, u_error, bind, get_globals, put_globals, emit,
    sys_exit, when.
  cbn [String.eqb Ascii.eqb Bool.eqb fst snd glob cwd trace].
  split; [reflexivity |]. split; [exact Hc1 |].
  exists [Spawn "whoami"; ErrorMsg "please don't run this script as root"].
  split; [rewrite Ht1, <- app_assoc; reflexivity |].
  right. reflexivity.
Qed.

(** A world in which [whoami] answers [root]. *)
Lemma root_is_turned_away_witness :
  let env := {| os_chdir_error := fun _ _ _ => None;
                docmd_returns := fun _ _ => true;
                doscmd_returns := fun _ _ => true;
                doscmd_nf_ok := fun _ _ => true;
                docmdlines_out := fun _ _ => Some ["root"];
                btrfs_ssdroot := fun _ _ => Some "/ssd";
                write_ok := fun _ _ => true;
                in_time := fun _ _ _ => true;
                re_sub_template := fun _ _ _ => None |} in
  let st := initial_state cmake_flavors_literal "/home/alice" in
  let r := main env "setup-llvm-repos.py" ["-r"; "demo-vol"] st in
  fst r = Exit 1
  /\ cwd (snd r) = cwd st
  /\ exists tl,
       trace (snd r) = (trace st ++ tl)%list
       /\ (spawned tl = [] \/ spawned tl = ["whoami"]).
Proof.
  intros env st.
  apply (root_is_turned_away env "setup-llvm-repos.py" ["-r"; "demo-vol"] st).
  intros h. exists []. reflexivity.
Defined.

(** ** What the options mean *)

Lemma options_effect_nil g : options_effect [] g g.
Proof.
  unfold options_effect, has_opt, count_opt, last_arg. cbn.
  rewrite !orb_false_r, !andb_true_r, Nat.add_0_r. repeat split.
Qed.

Lemma options_effect_one me opt arg st st1 :
  parse_opt me opt arg st = (Ret tt, st1) ->
  options_effect [(opt, arg)] (glob st) (glob st1).
Proof.
  unfold parse_opt, options_effect, has_opt, count_opt, last_arg.
  cbn [existsb filter fold_left fst snd].
  repeat match goal with
         | |- context [if String.eqb opt ?s then _ else _] =>
             destruct (String.eqb_spec opt s) as [-> | ?]
         end;
    try (intros H; inversion H; subst; clear H;
         cbn; rewrite ?orb_false_r, ?andb_true_r, ?andb_false_r, ?orb_true_r,
           ?Nat.add_0_r, ?Nat.add_1_r;
         repeat split; fail).
  (* -S *)
  destruct (negb (String.eqb arg "git") && negb (String.eqb arg "svn")
            && negb (String.eqb arg "git-svn")); cbn [when].
  - intros H. exfalso. revert H. apply usage_not_ret. cbn. discriminate.
  - rewrite bind_ret. intros H; inversion H; subst; clear H.
    cbn; rewrite ?orb_false_r, ?andb_true_r, ?Nat.add_0_r.
    repeat split.
Qed.

Lemma options_effect_cons oa rest g g' g1 :
  options_effect [oa] g g' -> options_effect rest g' g1 ->
  options_effect (oa :: rest) g g1.
Proof.
  unfold options_effect, has_opt, count_opt, last_arg.
  cbn [existsb filter fold_left].
  intros (A1 & A2 & A3 & A4 & A5 & A6 & A7 & A8 & A9 & A10 & A11 & A12 & A13
          & A14 & A15 & A16 & A17)
         (B1 & B2 & B3 & B4 & B5 & B6 & B7 & B8 & B9 & B10 & B11 & B12 & B13
          & B14 & B15 & B16 & B17).
  rewrite B1, B2, B3, B4, B5, B6, B7, B8, B9, B10, B11, B12, B13, B14, B15,
    B16, B17.
  rewrite A1, A2, A3, A4, A5, A6, A7, A8, A9, A10, A11, A12, A13, A14, A15,
    A16, A17.
  clear.
  repeat split;
    repeat match goal with
           | |- context [String.eqb (fst oa) ?s] =>
               destruct (String.eqb (fst oa) s)
           end;
    repeat match goal with
           | |- context [existsb ?f rest] => destruct (existsb f rest)
           end;
    cbn [orb andb negb List.length];
    rewrite ?orb_false_r, ?orb_true_r, ?andb_true_r, ?andb_false_r;
    try reflexivity; lia.
Qed.

Lemma options_effect_parse_opts me optlist :
  forall st st1,
    parse_opts me optlist st = (Ret tt, st1) ->
    options_effect optlist (glob st) (glob st1).
Proof.
  induction optlist as [| [opt arg] rest IH]; intros st st1 H;
    cbn [parse_opts] in H.
  - inversion H. subst. apply options_effect_nil.
  - apply bind_ret_inv in H. destruct H as ([] & st0 & H0 & H).
    eapply options_effect_cons.
    + eapply options_effect_one. exact H0.
    + apply IH. exact H.
Qed.

(** X13.  What the options mean.  Whenever the option loop of
    [parse_args] returns, the globals are those it started with,
    changed as follows: [-D] sets dry-run, [-q] clears echoing, [-n]
    and [-N] clear the ninja and the binutils build, [-T] clears the
    clang tools, [-G] and [-F] set llgo and the refresh, each however
    often and wherever it occurs; [-J] can only set [flag_parallel],
    never clear it; [-X] makes the build type [RelWithDebInfo]; every
    [-d] raises the verbosity by one; for [-r], [-s] and [-S] the last
    occurrence wins; the user, the SSD root, the repository URL and the
    table are not touched.  The loop prints nothing and does not move. *)
Theorem option_loop_meaning :
  forall (me : string) (optlist : list (string * string)) (st st1 : state),
    parse_opts me optlist st = (Ret tt, st1) ->
    let g := glob st in
    let g1 := glob st1 in
    flag_dryrun g1 = flag_dryrun g || has_opt "-D" optlist
    /\ flag_echo g1 = flag_echo g && negb (has_opt "-q" optlist)
    /\ flag_run_ninja g1 = flag_run_ninja g && negb (has_opt "-n" optlist)
    /\ flag_binutils_build g1
       = flag_binutils_build g && negb (has_opt "-N" optlist)
    /\ flag_include_tools g1
       = flag_include_tools g && negb (has_opt "-T" optlist)
    /\ flag_include_llgo g1 = flag_include_llgo g || has_opt "-G" optlist
    /\ flag_do_fetch g1 = flag_do_fetch g || has_opt "-F" optlist
    /\ flag_parallel g1 = flag_parallel g || has_opt "-J" optlist
    /\ flag_cmake_type g1
       = (if has_opt "-X" optlist then "RelWithDebInfo" else flag_cmake_type g)
    /\ verbosity g1 = verbosity g + count_opt "-d" optlist
    /\ flag_subvol g1 = last_arg PStr "-r" optlist (flag_subvol g)
    /\ flag_snapshot g1 = last_arg PStr "-s" optlist (flag_snapshot g)
    /\ flag_scm_flavor g1
       = last_arg (fun s => s) "-S" optlist (flag_scm_flavor g)
    /\ flag_user g1 = flag_user g
    /\ ssdroot g1 = ssdroot g
    /\ llvm_rw_svn g1 = llvm_rw_svn g
    /\ cmake_flavors g1 = cmake_flavors g
    /\ cwd st1 = cwd st
    /\ trace st1 = trace st.
Proof.
  intros me optlist st st1 H g g1. subst g g1.
  pose proof (options_effect_parse_opts me optlist st st1 H) as E.
  destruct (parse_opts_ret me (cmake_flavors (glob st)) optlist st st1 H)
    as (Hc & Ht & _).
  unfold options_effect in E.
  destruct E as (A1 & A2 & A3 & A4 & A5 & A6 & A7 & A8 & A9 & A10 & A11 & A12
                 & A13 & A14 & A15 & A16 & A17).
  repeat (split; [assumption |]). assumption.
Qed.

(** The options [-D -S git -r a -d -r demo-vol -d]. *)
Lemma option_loop_meaning_witness :
  let optlist := [("-D", ""); ("-S", "git"); ("-r", "a"); ("-d", "");
                  ("-r", "demo-vol"); ("-d", "")] in
  let st := initial_state cmake_flavors_literal "/home/alice" in
  let st1 := snd (parse_opts "setup-llvm-repos.py" optlist st) in
  let g := glob st in
  let g1 := glob st1 in
  flag_dryrun g1 = flag_dryrun g || has_opt "-D" optlist
  /\ flag_echo g1 = flag_echo g && negb (has_opt "-q" optlist)
  /\ flag_run_ninja g1 = flag_run_ninja g && negb (has_opt "-n" optlist)
  /\ flag_binutils_build g1
     = flag_binutils_build g && negb (has_opt "-N" optlist)
  /\ flag_include_tools g1
     = flag_include_tools g && negb (has_opt "-T" optlist)
  /\ flag_include_llgo g1 = flag_include_llgo g || has_opt "-G" optlist
  /\ flag_do_fetch g1 = flag_do_fetch g || has_opt "-F" optlist
  /\ flag_parallel g1 = flag_parallel g || has_opt "-J" optlist
  /\ flag_cmake_type g1
     = (if has_opt "-X" optlist then "RelWithDebInfo" else flag_cmake_type g)
  /\ verbosity g1 = verbosity g + count_opt "-d" optlist
  /\ flag_subvol g1 = last_arg PStr "-r" optlist (flag_subvol g)
  /\ flag_snapshot g1 = last_arg PStr "-s" optlist (flag_snapshot g)
  /\ flag_scm_flavor g1
     = last_arg (fun s => s) "-S" optlist (flag_scm_flavor g)
  /\ flag_user g1 = flag_user g
  /\ ssdroot g1 = ssdroot g
  /\ llvm_rw_svn g1 = llvm_rw_svn g
  /\ cmake_flavors g1 = cmake_flavors g
  /\ cwd st1 = cwd st
  /\ trace st1 = trace st.
Proof.
  intros optlist st st1.
  apply (option_loop_meaning "setup-llvm-repos.py" optlist st st1).
  vm_compute. reflexivity.
Defined.

(** ** The build type of a flavor *)

(** X14.  [-X] changes the build type of exactly the flavors that have
    none of their own.  After the option loop, started from the globals
    of the module body, [select_cmake_type] gives a flavor of the table
    its own [cmflav] when that is set (not [None], not empty), whatever
    the options; otherwise [RelWithDebInfo] if [-X] was given and
    [Debug] if not.  A flavor without the key [cmflav] ends the run
    with status 1.  The state is left as it was. *)
Theorem build_type_of_flavor :
  forall (me : string) (optlist : list (string * string)) (t : table)
         (here : string) (st1 : state) (flav : string) (fd : dict),
    parse_opts me optlist (initial_state t here) = (Ret tt, st1) ->
    table_get t flav = Some fd ->
    match dict_get fd (PStr "cmflav") with
    | Some v =>
        select_cmake_type flav st1
        = (Ret (if truthy v then v
                else PStr (if has_opt "-X" optlist then "RelWithDebInfo"
                           else "Debug")),
           st1)
    | None => fst (select_cmake_type flav st1) = Exit 1
    end.
Proof.
  intros me optlist t here st1 flav fd H Hfd.
  pose proof (options_effect_parse_opts me optlist _ _ H) as E.
  unfold options_effect in E.
  destruct E as (_ & _ & _ & _ & _ & _ & _ & _ & E9 & _ & _ & _ & _ & _ & _
                 & _ & E17).
  cbn [initial_state glob initial_globals flag_cmake_type cmake_flavors] in E9, E17.
  rewrite <- E17 in Hfd.
  unfold select_cmake_type. rewrite bind_get_globals.
  rewrite (bind_ret_step _ _ _ _ _ (flavor_entry_some _ _ _ Hfd)).
  unfold dict_has.
  destruct (dict_get fd (PStr "cmflav")) as [v |] eqn:Hv; cbn [negb when].
  - rewrite bind_ret.
    rewrite (bind_ret_step _ _ _ _ _ (dict_item_some _ _ _ _ Hv)).
    rewrite E9. destruct (truthy v); reflexivity.
  - reflexivity.
Qed.

(** The flavors [opt] (no build type of its own) of the table of the
    script under [-X]. *)
Lemma build_type_of_flavor_witness :
  let optlist := [("-X", ""); ("-r", "demo-vol")] in
  let st1 := snd (parse_opts "setup-llvm-repos.py" optlist
                    (initial_state cmake_flavors_literal "/home/alice")) in
  match dict_get [(PStr "cmflav", PNone); (PStr "early", PInt 1);
                  (PStr "ccflav", PStr "clang"); (PStr "extra", PNone)]
                 (PStr "cmflav") with
  | Some v =>
      select_cmake_type "opt" st1
      = (Ret (if truthy v then v
              else PStr (if has_opt "-X" optlist then "RelWithDebInfo"
                         else "Debug")),
         st1)
  | None => fst (select_cmake_type "opt" st1) = Exit 1
  end.
Proof.
  intros optlist st1.
  apply (build_type_of_flavor "setup-llvm-repos.py" optlist
           cmake_flavors_literal "/home/alice" st1 "opt"
           [(PStr "cmflav", PNone); (PStr "early", PInt 1);
            (PStr "ccflav", PStr "clang"); (PStr "extra", PNone)]).
  - vm_compute. reflexivity.
  - reflexivity.
Defined.

(** * C6: the runs the pool is given *)

Lemma emits_bind_abort I P {A B} (c : M A) (k : A -> M B) :
  emits_if I P c ->
  (forall st a, I (glob st) -> fst (c st) <> Ret a) ->
  emits_if I P (bind c k).
Proof.
  intros Hc Hn st HI. specialize (Hn st). unfold bind.
  destruct (Hc st HI) as (Hg & tl & Ht & Hp & Hcwd).
  destruct (c st) as [[a | n | e] st1]; cbn [fst snd] in *.
  - destruct (Hn a HI eq_refl).
  - split; [exact Hg | exists tl; auto].
  - split; [exact Hg | exists tl; auto].
Qed.

Lemma table_legal_valid t : table_legal t = true -> table_valid t.
Proof.
  unfold table_legal, table_valid. intros H flav fd Hget.
  assert (Hfd : forallb (fun kv => dict_has legal_tags (fst kv)) fd = true).
  { induction t as [| [tag d] rest IH]; cbn [table_get forallb snd] in *.
    - discriminate Hget.
    - apply andb_true_iff in H. destruct H as [Hd Hrest].
      destruct (String.eqb flav tag).
      + inversion Hget; subst. exact Hd.
      + apply IH; assumption. }
  clear H Hget. induction fd as [| [k v] rest IH]; cbn [dict_get forallb fst] in *.
  - reflexivity.
  - apply andb_true_iff in Hfd. destruct Hfd as [Hk Hrest].
    destruct k as [| s | z]; cbn [pyval_eqb]; try (apply IH; exact Hrest).
    destruct (Z.eqb_spec 2 z) as [<- | _]; [discriminate Hk | apply IH; exact Hrest].
Qed.

Ltac emits_nc := cbv zeta; repeat emits_step ltac:(fun H => idtac).

Section NoCmakeRun.

Variable env : world.

Let valid (g : globals) : Prop := table_valid (cmake_flavors g).

Lemma emits_nc_bootstrap_tooldir flav :
  emits_if valid no_cmake_run (bootstrap_tooldir flav).
Proof. unfold bootstrap_tooldir. emits_nc. Qed.
#[local] Hint Resolve emits_nc_bootstrap_tooldir : emits.

Lemma emits_nc_select_dyld_library_path flav :
  emits_if valid no_cmake_run (select_dyld_library_path flav).
Proof. unfold select_dyld_library_path. emits_nc. Qed.

Lemma emits_nc_select_compiler_flavor flav :
  emits_if valid no_cmake_run (select_compiler_flavor flav).
Proof. unfold select_compiler_flavor. emits_nc. Qed.

Lemma emits_nc_select_cmake_type flav :
  emits_if valid no_cmake_run (select_cmake_type flav).
Proof. unfold select_cmake_type. emits_nc. Qed.
#[local] Hint Resolve emits_nc_select_dyld_library_path
  emits_nc_select_compiler_flavor emits_nc_select_cmake_type : emits.

Lemma emits_nc_emit_cmake_cmd_script flav :
  emits_if valid no_cmake_run (emit_cmake_cmd_script env flav).
Proof. unfold emit_cmake_cmd_script. emits_nc. Qed.

Lemma emits_nc_emit_rebuild_scripts flav :
  emits_if valid no_cmake_run (emit_rebuild_scripts env flav).
Proof. unfold emit_rebuild_scripts. emits_nc. Qed.

(** The first loop never gets past its first flavor. *)
Lemma emits_nc_setup_flavors flav rest results :
  emits_if valid no_cmake_run (setup_flavors env (flav :: rest) results).
Proof.
  cbn [setup_flavors].
  apply emits_bind_globals. intros g Hg.
  apply emits_bind; [ solve [emits_nc] | intros _ ].
  apply emits_bind; [ solve [emits_nc] | intros _ ].
  apply emits_bind; [ apply emits_nc_emit_rebuild_scripts | intros _ ].
  apply emits_bind_abort; [ apply emits_nc_emit_cmake_cmd_script |].
  intros st a Hv Hret.
  pose proof (emit_cmake_cmd_script_never_returns env flav st Hv) as N.
  destruct (emit_cmake_cmd_script env flav st) as [[c | n | e] st1];
    cbn [fst] in Hret; try discriminate Hret.
  exact N.
Qed.

Lemma setup_flavors_first_never_returns flav rest results st a :
  valid (glob st) ->
  fst (setup_flavors env (flav :: rest) results st) <> Ret a.
Proof.
  intros Hv Hret.
  pose proof (setup_flavors_never_returns env flav rest results st Hv) as N.
  destruct (setup_flavors env (flav :: rest) results st) as [[c | n | e] st1];
    cbn [fst] in Hret; try discriminate Hret.
  exact N.
Qed.

Lemma emits_nc_do_setup_cmake :
  emits_if valid no_cmake_run (do_setup_cmake env).
Proof.
  unfold do_setup_cmake.
  apply emits_bind_globals. intros g Hg.
  apply emits_bind.
  { apply emits_when. unfold multiprocessing_Pool. emits_nc. }
  intros _.
  destruct (cmake_flavors g) as [| [flav d] rest]; cbn [map fst].
  - cbn [setup_flavors].
    change (emits_if valid no_cmake_run (ret tt)). apply emits_ret.
  - apply emits_bind_abort; [ apply emits_nc_setup_flavors |].
    intros st a Hv. apply setup_flavors_first_never_returns. exact Hv.
Qed.

End NoCmakeRun.

(** A result that is late ends the second loop on the spot: the
    [TimeoutError] of [r.get] is not caught, the results after it are
    not waited for and no failure is reported. *)
Lemma wait_results_timeout env idx r rest rc st :
  in_time env
    (trace st ++ [Verbose 1 ("waiting on result " ++ str_of_nat idx)])%list
    (ar_builddir r) (ar_cmd r) = false ->
  wait_results env idx (r :: rest) rc st
  = (Raise "TimeoutError",
     {| glob := glob st; cwd := cwd st;
        trace := (trace st
                  ++ [Verbose 1 ("waiting on result " ++ str_of_nat idx);
                      WaitResult idx 600])%list |}).
Proof.
  intros H. cbn [wait_results].
  unfold u_verbose, async_get, bind, emit, get_history, raise.
  cbn [glob cwd trace]. rewrite H. rewrite <- app_assoc. reflexivity.
Qed.

(** C6 (the code departs from the claim).  The claim says that with
    parallel execution on the runner waits for every dispatched result,
    each wait bounded by 600, and reports one aggregate error after the
    last.  On every table [parse_args] lets through (all keys are legal
    tags, so none is the integer 2), with parallel execution on,
    [do_setup_cmake] never gets that far, in any world, dry run or not:
    it does not return, it dispatches no cmake run, waits for no result
    and never reports [one or more cmake cmds failed].  The first
    flavor ends the run, at the latest in [emit_cmake_cmd_script],
    where [tup[2]] raises [KeyError]; without a flavor the pool cannot
    be created. *)
Theorem do_setup_cmake_never_dispatches :
  forall (env : world) (st : state),
    table_legal (cmake_flavors (glob st)) = true ->
    flag_parallel (glob st) = true ->
    let r := do_setup_cmake env st in
    fst r <> Ret tt
    /\ exists tl,
         trace (snd r) = (trace st ++ tl)%list
         /\ forallb no_cmake_run tl = true.
Proof.
  intros env st Hleg Hp r. subst r.
  pose proof (table_legal_valid _ Hleg) as Hv.
  split.
  - destruct (cmake_flavors (glob st)) as [| fd rest] eqn:E.
    + unfold do_setup_cmake. rewrite bind_get_globals, Hp, E. cbn. discriminate.
    + intros Hret.
      assert (Hne : cmake_flavors (glob st) <> []) by (rewrite E; discriminate).
      rewrite <- E in Hv.
      pose proof (do_setup_cmake_never_returns env st (conj Hv Hne)) as N.
      destruct (do_setup_cmake env st) as [[[] | n | e] st1];
        cbn [fst] in Hret; try discriminate Hret.
      exact N.
  - destruct (emits_nc_do_setup_cmake env st Hv) as (_ & tl & Ht & Hpf & _).
    exists tl. split; assumption.
Qed.

(** The table of the script, after [-r demo-vol -s demo-snap]. *)
Lemma do_setup_cmake_never_dispatches_witness :
  let r := do_setup_cmake calm_world snap_state in
  fst r <> Ret tt
  /\ exists tl,
       trace (snd r) = (trace snap_state ++ tl)%list
       /\ forallb no_cmake_run tl = true.
Proof.
  apply (do_setup_cmake_never_dispatches calm_world snap_state).
  - reflexivity.
  - reflexivity.
Defined.
